(** * ASN.1 DER codec of the SM2 signature layer

    A shallow embedding of the DER utilities (hex helper, length
    octets, INTEGER, SEQUENCE, SM2 signature, raw <-> DER conversion,
    XML visualization) together with the properties of the codec stated
    in the specification and further properties read from the code.

    Conventions of the embedding
    - a [Uint8Array] is a [list byte]; views made by [subarray] are
      never written through, so a view is modelled by the list of the
      bytes it shows;
    - a JavaScript number that is used as an integer is a [Z]; the 32-bit
      operators ([<<], [|], [&], [>>>]) carry their wrap-around;
    - a JavaScript string is the list of its UTF-16 code units;
    - a function that can throw returns an [outcome]; the loops whose
      number of iterations is not bounded by the code itself (the element
      loop of [decodeSequence], the loops and the recursion of
      [asn1ToXml]) take a fuel argument and answer [OutOfFuel] when the
      fuel does not suffice. *)

From Stdlib Require Import ZArith List Lia String Ascii Bool.
From Stdlib.Strings Require Import Byte.
From stdpp Require Import base list.
Import ListNotations.

Local Open Scope Z_scope.

(** ** Values *)

Abbreviation Uint8Array := (list byte).

(** UTF-16 code units of a JavaScript string. *)
Abbreviation jsstring := (list N).

(** A string literal of the source, as code units. *)
Definition js (s : string) : jsstring :=
  map N_of_ascii (list_ascii_of_string s).

(** The argument type [string | Uint8Array]. *)
Inductive StringOrBytes : Type :=
| Str (s : jsstring)
| Bytes (b : Uint8Array).

#[global] Instance byte_eq_decision : EqDecision byte := Byte.byte_eq_dec.

Definition len {A} (a : list A) : Z := Z.of_nat (length a).

Definition b2z (b : byte) : Z := Z.of_N (Byte.to_N b).

(** Storing a number into a [Uint8Array] element keeps it modulo 256. *)
Definition ToUint8 (z : Z) : byte :=
  match Byte.of_N (Z.to_N (z mod 256)) with
  | Some b => b
  | None => x00
  end.

(** [a[i]]: the element as a number, [None] for [undefined]. *)
Definition index (a : Uint8Array) (i : Z) : option Z :=
  if i <? 0 then None else b2z <$> a !! Z.to_nat i.

(** ** Exceptions and outcomes *)

Inductive exn : Type :=
| Error (msg : string)
| TypeError
| RangeError.

Inductive outcome (A : Type) : Type :=
| Ok (a : A)
| Throw (e : exn)
| OutOfFuel.
Arguments Ok {A} a.
Arguments Throw {A} e.
Arguments OutOfFuel {A}.

Definition bind {A B} (m : outcome A) (k : A -> outcome B) : outcome B :=
  match m with
  | Ok a => k a
  | Throw e => Throw e
  | OutOfFuel => OutOfFuel
  end.

Notation "'try' x <- m ; k" := (bind m (fun x => k))
  (at level 10, x name, m at level 100, k at level 200,
   format "'[v' 'try'  x  <-  m ; '/' k ']'").

Definition throws {A} (r : outcome A) : Prop := exists e, r = Throw e.

(** ** 32-bit integer operators *)

Definition ToInt32 (z : Z) : Z := (z + 2 ^ 31) mod 2 ^ 32 - 2 ^ 31.
Definition ToUint32 (z : Z) : Z := z mod 2 ^ 32.

(** [undefined] converts to [NaN] and then to [0]. *)
Definition ToInt32_value (v : option Z) : Z :=
  match v with
  | Some z => ToInt32 z
  | None => 0
  end.

(** [a << n] *)
Definition shl (a n : Z) : Z := ToInt32 (Z.shiftl (ToInt32 a) n).
(** [a | b] *)
Definition bor (a b : Z) : Z := ToInt32 (Z.lor (ToInt32 a) (ToInt32 b)).
(** [a & b] *)
Definition band (a b : Z) : Z := ToInt32 (Z.land (ToInt32 a) (ToInt32 b)).
(** [a >>> n] *)
Definition ushr (a n : Z) : Z := Z.shiftr (ToUint32 a) n.

(** ** Typed-array operations *)

(** [a.subarray(begin, end)], with the relative (negative) indices and
    the clamping of the language. *)
Definition subarray (a : Uint8Array) (begin end_ : Z) : Uint8Array :=
  let srcLength := len a in
  let beginIndex :=
    if begin <? 0 then Z.max (srcLength + begin) 0 else Z.min begin srcLength in
  let endIndex :=
    if end_ <? 0 then Z.max (srcLength + end_) 0 else Z.min end_ srcLength in
  let newLength := Z.max (endIndex - beginIndex) 0 in
  take (Z.to_nat newLength) (drop (Z.to_nat beginIndex) a).

(** [a.subarray(begin)] *)
Definition subarray_from (a : Uint8Array) (begin : Z) : Uint8Array :=
  subarray a begin (len a).

(** [new Uint8Array(n)] *)
Definition new_Uint8Array (n : Z) : Uint8Array := replicate (Z.to_nat n) x00.

(** [a[i] = v]; a write outside the array is ignored. *)
Definition store (a : Uint8Array) (i : Z) (v : Z) : Uint8Array :=
  if i <? 0 then a else <[Z.to_nat i := ToUint8 v]> a.

(** [target.set(src, offset)] *)
Definition set (target src : Uint8Array) (offset : Z) : outcome Uint8Array :=
  if (offset <? 0) || (len target <? offset + len src) then Throw RangeError
  else Ok (list_inserts (Z.to_nat offset) src target).

(** ** Strings *)

(** [s.substring(a, b)] for [0 <= a <= b]. *)
Definition substring (s : jsstring) (a b : Z) : jsstring :=
  take (Z.to_nat (Z.min b (len s)) - Z.to_nat (Z.min a (len s)))%nat
       (drop (Z.to_nat (Z.min a (len s))) s).

(** [s.padStart(targetLength, c)] for a one-unit filler [c]. *)
Definition padStart (s : jsstring) (targetLength : nat) (c : N) : jsstring :=
  replicate (targetLength - length s) c ++ s.

(** White space and line terminators, skipped in front by [parseInt]. *)
Definition isStrWhiteSpaceChar (c : N) : bool :=
  ((9 <=? c) && (c <=? 13) || (c =? 32) || (c =? 160) || (c =? 5760)
   || (8192 <=? c) && (c <=? 8202) || (c =? 8232) || (c =? 8233)
   || (c =? 8239) || (c =? 8287) || (c =? 12288) || (c =? 65279))%N.

(** The value of a radix-16 digit. *)
Definition hexDigitValue (c : N) : option Z :=
  (if (48 <=? c) && (c <=? 57) then Some (Z.of_N (c - 48))
   else if (97 <=? c) && (c <=? 102) then Some (Z.of_N (c - 87))
   else if (65 <=? c) && (c <=? 70) then Some (Z.of_N (c - 55))
   else None)%N.

Fixpoint trimStart (s : jsstring) : jsstring :=
  match s with
  | c :: s' => if isStrWhiteSpaceChar c then trimStart s' else s
  | [] => []
  end.

(** The longest prefix of radix-16 digits, as digit values. *)
Fixpoint hexPrefix (s : jsstring) : list Z :=
  match s with
  | c :: s' =>
      match hexDigitValue c with
      | Some d => d :: hexPrefix s'
      | None => []
      end
  | [] => []
  end.

Definition startsWith (s : jsstring) (c : N) : bool :=
  match s with
  | x :: _ => (x =? c)%N
  | [] => false
  end.

(** The first two code units are [0x] or [0X]. *)
Definition startsWith0x (s : jsstring) : bool :=
  match s with
  | a :: b :: _ => ((a =? 48) && ((b =? 120) || (b =? 88)))%N
  | _ => false
  end.

(** [parseInt(s, 16)]; [None] is [NaN].  Leading white space is skipped,
    one sign is read, a [0x] prefix is dropped, and the longest prefix of
    radix-16 digits gives the value.  The digits are read exactly, which
    is what the language does below [2^53]. *)
Definition parseInt16 (s : jsstring) : option Z :=
  let S := trimStart s in
  let sign := if startsWith S 45 then -1 else 1 in
  let S := if startsWith S 43 || startsWith S 45 then drop 1 S else S in
  let S := if startsWith0x S then drop 2 S else S in
  match hexPrefix S with
  | [] => None
  | digits => Some (sign * fold_left (fun acc d => acc * 16 + d) digits 0)
  end.

(** A number stored into a [Uint8Array] element: [NaN] becomes [0]. *)
Definition store_value (a : Uint8Array) (i : Z) (v : option Z) : Uint8Array :=
  store a i (default 0 v).

(** The digit of [n.toString(16)] for [n < 16]. *)
Definition hexDigit (d : N) : N := (if d <? 10 then 48 + d else 87 + d)%N.

(** [i.toString(16)] for [0 <= i < 256]. *)
Definition toString16 (i : N) : jsstring :=
  (if i <? 16 then [hexDigit i] else [hexDigit (i / 16); hexDigit (i mod 16)])%N.

(** The message text of a string built from code units below 256. *)
Definition text (s : jsstring) : string :=
  string_of_list_ascii (map ascii_of_N s).

(** ** The hex helper *)

Module Hex.

(** [byteToHex[b]]: the table entry [b.toString(16).padStart(2, '0')]. *)
Definition byteToHex (b : byte) : jsstring :=
  padStart (toString16 (Byte.to_N b)) 2 48%N.

Definition encode (bytes : Uint8Array) : jsstring :=
  concat (map byteToHex bytes).

(** The loop [for (i = 0; i < len; i++) bytes[i] = parseInt(...)],
    run for the indices [i, i+1, ..., i+n-1]. *)
Fixpoint decode_loop (n : nat) (hex : jsstring) (i : Z) (bytes : Uint8Array)
  : Uint8Array :=
  match n with
  | O => bytes
  | S n' =>
      decode_loop n' hex (i + 1)
        (store_value bytes i (parseInt16 (substring hex (i * 2) (i * 2 + 2))))
  end.

Definition decode (hex : jsstring) : outcome Uint8Array :=
  if negb (len hex mod 2 =? 0) then Throw (Error "Invalid hex string length")
  else
    let len_ := len hex / 2 in
    let bytes := new_Uint8Array len_ in
    Ok (decode_loop (Z.to_nat len_) hex 0 bytes).

End Hex.

(** ** DER length octets *)

(** The loop [while (temp > 0) { byteCount++; temp >>>= 8; }].  After one
    unsigned shift [temp] is below [2^24], so four rounds always reach
    the exit (lemma [byteCount_loop_exit]). *)
Fixpoint byteCount_loop (fuel : nat) (temp byteCount : Z) : Z * Z :=
  if temp >? 0 then
    match fuel with
    | O => (temp, byteCount)
    | S fuel' => byteCount_loop fuel' (ushr temp 8) (byteCount + 1)
    end
  else (temp, byteCount).

(** The loop [for (i = byteCount; i > 0; i--) { result[i] = temp & 0xff;
    temp >>>= 8; }]. *)
Fixpoint fill_loop (i : nat) (temp : Z) (result : Uint8Array) : Uint8Array :=
  match i with
  | O => result
  | S i' =>
      fill_loop i' (ushr temp 8) (store result (Z.of_nat i) (band temp 255))
  end.

Definition encodeLength (length : Z) : Uint8Array :=
  if length <? 128 then [ToUint8 length]
  else
    let byteCount := snd (byteCount_loop 4 length 0) in
    let result := new_Uint8Array (byteCount + 1) in
    let result := store result 0 (bor 128 byteCount) in
    fill_loop (Z.to_nat byteCount) length result.

Record LengthInfo : Type := mkLengthInfo { dl_length : Z; dl_bytesRead : Z }.

(** The loop [for (i = 0; i < numBytes; i++)
    length = (length << 8) | data[offset + 1 + i]], run for the
    indices [i, ..., i+n-1]. *)
Fixpoint length_loop (n : nat) (data : Uint8Array) (offset i length : Z) : Z :=
  match n with
  | O => length
  | S n' =>
      length_loop n' data offset (i + 1)
        (bor (shl length 8) (ToInt32_value (index data (offset + 1 + i))))
  end.

Definition decodeLength (data : Uint8Array) (offset : Z) : outcome LengthInfo :=
  if offset >=? len data then Throw (Error "Offset out of bounds")
  else
    let firstByte := index data offset in
    if match firstByte with Some b => b <? 128 | None => false end
    then Ok (mkLengthInfo (default 0 firstByte) 1)
    else
      let numBytes := band (ToInt32_value firstByte) 127 in
      if (numBytes =? 0) || (numBytes >? 4)
      then Throw (Error "Invalid or unsupported long form length")
      else if offset + 1 + numBytes >? len data
      then Throw (Error "Length bytes out of bounds")
      else
        let length := length_loop (Z.to_nat numBytes) data offset 0 0 in
        Ok (mkLengthInfo length (1 + numBytes)).

(** ** INTEGER *)

Definition ASN1Tag_INTEGER : Z := 2.
Definition ASN1Tag_SEQUENCE : Z := 48.

(** The loop [while (start < bytes.length - 1 && bytes[start] === 0)
    start++].  It runs fewer than [bytes.length] rounds (lemma
    [strip_loop_exit]). *)
Fixpoint strip_loop (fuel : nat) (bytes : Uint8Array) (start : Z) : Z :=
  if (start <? len bytes - 1) && bool_decide (index bytes start = Some 0) then
    match fuel with
    | O => start
    | S fuel' => strip_loop fuel' bytes (start + 1)
    end
  else start.

Definition encodeInteger (value : StringOrBytes) : outcome Uint8Array :=
  try bytes <- match value with
               | Str s => Hex.decode s
               | Bytes b => Ok b
               end;
  let start := strip_loop (length bytes) bytes 0 in
  let bytes := if start >? 0 then subarray_from bytes start else bytes in
  let needPadding := negb (band (ToInt32_value (index bytes 0)) 128 =? 0) in
  let contentLen := len bytes + (if needPadding then 1 else 0) in
  let lengthBytes := encodeLength contentLen in
  let result := new_Uint8Array (1 + len lengthBytes + contentLen) in
  let offset := 0 in
  let result := store result offset ASN1Tag_INTEGER in
  let offset := offset + 1 in
  try result <- set result lengthBytes offset;
  let offset := offset + len lengthBytes in
  let '(result, offset) :=
    if needPadding then (store result offset 0, offset + 1)
    else (result, offset) in
  try result <- set result bytes offset;
  Ok result.

Record IntegerInfo : Type :=
  mkIntegerInfo { di_value : Uint8Array; di_bytesRead : Z }.

Definition decodeInteger (data : Uint8Array) (offset : Z) : outcome IntegerInfo :=
  match index data offset with
  | None => Throw TypeError
  | Some tag =>
      if negb (tag =? ASN1Tag_INTEGER)
      then Throw (Error ("Expected INTEGER tag (0x02), got 0x"
                         ++ text (toString16 (Z.to_N tag))))
      else
        try li <- decodeLength data (offset + 1);
        let length := dl_length li in
        let lengthBytes := dl_bytesRead li in
        let start := offset + 1 + lengthBytes in
        let end_ := start + length in
        if end_ >? len data then Throw (Error "Integer value out of bounds")
        else
          let value := subarray data start end_ in
          let value :=
            if (len value >? 1) && bool_decide (index value 0 = Some 0)
            then subarray_from value 1 else value in
          Ok (mkIntegerInfo value (1 + lengthBytes + length))
  end.

(** ** SEQUENCE *)

(** The loop [for (const element of elements) { result.set(element,
    offset); offset += element.length; }]. *)
Fixpoint set_all (elements : list Uint8Array) (result : Uint8Array)
  (offset : Z) : outcome Uint8Array :=
  match elements with
  | [] => Ok result
  | element :: rest =>
      try result <- set result element offset;
      set_all rest result (offset + len element)
  end.

Definition encodeSequence (elements : list Uint8Array) : outcome Uint8Array :=
  let contentLength := fold_left (fun acc el => acc + len el) elements 0 in
  let lengthBytes := encodeLength contentLength in
  let result := new_Uint8Array (1 + len lengthBytes + contentLength) in
  let result := store result 0 ASN1Tag_SEQUENCE in
  try result <- set result lengthBytes 1;
  let offset := 1 + len lengthBytes in
  set_all elements result offset.

Record SequenceInfo : Type :=
  mkSequenceInfo { ds_elements : list Uint8Array; ds_bytesRead : Z }.

(** The loop [while (pos < contentEnd) { ... pos += elemTotalLength; }].
    Nothing in the code bounds its number of rounds (an element whose
    decoded length is negative can move [pos] backwards), hence the fuel. *)
Fixpoint decodeSequence_loop (fuel : nat) (data : Uint8Array)
  (contentEnd pos : Z) (elements : list Uint8Array)
  : outcome (list Uint8Array) :=
  if pos <? contentEnd then
    match fuel with
    | O => OutOfFuel
    | S fuel' =>
        try li <- decodeLength data (pos + 1);
        let elemLength := dl_length li in
        let elemLengthBytes := dl_bytesRead li in
        let elemTotalLength := 1 + elemLengthBytes + elemLength in
        let elements :=
          elements ++ [subarray data pos (pos + elemTotalLength)] in
        decodeSequence_loop fuel' data contentEnd (pos + elemTotalLength)
          elements
    end
  else Ok elements.

Definition decodeSequence (fuel : nat) (data : Uint8Array) (offset : Z)
  : outcome SequenceInfo :=
  if negb (bool_decide (index data offset = Some ASN1Tag_SEQUENCE))
  then Throw (Error "Expected SEQUENCE tag")
  else
    try li <- decodeLength data (offset + 1);
    let length := dl_length li in
    let lengthBytes := dl_bytesRead li in
    let contentStart := offset + 1 + lengthBytes in
    let contentEnd := contentStart + length in
    if contentEnd >? len data then Throw (Error "Sequence content out of bounds")
    else
      try elements <- decodeSequence_loop fuel data contentEnd contentStart [];
      Ok (mkSequenceInfo elements (1 + lengthBytes + length)).

(** ** SM2 signatures *)

Definition encodeSignature (r s : StringOrBytes) : outcome Uint8Array :=
  try rEncoded <- encodeInteger r;
  try sEncoded <- encodeInteger s;
  encodeSequence [rEncoded; sEncoded].

Record Signature : Type := mkSignature { sig_r : jsstring; sig_s : jsstring }.

Definition decodeSignature (fuel : nat) (signature : Uint8Array)
  : outcome Signature :=
  try seq <- decodeSequence fuel signature 0;
  match ds_elements seq with
  | [e0; e1] =>
      try ri <- decodeInteger e0 0;
      try si <- decodeInteger e1 0;
      Ok (mkSignature (Hex.encode (di_value ri)) (Hex.encode (di_value si)))
  | _ => Throw (Error "Invalid signature: expected 2 elements (r, s)")
  end.

Definition rawToDer (rawSignature : StringOrBytes) : outcome Uint8Array :=
  try bytes <- match rawSignature with
               | Str s =>
                   if negb (len s =? 128)
                   then Throw (Error "Raw signature string must be 128 hex chars")
                   else Hex.decode s
               | Bytes b =>
                   if negb (len b =? 64)
                   then Throw (Error "Raw signature bytes must be 64 bytes")
                   else Ok b
               end;
  let r := subarray bytes 0 32 in
  let s := subarray bytes 32 64 in
  encodeSignature (Bytes r) (Bytes s).

Definition derToRaw (fuel : nat) (derSignature : Uint8Array) : outcome jsstring :=
  try sig <- decodeSignature fuel derSignature;
  let rPadded := padStart (sig_r sig) 64 48%N in
  let sPadded := padStart (sig_s sig) 64 48%N in
  Ok (rPadded ++ sPadded).

(** ** Visualization *)

Definition ASN1Tag_BIT_STRING : Z := 3.
Definition ASN1Tag_OCTET_STRING : Z := 4.
Definition ASN1Tag_NULL : Z := 5.
Definition ASN1Tag_OBJECT_IDENTIFIER : Z := 6.

(** The line feed of the string literals. *)
Definition LF : jsstring := [10%N].

(** [s.repeat(count)] for an integer [count]. *)
Definition String_repeat (s : jsstring) (count : Z) : outcome jsstring :=
  if count <? 0 then Throw RangeError
  else Ok (concat (replicate (Z.to_nat count) s)).

(** [s.toUpperCase()] for a string of ASCII characters. *)
Definition toUpperCase (s : jsstring) : jsstring :=
  map (fun c => if (97 <=? c) && (c <=? 122) then c - 32 else c)%N s.

(** [s.startsWith(prefix)] *)
Fixpoint startsWith_string (s prefix : jsstring) {struct prefix} : bool :=
  match prefix, s with
  | [], _ => true
  | p :: prefix', c :: s' => (c =? p)%N && startsWith_string s' prefix'
  | _ :: _, [] => false
  end.

(** [s.trimEnd()] *)
Definition trimEnd (s : jsstring) : jsstring := rev (trimStart (rev s)).

(** [parts.join(sep)] *)
Definition join (sep : jsstring) (parts : list jsstring) : jsstring :=
  match parts with
  | [] => []
  | first :: others => first ++ concat (map (fun part => sep ++ part) others)
  end.

(** The [switch] over the tag of an element. *)
Definition tagName (tag : Z) : jsstring :=
  if tag =? ASN1Tag_INTEGER then js "INTEGER"
  else if tag =? ASN1Tag_BIT_STRING then js "BIT_STRING"
  else if tag =? ASN1Tag_OCTET_STRING then js "OCTET_STRING"
  else if tag =? ASN1Tag_NULL then js "NULL"
  else if tag =? ASN1Tag_OBJECT_IDENTIFIER then js "OBJECT_IDENTIFIER"
  else if tag =? ASN1Tag_SEQUENCE then js "SEQUENCE"
  else js "TAG_0x" ++ padStart (toUpperCase (toString16 (Z.to_N tag))) 2 48%N.

(** The two loops of [asn1ToXml], over the elements of a SEQUENCE and
    over the elements at top level, have one shape:
    [while (offset < end) { decodeLength(data, offset + 1);
    recurse(offset, ...); offset = offset + 1 + bytesRead + length; }].
    Nothing in the code bounds the number of rounds, hence the counter
    [n]. *)
Fixpoint element_loop
  (recurse : Z -> list jsstring -> outcome (list jsstring))
  (n : nat) (data : Uint8Array) (contentEnd subOffset : Z)
  (buffer : list jsstring) : outcome (list jsstring) :=
  if subOffset <? contentEnd then
    match n with
    | O => OutOfFuel
    | S n' =>
        try subTagLenInfo <- decodeLength data (subOffset + 1);
        let nextOffset :=
          subOffset + 1 + dl_bytesRead subTagLenInfo + dl_length subTagLenInfo in
        try buffer <- recurse subOffset buffer;
        element_loop recurse n' data contentEnd nextOffset buffer
    end
  else Ok buffer.

(** The inner function [recurse] of [asn1ToXml]; [buffer] is the array of
    the strings pushed so far, and [fuel] bounds the depth of the calls
    and the rounds of each loop. *)
Fixpoint recurse (fuel : nat) (data : Uint8Array) (offset level : Z)
  (buffer : list jsstring) : outcome (list jsstring) :=
  match fuel with
  | O => OutOfFuel
  | S fuel' =>
      if offset >=? len data then Ok buffer
      else
        try spaces <- String_repeat (js "  ") level;
        let tag := index data offset in
        try li <- decodeLength data (offset + 1);
        let length := dl_length li in
        let lengthBytes := dl_bytesRead li in
        let contentStart := offset + 1 + lengthBytes in
        let contentEnd := contentStart + length in
        try tagName <- match tag with
                       | Some t => Ok (tagName t)
                       | None => Throw TypeError
                       end;
        let buffer := buffer ++ [spaces ++ js "<" ++ tagName ++ js ">"] in
        try buffer <-
          if bool_decide (tag = Some ASN1Tag_SEQUENCE) then
            let buffer := buffer ++ [LF] in
            try buffer <-
              element_loop (fun o b => recurse fuel' data o (level + 1) b)
                fuel' data contentEnd contentStart buffer;
            Ok (buffer ++ [spaces])
          else
            let value := subarray data contentStart contentEnd in
            let hexValue := Hex.encode value in
            if bool_decide (tag = Some ASN1Tag_NULL) then Ok buffer
            else Ok (buffer ++ [LF ++ spaces ++ js "  <value>" ++ hexValue
                                ++ js "</value>" ++ LF ++ spaces]);
        Ok (buffer ++ [js "</" ++ tagName ++ js ">" ++ LF])
  end.

Definition asn1ToXml (fuel : nat) (data : Uint8Array) (indent : Z)
  : outcome jsstring :=
  try buffer <-
    element_loop (fun o b => recurse fuel data o indent b)
      fuel data (len data) 0 [];
  Ok (concat buffer).

(** The first line of the XML document; [34] is the double quote. *)
Definition xml_declaration : jsstring :=
  js "<?xml version=" ++ [34%N] ++ js "1.0" ++ [34%N]
  ++ js " encoding=" ++ [34%N] ++ js "UTF-8" ++ [34%N] ++ js "?>".

(** The parameter [isDer] of the source is assigned in both branches
    before anything reads it, and nothing reads it afterwards. *)
Definition signatureToXml (fuel : nat) (signature : StringOrBytes)
  : outcome jsstring :=
  try derBytes <-
    match signature with
    | Str cleanSig =>
        let isDer :=
          startsWith_string cleanSig (js "30") && (len cleanSig >? 130) in
        if isDer then Hex.decode cleanSig else rawToDer (Str cleanSig)
    | Bytes b => Ok b
    end;
  try sig <- decodeSignature fuel derBytes;
  try xml <- asn1ToXml fuel derBytes 2;
  Ok (join LF
        [ xml_declaration;
          js "<SM2Signature>";
          js "  <r>" ++ sig_r sig ++ js "</r>";
          js "  <s>" ++ sig_s sig ++ js "</s>";
          js "  <DER>";
          trimEnd xml;
          js "  </DER>";
          js "</SM2Signature>" ]).

(** * Definitions used to state the properties *)

(** The octets of [n] in base 256, most significant first, on [k] octets. *)
Fixpoint be_bytes (k : nat) (n : Z) : Uint8Array :=
  match k with
  | O => []
  | S k' => be_bytes k' (n / 256) ++ [ToUint8 n]
  end.

(** The unsigned number that a list of octets writes in base 256. *)
Definition be_value (bs : Uint8Array) : Z :=
  fold_left (fun v b => v * 256 + b2z b) bs 0.

(** The accumulation of [decodeLength] over a list of octets. *)
Definition be_int32 (bs : Uint8Array) (acc : Z) : Z :=
  fold_left (fun acc b => bor (shl acc 8) (b2z b)) bs acc.

(** The number of base-256 digits of a positive number below [2^32]. *)
Definition byte_count (n : Z) : Z :=
  if n <? 2 ^ 8 then 1
  else if n <? 2 ^ 16 then 2
  else if n <? 2 ^ 24 then 3
  else 4.

(** Lowercase radix-16 digits. *)
Definition isLowerHexDigit (c : N) : bool :=
  ((48 <=? c) && (c <=? 57) || (97 <=? c) && (c <=? 102))%N.

(** An even-length string of lowercase radix-16 digits. *)
Definition isLowerHex (h : jsstring) : bool :=
  Nat.even (length h) && forallb isLowerHexDigit h.

(** The byte that [Hex.decode] stores for the pair [c1 c2]. *)
Definition pair_byte (c1 c2 : N) : byte :=
  ToUint8 (default 0 (parseInt16 [c1; c2])).

(** The bytes of a string read two code units at a time. *)
Fixpoint decode_pairs (h : jsstring) : Uint8Array :=
  match h with
  | c1 :: c2 :: h' => pair_byte c1 c2 :: decode_pairs h'
  | _ => []
  end.

Definition lowerHexDigits : list N :=
  [48; 49; 50; 51; 52; 53; 54; 55; 56; 57; 97; 98; 99; 100; 101; 102]%N.

(** The octets of a value without its redundant leading zero octets: a
    zero octet in front is dropped as long as another octet follows. *)
Fixpoint minimal_octets (v : Uint8Array) : Uint8Array :=
  match v with
  | b :: (_ :: _) as tl => if bool_decide (b = x00) then minimal_octets tl else v
  | _ => v
  end.

(** The most significant bit of the first octet is set. *)
Definition msb_set (v : Uint8Array) : bool :=
  match v with
  | b :: _ => Z.testbit (b2z b) 7
  | [] => false
  end.

(** The content octets of the DER INTEGER of a non-negative value: the
    minimal octets, behind one zero octet when their first bit is set. *)
Definition der_content (v : Uint8Array) : Uint8Array :=
  (if msb_set (minimal_octets v) then [x00] else []) ++ minimal_octets v.

(** A tag-length-value element with the length in DER form. *)
Definition tlv (tag : byte) (content : Uint8Array) : Uint8Array :=
  tag :: encodeLength (len content) ++ content.

(** The value octets that [decodeInteger] hands out for given content
    octets. *)
Definition unpad (content : Uint8Array) : Uint8Array :=
  match content with
  | b :: (_ :: _) as tl => if bool_decide (b = x00) then tl else content
  | _ => content
  end.

(** The bytes that a component denotes: the array itself, or the bytes
    that [Hex.decode] reads from the string. *)
Definition component_bytes (v : StringOrBytes) : Uint8Array :=
  match v with
  | Str h => decode_pairs h
  | Bytes b => b
  end.

(** The lowercase hex string of a component. *)
Definition hex_of (v : StringOrBytes) : jsstring :=
  match v with
  | Str h => h
  | Bytes b => Hex.encode b
  end.

(** A signature component: an even-length lowercase hex string or a byte
    array. *)
Definition isComponent (v : StringOrBytes) : bool :=
  match v with
  | Str h => isLowerHex h
  | Bytes _ => true
  end.

(** A raw signature: 128 lowercase hex digits or 64 bytes. *)
Definition isRawSignature (v : StringOrBytes) : bool :=
  match v with
  | Str h => (length h =? 128)%nat && forallb isLowerHexDigit h
  | Bytes b => (length b =? 64)%nat
  end.

(** The DER signature of two byte strings. *)
Definition der_signature (rb sb : Uint8Array) : Uint8Array :=
  tlv x30 (tlv x02 (der_content rb) ++ tlv x02 (der_content sb)).

(** A raw signature with leading zero octets in [r] and the top bit set
    in [s]. *)
Definition sample_raw : Uint8Array :=
  replicate 31 x00 ++ [x01] ++ replicate 32 xff.

(** ** Definitions used by the further properties *)

(** A radix-16 digit of either case. *)
Definition isHexDigit (c : N) : bool :=
  match hexDigitValue c with
  | Some _ => true
  | None => false
  end.

(** The bytes that a string of radix-16 digits writes, two digits to a
    byte, most significant digit first. *)
Fixpoint hex_value_bytes (h : jsstring) : Uint8Array :=
  match h with
  | c1 :: c2 :: h' =>
      ToUint8 (16 * default 0 (hexDigitValue c1) + default 0 (hexDigitValue c2))
      :: hex_value_bytes h'
  | _ => []
  end.

(** No position of [data] makes [decodeLength] return a negative
    length. *)
Definition lengths_nonneg (data : Uint8Array) : bool :=
  forallb
    (fun p => match decodeLength data (Z.of_nat p) with
              | Ok li => 0 <=? dl_length li
              | _ => true
              end)
    (seq 0 (length data)).

(** A DER element as [asn1ToXml] reads it: a SEQUENCE (tag [30]) of
    elements, or an element of another tag with its content octets. *)
#[warnings="-register-all"]
Inductive element : Type :=
| Primitive (tag : byte) (content : Uint8Array)
| Constructed (children : list element).

(** The DER octets of an element. *)
Fixpoint der (e : element) : Uint8Array :=
  match e with
  | Primitive tag content => tlv tag content
  | Constructed children => tlv x30 (concat (map der children))
  end.

Definition el_tag (e : element) : byte :=
  match e with
  | Primitive tag _ => tag
  | Constructed _ => x30
  end.

Definition el_content (e : element) : Uint8Array :=
  match e with
  | Primitive _ content => content
  | Constructed children => concat (map der children)
  end.

(** No element but a SEQUENCE carries the tag [30], and every content is
    shorter than [2^31] octets. *)
Fixpoint wellformed (e : element) : bool :=
  match e with
  | Primitive tag content =>
      negb (bool_decide (tag = x30)) && (len content <? 2 ^ 31)
  | Constructed children =>
      forallb wellformed children
      && (len (concat (map der children)) <? 2 ^ 31)
  end.

(** The number of elements in an element. *)
Fixpoint nodes (e : element) : nat :=
  match e with
  | Primitive _ _ => 1
  | Constructed children => S (list_sum (map nodes children))
  end.

(** The white space in front of a line at nesting depth [level]. *)
Definition indentation (level : Z) : jsstring :=
  concat (replicate (Z.to_nat level) (js "  ")).

(** The expected XML text of an element with tag name [name] showing the
    octets [shown]. *)
Definition primitive_xml (level : Z) (tag : byte) (shown : Uint8Array)
  : jsstring :=
  indentation level ++ js "<" ++ tagName (b2z tag) ++ js ">"
  ++ (if bool_decide (tag = x05) then []
      else LF ++ indentation level ++ js "  <value>" ++ Hex.encode shown
           ++ js "</value>" ++ LF ++ indentation level)
  ++ js "</" ++ tagName (b2z tag) ++ js ">" ++ LF.

(** The expected XML text of an element. *)
Fixpoint xml (level : Z) (e : element) : jsstring :=
  match e with
  | Primitive tag content => primitive_xml level tag content
  | Constructed children =>
      indentation level ++ js "<SEQUENCE>" ++ LF
      ++ concat (map (xml (level + 1)) children)
      ++ indentation level ++ js "</SEQUENCE>" ++ LF
  end.

(** The call [r] returns a buffer that holds, after the strings of
    [buffer], strings that make up [out]. *)
Definition renders (r : outcome (list jsstring)) (buffer : list jsstring)
  (out : jsstring) : Prop :=
  exists buffer', r = Ok buffer' /\ concat buffer' = concat buffer ++ out.

(** The signature of two byte strings as an element. *)
Definition signature_element (rb sb : Uint8Array) : element :=
  Constructed [Primitive x02 (der_content rb); Primitive x02 (der_content sb)].

(** The expected XML document of the signature of two byte strings. *)
Definition signature_xml (rb sb : Uint8Array) : jsstring :=
  xml_declaration ++ LF
  ++ js "<SM2Signature>" ++ LF
  ++ js "  <r>" ++ Hex.encode (minimal_octets rb) ++ js "</r>" ++ LF
  ++ js "  <s>" ++ Hex.encode (minimal_octets sb) ++ js "</s>" ++ LF
  ++ js "  <DER>" ++ LF
  ++ removelast (xml 2 (signature_element rb sb)) ++ LF
  ++ js "  </DER>" ++ LF
  ++ js "</SM2Signature>".

(** * Properties *)

(** ** Bytes and 32-bit arithmetic *)

Section Arithmetic.

Lemma b2z_range (b : byte) : 0 <= b2z b < 256.
Proof.
  unfold b2z. pose proof (Byte.to_N_bounded b) as H.
  split; [apply N2Z.is_nonneg|]. apply N.lt_succ_r in H. lia.
Qed.

Lemma b2z_ToUint8 (z : Z) : b2z (ToUint8 z) = z mod 256.
Proof.
  unfold b2z, ToUint8.
  assert (Hr : 0 <= z mod 256 < 256) by (apply Z.mod_pos_bound; lia).
  destruct (Byte.of_N (Z.to_N (z mod 256))) as [b|] eqn:E.
  - apply Byte.to_of_N in E. rewrite E. lia.
  - apply Byte.of_N_None_iff in E. lia.
Qed.

Lemma ToUint8_b2z (b : byte) : ToUint8 (b2z b) = b.
Proof.
  unfold ToUint8. pose proof (b2z_range b) as Hr.
  rewrite Z.mod_small by lia. unfold b2z.
  rewrite N2Z.id, Byte.of_to_N. reflexivity.
Qed.

Lemma b2z_inj (a b : byte) : b2z a = b2z b -> a = b.
Proof. intros H. rewrite <- (ToUint8_b2z a), <- (ToUint8_b2z b). now rewrite H. Qed.

Lemma b2z_zero (b : byte) : b2z b = 0 <-> b = x00.
Proof. split; [intros H; now apply b2z_inj | intros ->; reflexivity]. Qed.

Lemma ToUint8_mod (z : Z) : ToUint8 (z mod 256) = ToUint8 z.
Proof. apply b2z_inj. rewrite !b2z_ToUint8. apply Z.mod_mod. lia. Qed.

Lemma ToInt32_id (z : Z) : - 2 ^ 31 <= z < 2 ^ 31 -> ToInt32 z = z.
Proof. intros H. unfold ToInt32. rewrite Z.mod_small; lia. Qed.

Lemma ToInt32_high (z : Z) : 2 ^ 31 <= z < 2 ^ 32 -> ToInt32 z = z - 2 ^ 32.
Proof.
  intros H. unfold ToInt32.
  replace (z + 2 ^ 31) with (z - 2 ^ 31 + 1 * 2 ^ 32) by lia.
  rewrite Z.mod_add by lia. rewrite Z.mod_small; lia.
Qed.

Lemma ToInt32_mod (z : Z) : ToInt32 z mod 2 ^ 32 = z mod 2 ^ 32.
Proof.
  unfold ToInt32.
  rewrite Zminus_mod, Z.mod_mod by lia. rewrite <- Zminus_mod.
  f_equal. lia.
Qed.

(** [y | b] adds [b] when [y] is a multiple of 256 and [b] is a byte. *)
Lemma lor_low_byte (q b : Z) : 0 <= b < 256 -> Z.lor (q * 256) b = q * 256 + b.
Proof.
  intros Hb. rewrite Z.add_nocarry_lxor, Z.lxor_lor; trivial.
  all: apply Z.bits_inj'; intros n Hn; rewrite Z.land_spec, Z.bits_0.
  all: destruct (Z.lt_ge_cases n 8) as [Hlt|Hge].
  all: try (change 256 with (2 ^ 8); rewrite Z.mul_pow2_bits_low by lia; reflexivity).
  all: rewrite (Z.bits_above_log2 b n), andb_false_r; trivial; try lia.
  all: destruct (Z.eq_dec b 0) as [->|Hnz]; [simpl; lia|].
  all: apply Z.lt_le_trans with 8; [|lia].
  all: apply Z.log2_lt_pow2; lia.
Qed.

(** [t & 0xff] is the low byte of [t]. *)
Lemma band_255 (t : Z) : band t 255 = t mod 256.
Proof.
  unfold band. rewrite (ToInt32_id 255) by lia.
  change 255 with (Z.ones 8). rewrite Z.land_ones by lia.
  change (2 ^ 8) with 256.
  assert (E : ToInt32 t mod 256 = t mod 256).
  { unfold ToInt32. Z.div_mod_to_equations. lia. }
  rewrite E. apply ToInt32_id.
  pose proof (Z.mod_pos_bound t 256). lia.
Qed.

(** One round of the length accumulation: shift by a byte, or in the next
    octet, wrapping to 32 bits. *)
Lemma length_step (acc b : Z) :
  0 <= acc < 2 ^ 24 -> 0 <= b < 256 ->
  bor (shl acc 8) b = ToInt32 (acc * 256 + b).
Proof.
  intros Ha Hb. unfold bor, shl.
  rewrite (ToInt32_id acc), (ToInt32_id b) by lia.
  rewrite Z.shiftl_mul_pow2 by lia. change (2 ^ 8) with 256.
  destruct (Z.lt_ge_cases (acc * 256) (2 ^ 31)) as [Hlo|Hhi].
  - rewrite !(ToInt32_id (acc * 256)) by lia.
    rewrite lor_low_byte by lia.
    rewrite ToInt32_id; [|lia]. reflexivity.
  - rewrite !(ToInt32_high (acc * 256)) by lia.
    rewrite (ToInt32_id (acc * 256 - 2 ^ 32)) by lia.
    replace (acc * 256 - 2 ^ 32) with ((acc - 2 ^ 24) * 256) by lia.
    rewrite lor_low_byte by lia.
    rewrite ToInt32_id by lia. rewrite ToInt32_high by lia. lia.
Qed.

Lemma ushr_8 (t : Z) : 0 <= t < 2 ^ 32 -> ushr t 8 = t / 256.
Proof.
  intros H. unfold ushr, ToUint32. rewrite Z.mod_small by lia.
  now rewrite Z.shiftr_div_pow2 by lia.
Qed.

End Arithmetic.

(** ** Typed arrays as lists *)

Section Arrays.

Lemma len_nonneg {A} (a : list A) : 0 <= len a.
Proof. unfold len. lia. Qed.

Lemma len_app {A} (a b : list A) : len (a ++ b) = len a + len b.
Proof. unfold len. rewrite length_app. lia. Qed.

Lemma len_cons {A} (x : A) (a : list A) : len (x :: a) = 1 + len a.
Proof. unfold len. simpl. lia. Qed.

Lemma len_nil {A} : len (@nil A) = 0.
Proof. reflexivity. Qed.

Lemma to_nat_len {A} (a : list A) : Z.to_nat (len a) = length a.
Proof. unfold len. lia. Qed.

Lemma len_new (n : Z) : 0 <= n -> len (new_Uint8Array n) = n.
Proof. intros H. unfold len, new_Uint8Array. rewrite length_replicate. lia. Qed.

Lemma new_add (a b : Z) :
  0 <= a -> 0 <= b ->
  new_Uint8Array (a + b) = new_Uint8Array a ++ new_Uint8Array b.
Proof.
  intros Ha Hb. unfold new_Uint8Array.
  rewrite Z2Nat.inj_add by lia. apply replicate_add.
Qed.

Lemma new_1 : new_Uint8Array 1 = [x00].
Proof. reflexivity. Qed.

Lemma index_app (pre post : Uint8Array) (b : byte) :
  index (pre ++ b :: post) (len pre) = Some (b2z b).
Proof.
  unfold index. pose proof (len_nonneg pre) as H.
  destruct (Z.ltb_spec (len pre) 0); [lia|].
  rewrite to_nat_len, list_lookup_middle; reflexivity.
Qed.

Lemma index_head (b : byte) (post : Uint8Array) : index (b :: post) 0 = Some (b2z b).
Proof. reflexivity. Qed.

Lemma index_outside (a : Uint8Array) (i : Z) :
  i < 0 \/ len a <= i -> index a i = None.
Proof.
  intros H. unfold index. destruct (Z.ltb_spec i 0); [reflexivity|].
  rewrite lookup_ge_None_2; [reflexivity|]. unfold len in H. lia.
Qed.

Lemma index_inside (a : Uint8Array) (i : Z) :
  0 <= i < len a -> exists b, index a i = Some (b2z b) /\ a !! Z.to_nat i = Some b.
Proof.
  intros H. unfold index. destruct (Z.ltb_spec i 0); [lia|].
  destruct (lookup_lt_is_Some_2 a (Z.to_nat i)) as [b Hb].
  { unfold len in H. lia. }
  exists b. rewrite Hb. split; reflexivity.
Qed.

Lemma store_app (pre post : Uint8Array) (x : byte) (v : Z) :
  store (pre ++ x :: post) (len pre) v = pre ++ ToUint8 v :: post.
Proof.
  unfold store. pose proof (len_nonneg pre) as H.
  destruct (Z.ltb_spec (len pre) 0); [lia|].
  rewrite to_nat_len.
  replace (length pre) with (length pre + 0)%nat by lia.
  rewrite insert_app_r. reflexivity.
Qed.

Lemma store_head (x : byte) (post : Uint8Array) (v : Z) :
  store (x :: post) 0 v = ToUint8 v :: post.
Proof. reflexivity. Qed.

Lemma set_app (pre mid post src : Uint8Array) :
  length mid = length src ->
  set (pre ++ mid ++ post) src (len pre) = Ok (pre ++ src ++ post).
Proof.
  intros Hlen. unfold set. pose proof (len_nonneg pre) as H.
  destruct (Z.ltb_spec (len pre) 0); [lia|].
  destruct (Z.ltb_spec (len (pre ++ mid ++ post)) (len pre + len src)) as [Hlt|_].
  { rewrite !len_app in Hlt. pose proof (len_nonneg post). unfold len in *. lia. }
  simpl. f_equal. rewrite to_nat_len.
  replace (length pre) with (length pre + 0)%nat by lia.
  rewrite list_inserts_app_r. f_equal.
  apply list_inserts_0_r. now symmetry.
Qed.

Lemma subarray_inside (a : Uint8Array) (b e : Z) :
  0 <= b <= e -> e <= len a ->
  subarray a b e = take (Z.to_nat (e - b)) (drop (Z.to_nat b) a).
Proof.
  intros Hb He. unfold subarray.
  destruct (Z.ltb_spec b 0); [lia|]. destruct (Z.ltb_spec e 0); [lia|].
  rewrite !Z.min_l by lia. rewrite Z.max_l by lia. reflexivity.
Qed.

Lemma subarray_app (pre mid post : Uint8Array) :
  subarray (pre ++ mid ++ post) (len pre) (len pre + len mid) = mid.
Proof.
  pose proof (len_nonneg pre). pose proof (len_nonneg mid).
  pose proof (len_nonneg post).
  rewrite subarray_inside by (rewrite ?len_app; lia).
  rewrite to_nat_len, drop_app_length.
  replace (len pre + len mid - len pre) with (len mid) by lia.
  rewrite to_nat_len. apply take_app_length.
Qed.

Lemma subarray_from_drop (a : Uint8Array) (b : Z) :
  0 <= b <= len a -> subarray_from a b = drop (Z.to_nat b) a.
Proof.
  intros H. unfold subarray_from. rewrite subarray_inside by lia.
  apply take_ge. rewrite length_drop. unfold len in *. lia.
Qed.

End Arrays.

(** Arithmetic goals about lengths of concatenations. *)
Ltac len_lia :=
  repeat rewrite ?len_app, ?len_cons, ?len_nil in *;
  unfold len in *; simpl length in *; lia.

(** ** Length octets *)

Section LengthOctets.

Lemma length_be_bytes (k : nat) (n : Z) : length (be_bytes k n) = k.
Proof.
  revert n. induction k as [|k IH]; intros n; simpl; [reflexivity|].
  rewrite length_app, IH. simpl. lia.
Qed.

Lemma byteCount_loop_step (fuel : nat) (t c : Z) :
  0 < t -> byteCount_loop (S fuel) t c = byteCount_loop fuel (ushr t 8) (c + 1).
Proof. intros H. simpl. destruct (Z.gtb_spec t 0); [reflexivity|lia]. Qed.

Lemma byteCount_loop_done (fuel : nat) (t c : Z) :
  t <= 0 -> byteCount_loop fuel t c = (t, c).
Proof. intros H. destruct fuel; simpl; destruct (Z.gtb_spec t 0); trivial; lia. Qed.

(** Four rounds are enough for every input: the loop leaves through its
    guard, [temp] being [0]. *)
Lemma byteCount_loop_exit (length : Z) :
  fst (byteCount_loop 4 length 0) <= 0.
Proof.
  destruct (Z.le_gt_cases length 0) as [H|H].
  { rewrite byteCount_loop_done by lia. simpl. lia. }
  rewrite byteCount_loop_step by lia.
  assert (B1 : 0 <= ushr length 8 < 2 ^ 24).
  { unfold ushr, ToUint32. rewrite Z.shiftr_div_pow2 by lia.
    pose proof (Z.mod_pos_bound length (2 ^ 32)). Z.div_mod_to_equations. lia. }
  set (t1 := ushr length 8) in *.
  destruct (Z.le_gt_cases t1 0) as [H1|H1].
  { rewrite byteCount_loop_done by lia. simpl. lia. }
  rewrite byteCount_loop_step by lia. rewrite ushr_8 by lia.
  destruct (Z.le_gt_cases (t1 / 256) 0) as [H2|H2].
  { rewrite byteCount_loop_done by lia. simpl. lia. }
  rewrite byteCount_loop_step by lia.
  assert (B2 : 0 <= t1 / 256 < 2 ^ 16) by (Z.div_mod_to_equations; lia).
  rewrite ushr_8 by lia.
  destruct (Z.le_gt_cases (t1 / 256 / 256) 0) as [H3|H3].
  { rewrite byteCount_loop_done by lia. simpl. lia. }
  rewrite byteCount_loop_step by lia.
  assert (B3 : 0 <= t1 / 256 / 256 < 2 ^ 8) by (Z.div_mod_to_equations; lia).
  rewrite ushr_8 by lia.
  rewrite byteCount_loop_done; simpl; Z.div_mod_to_equations; lia.
Qed.

Lemma byteCount_loop_count (n : Z) :
  0 < n < 2 ^ 32 -> snd (byteCount_loop 4 n 0) = byte_count n.
Proof.
  intros Hn. unfold byte_count.
  rewrite byteCount_loop_step, ushr_8 by lia.
  destruct (Z.ltb_spec n (2 ^ 8)).
  { rewrite byteCount_loop_done; [reflexivity|]. Z.div_mod_to_equations. lia. }
  rewrite byteCount_loop_step, ushr_8 by (Z.div_mod_to_equations; lia).
  destruct (Z.ltb_spec n (2 ^ 16)).
  { rewrite byteCount_loop_done; [reflexivity|]. Z.div_mod_to_equations. lia. }
  rewrite byteCount_loop_step, ushr_8 by (Z.div_mod_to_equations; lia).
  destruct (Z.ltb_spec n (2 ^ 24)).
  { rewrite byteCount_loop_done; [reflexivity|]. Z.div_mod_to_equations. lia. }
  rewrite byteCount_loop_step, ushr_8 by (Z.div_mod_to_equations; lia).
  rewrite byteCount_loop_done; [reflexivity|]. Z.div_mod_to_equations. lia.
Qed.

Lemma byte_count_range (n : Z) : 1 <= byte_count n <= 4.
Proof. unfold byte_count. repeat destruct (_ <? _); lia. Qed.

Lemma byte_count_bound (n : Z) :
  0 <= n < 2 ^ 32 -> n < 256 ^ byte_count n.
Proof.
  intros H. unfold byte_count.
  destruct (Z.ltb_spec n (2 ^ 8)); [lia|].
  destruct (Z.ltb_spec n (2 ^ 16)); [lia|].
  destruct (Z.ltb_spec n (2 ^ 24)); lia.
Qed.

Lemma fill_loop_app (k : nat) (t : Z) (r tl : Uint8Array) :
  (k < length r)%nat -> fill_loop k t (r ++ tl) = fill_loop k t r ++ tl.
Proof.
  revert t r. induction k as [|k IH]; intros t r Hk; [reflexivity|].
  cbn [fill_loop]. unfold store.
  destruct (Z.ltb_spec (Z.of_nat (S k)) 0); [lia|].
  rewrite insert_app_l by lia.
  apply IH. rewrite length_insert. lia.
Qed.

Lemma fill_loop_spec (k : nat) (t : Z) (h : byte) (body : Uint8Array) :
  length body = k -> 0 <= t < 2 ^ 32 ->
  fill_loop k t (h :: body) = h :: be_bytes k t.
Proof.
  revert t body. induction k as [|k IH]; intros t body Hlen Ht.
  { destruct body; [reflexivity|discriminate]. }
  destruct (exists_last (l := body)) as (body' & x & ->).
  { intros ->. discriminate. }
  rewrite length_app in Hlen. simpl in Hlen.
  cbn [fill_loop be_bytes].
  replace (Z.of_nat (S k)) with (len (h :: body')) by (unfold len; simpl; lia).
  rewrite app_comm_cons, store_app, band_255, ToUint8_mod, ushr_8 by lia.
  rewrite fill_loop_app by (simpl; lia).
  rewrite IH; [reflexivity|lia|]. Z.div_mod_to_equations. lia.
Qed.

Lemma bor_128_count (k : Z) : 1 <= k <= 4 -> bor 128 k = 128 + k.
Proof.
  intros H. assert (C : k = 1 \/ k = 2 \/ k = 3 \/ k = 4) by lia.
  destruct C as [-> | [-> | [-> | ->]]]; reflexivity.
Qed.

Lemma encodeLength_short (n : Z) : n < 128 -> encodeLength n = [ToUint8 n].
Proof. intros H. unfold encodeLength. destruct (Z.ltb_spec n 128); [reflexivity|lia]. Qed.

Lemma encodeLength_long (n : Z) :
  128 <= n < 2 ^ 32 ->
  encodeLength n =
  ToUint8 (128 + byte_count n) :: be_bytes (Z.to_nat (byte_count n)) n.
Proof.
  intros H. unfold encodeLength. destruct (Z.ltb_spec n 128); [lia|].
  rewrite byteCount_loop_count by lia.
  pose proof (byte_count_range n) as Hk.
  rewrite (Z.add_comm _ 1), new_add, new_1 by lia. cbn [app].
  rewrite store_head, bor_128_count by lia.
  apply fill_loop_spec; [|lia].
  unfold new_Uint8Array. apply length_replicate.
Qed.

Lemma index_Some_range (data : Uint8Array) (i b : Z) :
  index data i = Some b -> 0 <= i < len data /\ 0 <= b < 256.
Proof.
  intros H.
  destruct (Z.lt_ge_cases i 0) as [Hneg|Hpos].
  { rewrite index_outside in H by lia. discriminate. }
  destruct (Z.lt_ge_cases i (len data)) as [Hin|Hout].
  - destruct (index_inside data i) as (x & Hx & _); [lia|].
    rewrite Hx in H. injection H as <-. pose proof (b2z_range x). lia.
  - rewrite index_outside in H by lia. discriminate.
Qed.

Lemma band_127 (b : Z) : 0 <= b < 256 -> band (ToInt32 b) 127 = b mod 128.
Proof.
  intros H. unfold band. rewrite !(ToInt32_id b), (ToInt32_id 127) by lia.
  change 127 with (Z.ones 7). rewrite Z.land_ones by lia.
  change (2 ^ 7) with 128. apply ToInt32_id.
  pose proof (Z.mod_pos_bound b 128). lia.
Qed.

(** [decodeLength] by cases on the octet found at [offset]. *)
Lemma decodeLength_at (data : Uint8Array) (offset b : Z) :
  index data offset = Some b ->
  decodeLength data offset =
  if b <? 128 then Ok (mkLengthInfo b 1)
  else
    let numBytes := b - 128 in
    if (numBytes =? 0) || (numBytes >? 4)
    then Throw (Error "Invalid or unsupported long form length")
    else if offset + 1 + numBytes >? len data
    then Throw (Error "Length bytes out of bounds")
    else Ok (mkLengthInfo (length_loop (Z.to_nat numBytes) data offset 0 0)
               (1 + numBytes)).
Proof.
  intros Hb. destruct (index_Some_range _ _ _ Hb) as [Ho Hr].
  unfold decodeLength. destruct (Z.geb_spec offset (len data)); [lia|].
  rewrite Hb.
  change (default 0 (Some b)) with b.
  change (ToInt32_value (Some b)) with (ToInt32 b).
  rewrite band_127 by lia.
  replace (b mod 128) with (b - 128 * (b / 128)) by (Z.div_mod_to_equations; lia).
  destruct (Z.ltb_spec b 128); [reflexivity|].
  replace (b / 128) with 1 by (Z.div_mod_to_equations; lia).
  rewrite Z.mul_1_r. reflexivity.
Qed.

Lemma length_loop_S (n : nat) (data : Uint8Array) (offset i acc : Z) :
  length_loop (S n) data offset i acc =
  length_loop n data offset (i + 1)
    (bor (shl acc 8) (ToInt32_value (index data (offset + 1 + i)))).
Proof. lazy beta iota delta [length_loop]. fold length_loop. exact eq_refl. Qed.

Lemma be_int32_cons (b : byte) (bs : Uint8Array) (acc : Z) :
  be_int32 (b :: bs) acc = be_int32 bs (bor (shl acc 8) (b2z b)).
Proof.
  unfold be_int32. lazy beta iota delta [fold_left].
  fold (@fold_left Z byte). exact eq_refl.
Qed.

Lemma length_loop_spec (bs pre post : Uint8Array) (offset i acc : Z) :
  offset + 1 + i = len pre ->
  length_loop (length bs) (pre ++ bs ++ post) offset i acc = be_int32 bs acc.
Proof.
  revert pre i acc. induction bs as [|b bs IH]; intros pre i acc Hi; [reflexivity|].
  rewrite be_int32_cons.
  change (length (b :: bs)) with (S (length bs)).
  rewrite length_loop_S, Hi.
  change ((b :: bs) ++ post) with (b :: bs ++ post).
  rewrite index_app.
  change (ToInt32_value (Some (b2z b))) with (ToInt32 (b2z b)).
  pose proof (b2z_range b) as Hb. rewrite (ToInt32_id (b2z b)) by lia.
  replace (pre ++ b :: bs ++ post) with ((pre ++ [b]) ++ bs ++ post)
    by (rewrite <- app_assoc; reflexivity).
  apply IH. rewrite len_app. unfold len at 2. simpl. lia.
Qed.

Lemma be_int32_snoc (bs : Uint8Array) (b : byte) (acc : Z) :
  be_int32 (bs ++ [b]) acc = bor (shl (be_int32 bs acc) 8) (b2z b).
Proof. unfold be_int32. rewrite fold_left_app. reflexivity. Qed.

Lemma be_value_snoc (bs : Uint8Array) (b : byte) :
  be_value (bs ++ [b]) = be_value bs * 256 + b2z b.
Proof. unfold be_value. rewrite fold_left_app. reflexivity. Qed.

(** Below [2^31] the 32-bit accumulation reads the octets as written. *)
Lemma be_int32_be_bytes (k : nat) (n : Z) :
  0 <= n < 256 ^ Z.of_nat k -> n < 2 ^ 31 ->
  be_int32 (be_bytes k n) 0 = n.
Proof.
  revert n. induction k as [|k IH]; intros n Hn Hlt.
  { simpl in *. unfold be_int32. simpl. lia. }
  cbn [be_bytes]. rewrite be_int32_snoc, b2z_ToUint8.
  rewrite Nat2Z.inj_succ, Z.pow_succ_r in Hn by lia.
  rewrite IH; [|Z.div_mod_to_equations; nia|Z.div_mod_to_equations; lia].
  pose proof (Z.mod_pos_bound n 256).
  rewrite length_step by (Z.div_mod_to_equations; lia).
  rewrite ToInt32_id; Z.div_mod_to_equations; lia.
Qed.

Lemma be_value_be_bytes (k : nat) (n : Z) :
  0 <= n < 256 ^ Z.of_nat k -> be_value (be_bytes k n) = n.
Proof.
  revert n. induction k as [|k IH]; intros n Hn.
  { simpl in *. unfold be_value. simpl. lia. }
  cbn [be_bytes]. rewrite be_value_snoc, b2z_ToUint8.
  rewrite Nat2Z.inj_succ, Z.pow_succ_r in Hn by lia.
  rewrite IH; [|Z.div_mod_to_equations; nia].
  Z.div_mod_to_equations; lia.
Qed.

(** Decoding the length octets that [encodeLength] wrote, anywhere in a
    buffer. *)
Lemma decodeLength_encodeLength (pre post : Uint8Array) (n : Z) :
  0 <= n < 2 ^ 31 ->
  decodeLength (pre ++ encodeLength n ++ post) (len pre) =
  Ok (mkLengthInfo n (len (encodeLength n))).
Proof.
  intros Hn. destruct (Z.lt_ge_cases n 128) as [Hs|Hl].
  - rewrite encodeLength_short by lia. cbn [app].
    rewrite (decodeLength_at _ _ _ (index_app _ _ _)).
    rewrite b2z_ToUint8, Z.mod_small by lia.
    destruct (Z.ltb_spec n 128); [reflexivity|lia].
  - rewrite encodeLength_long by lia. cbn [app].
    pose proof (byte_count_range n) as Hk.
    rewrite (decodeLength_at _ _ _ (index_app _ _ _)).
    rewrite b2z_ToUint8, Z.mod_small by lia.
    destruct (Z.ltb_spec (128 + byte_count n) 128); [lia|].
    cbn zeta. replace (128 + byte_count n - 128) with (byte_count n) by lia.
    destruct (Z.eqb_spec (byte_count n) 0); [lia|].
    destruct (Z.gtb_spec (byte_count n) 4); [lia|]. cbn [orb].
    set (bs := be_bytes (Z.to_nat (byte_count n)) n).
    assert (Hbs : length bs = Z.to_nat (byte_count n)) by apply length_be_bytes.
    destruct (Z.gtb_spec (len pre + 1 + byte_count n) (len (pre ++ ToUint8 (128 + byte_count n) :: bs ++ post))) as [Hgt|_].
    { len_lia. }
    f_equal. f_equal.
    + rewrite <- Hbs.
      replace (pre ++ ToUint8 (128 + byte_count n) :: bs ++ post)
        with ((pre ++ [ToUint8 (128 + byte_count n)]) ++ bs ++ post)
        by (rewrite <- app_assoc; reflexivity).
      rewrite length_loop_spec by len_lia.
      apply be_int32_be_bytes; [|lia].
      rewrite Z2Nat.id by lia. pose proof (byte_count_bound n). lia.
    + len_lia.
Qed.

End LengthOctets.

(** ** Hex strings *)

Section HexStrings.

Lemma length_byteToHex (b : byte) : length (Hex.byteToHex b) = 2%nat.
Proof. destruct b; reflexivity. Qed.

Lemma encode_cons (b : byte) (bs : Uint8Array) :
  Hex.encode (b :: bs) = Hex.byteToHex b ++ Hex.encode bs.
Proof. reflexivity. Qed.

Lemma encode_app (a b : Uint8Array) :
  Hex.encode (a ++ b) = Hex.encode a ++ Hex.encode b.
Proof. unfold Hex.encode. now rewrite map_app, concat_app. Qed.

Lemma length_encode (bs : Uint8Array) :
  length (Hex.encode bs) = (2 * length bs)%nat.
Proof.
  induction bs as [|b bs IH]; [reflexivity|].
  rewrite encode_cons, length_app, length_byteToHex, IH. simpl. lia.
Qed.

Lemma encode_zeros (k : nat) :
  Hex.encode (replicate k x00) = replicate (2 * k) 48%N.
Proof.
  induction k as [|k IH]; [reflexivity|].
  rewrite replicate_S, encode_cons, IH.
  replace (2 * S k)%nat with (S (S (2 * k))) by lia. reflexivity.
Qed.

Lemma even_length_split (h : jsstring) (n : nat) :
  length h = (2 * S n)%nat ->
  exists c1 c2 h', h = c1 :: c2 :: h' /\ length h' = (2 * n)%nat.
Proof.
  intros H. destruct h as [|c1 [|c2 h']]; simpl in H; try lia.
  exists c1, c2, h'. split; [reflexivity|lia].
Qed.

Lemma substring_pair (hpre h' : jsstring) (c1 c2 : N) (i : Z) :
  len hpre = i * 2 ->
  substring (hpre ++ c1 :: c2 :: h') (i * 2) (i * 2 + 2) = [c1; c2].
Proof.
  intros Hi. unfold substring. rewrite <- Hi.
  pose proof (len_nonneg hpre). pose proof (len_nonneg h').
  rewrite !Z.min_l by len_lia.
  rewrite to_nat_len, drop_app_length.
  replace (Z.to_nat (len hpre + 2) - length hpre)%nat with 2%nat by len_lia.
  reflexivity.
Qed.

Lemma decode_loop_spec (n : nat) (hpre hrest : jsstring) (done : Uint8Array) :
  length hrest = (2 * n)%nat -> len hpre = len done * 2 ->
  Hex.decode_loop n (hpre ++ hrest) (len done)
    (done ++ new_Uint8Array (Z.of_nat n)) = done ++ decode_pairs hrest.
Proof.
  revert hpre hrest done.
  induction n as [|n IH]; intros hpre hrest done Hlen Hpre.
  { destruct hrest; [reflexivity|discriminate]. }
  destruct (even_length_split _ _ Hlen) as (c1 & c2 & h' & -> & Hlen').
  cbn [Hex.decode_loop decode_pairs].
  rewrite substring_pair by lia.
  rewrite Nat2Z.inj_succ, <- Z.add_1_l, new_add, new_1 by lia.
  cbn [app]. unfold store_value. rewrite store_app.
  fold (pair_byte c1 c2).
  replace (hpre ++ c1 :: c2 :: h') with ((hpre ++ [c1; c2]) ++ h')
    by (rewrite <- app_assoc; reflexivity).
  replace (done ++ pair_byte c1 c2 :: new_Uint8Array (Z.of_nat n))
    with ((done ++ [pair_byte c1 c2]) ++ new_Uint8Array (Z.of_nat n))
    by (rewrite <- app_assoc; reflexivity).
  replace (len done + 1) with (len (done ++ [pair_byte c1 c2])) by len_lia.
  rewrite IH; [|assumption|len_lia].
  rewrite <- app_assoc. reflexivity.
Qed.

(** On a string of even length [Hex.decode] returns, and reads the string
    pair by pair. *)
Lemma decode_even (h : jsstring) :
  Nat.even (length h) = true -> Hex.decode h = Ok (decode_pairs h).
Proof.
  intros He. apply Nat.even_spec in He. destruct He as [n Hn].
  unfold Hex.decode, len. rewrite Hn.
  replace (Z.of_nat (2 * n)) with (Z.of_nat n * 2) by lia.
  rewrite Z.mod_mul, Z.div_mul by lia. cbn [Z.eqb negb].
  rewrite Nat2Z.id. f_equal.
  apply (decode_loop_spec n [] h []); [assumption|reflexivity].
Qed.

Lemma decode_odd (h : jsstring) :
  Nat.odd (length h) = true ->
  Hex.decode h = Throw (Error "Invalid hex string length").
Proof.
  intros Ho. apply Nat.odd_spec in Ho. destruct Ho as [n Hn].
  unfold Hex.decode, len. rewrite Hn.
  replace (Z.of_nat (2 * n + 1)) with (1 + Z.of_nat n * 2) by lia.
  rewrite Z.mod_add by lia. reflexivity.
Qed.

Lemma length_decode_pairs (h : jsstring) (n : nat) :
  length h = (2 * n)%nat -> length (decode_pairs h) = n.
Proof.
  revert h. induction n as [|n IH]; intros h Hlen.
  { destruct h; [reflexivity|discriminate]. }
  destruct (even_length_split _ _ Hlen) as (c1 & c2 & h' & -> & Hlen').
  simpl. f_equal. now apply IH.
Qed.

Lemma lookup_decode_pairs (h : jsstring) (i : nat) (c1 c2 : N) :
  h !! (2 * i)%nat = Some c1 -> h !! (2 * i + 1)%nat = Some c2 ->
  decode_pairs h !! i = Some (pair_byte c1 c2).
Proof.
  revert h. induction i as [|i IH]; intros h H1 H2.
  - destruct h as [|a [|b h']]; simpl in *; try discriminate.
    congruence.
  - destruct h as [|a [|b h']].
    + apply lookup_lt_Some in H1. simpl in H1. lia.
    + apply lookup_lt_Some in H1. simpl in H1. lia.
    + replace (2 * S i)%nat with (S (S (2 * i))) in H1 by lia.
      replace (2 * S i + 1)%nat with (S (S (2 * i + 1))) in H2 by lia.
      simpl in H1, H2 |- *. now apply IH.
Qed.

Lemma isLowerHexDigit_In (c : N) :
  isLowerHexDigit c = true -> In c lowerHexDigits.
Proof.
  unfold isLowerHexDigit. intros H.
  apply orb_true_iff in H. rewrite !andb_true_iff, !N.leb_le in H.
  assert (C : (c = 48 \/ c = 49 \/ c = 50 \/ c = 51 \/ c = 52 \/ c = 53
               \/ c = 54 \/ c = 55 \/ c = 56 \/ c = 57 \/ c = 97 \/ c = 98
               \/ c = 99 \/ c = 100 \/ c = 101 \/ c = 102)%N) by lia.
  simpl. intuition auto.
Qed.

(** Encoding the byte read from two lowercase digits gives the digits. *)
Lemma byteToHex_pair_byte (c1 c2 : N) :
  isLowerHexDigit c1 = true -> isLowerHexDigit c2 = true ->
  Hex.byteToHex (pair_byte c1 c2) = [c1; c2].
Proof.
  intros H1 H2. apply isLowerHexDigit_In in H1, H2.
  assert (A : Forall (fun a => Forall (fun b =>
                Hex.byteToHex (pair_byte a b) = [a; b]) lowerHexDigits)
              lowerHexDigits).
  { repeat constructor. }
  rewrite Forall_forall in A. specialize (A c1).
  rewrite <- list_elem_of_In in H1, H2.
  specialize (A H1). rewrite Forall_forall in A. exact (A c2 H2).
Qed.

Lemma encode_decode_pairs (h : jsstring) :
  isLowerHex h = true -> Hex.encode (decode_pairs h) = h.
Proof.
  unfold isLowerHex. intros H. apply andb_true_iff in H. destruct H as [He Hd].
  apply Nat.even_spec in He. destruct He as [n Hn].
  revert h Hn Hd. induction n as [|n IH]; intros h Hn Hd.
  { destruct h; [reflexivity|discriminate]. }
  destruct (even_length_split _ _ Hn) as (c1 & c2 & h' & -> & Hlen').
  cbn [forallb] in Hd. rewrite !andb_true_iff in Hd.
  destruct Hd as (D1 & D2 & D').
  cbn [decode_pairs]. rewrite encode_cons, byteToHex_pair_byte by assumption.
  rewrite IH by assumption. reflexivity.
Qed.

End HexStrings.

(** ** INTEGER *)

Section Integer.

Lemma minimal_octets_zeros (v : Uint8Array) :
  exists k : nat, v = replicate k x00 ++ minimal_octets v.
Proof.
  induction v as [|b [|c tl] IH]; try (exists 0%nat; reflexivity).
  cbn [minimal_octets]. destruct (bool_decide_reflect (b = x00)) as [->|Hb].
  - destruct IH as [k Hk]. exists (S k). rewrite replicate_S. cbn [app].
    f_equal. exact Hk.
  - exists 0%nat. reflexivity.
Qed.

(** What is left has no redundant zero octet in front. *)
Lemma minimal_octets_head (v : Uint8Array) (b c : byte) (tl : Uint8Array) :
  minimal_octets v = b :: c :: tl -> b <> x00.
Proof.
  induction v as [|b' [|c' tl'] IH]; try discriminate.
  cbn [minimal_octets]. destruct (bool_decide_reflect (b' = x00)) as [->|Hb].
  - exact IH.
  - intros E. injection E as -> _ _. exact Hb.
Qed.

Lemma minimal_octets_nonempty (v : Uint8Array) :
  v <> [] -> minimal_octets v <> [].
Proof.
  induction v as [|b [|c tl] IH]; intros Hv; try (simpl; congruence).
  cbn [minimal_octets]. destruct (bool_decide (b = x00)); [|discriminate].
  apply IH. discriminate.
Qed.

Lemma len_minimal_octets (v : Uint8Array) : len (minimal_octets v) <= len v.
Proof.
  destruct (minimal_octets_zeros v) as [k Hk].
  rewrite Hk at 2. rewrite len_app. pose proof (len_nonneg (replicate k x00)). lia.
Qed.

Lemma len_der_content (v : Uint8Array) :
  len (minimal_octets v) <= len (der_content v) <= len v + 1.
Proof.
  pose proof (len_minimal_octets v). unfold der_content.
  destruct (msb_set _); len_lia.
Qed.

(** The zero-skipping loop stops at the first octet of [minimal_octets],
    and it stops through its guard. *)
Lemma strip_loop_spec (v pre : Uint8Array) (fuel : nat) :
  (length v <= fuel)%nat ->
  let start := strip_loop fuel (pre ++ v) (len pre) in
  len pre <= start <= len (pre ++ v)
  /\ drop (Z.to_nat start) (pre ++ v) = minimal_octets v.
Proof.
  revert pre fuel. induction v as [|b v IH]; intros pre fuel Hfuel start.
  - subst start. rewrite app_nil_r.
    assert (E : strip_loop fuel pre (len pre) = len pre).
    { destruct fuel; simpl; destruct (Z.ltb_spec (len pre) (len pre - 1)); trivial; lia. }
    rewrite E, to_nat_len, drop_all. split; [lia|reflexivity].
  - destruct fuel as [|fuel]; [simpl in Hfuel; lia|].
    subst start. cbn [strip_loop]. rewrite index_app.
    destruct v as [|c v].
    + destruct (Z.ltb_spec (len pre) (len (pre ++ [b]) - 1)); [len_lia|].
      cbn [andb]. rewrite to_nat_len, drop_app_length.
      split; [len_lia|reflexivity].
    + destruct (Z.ltb_spec (len pre) (len (pre ++ b :: c :: v) - 1)); [|len_lia].
      cbn [andb minimal_octets].
      destruct (bool_decide_reflect (b = x00)) as [->|Hb].
      * rewrite bool_decide_true by reflexivity.
        replace (pre ++ x00 :: c :: v) with ((pre ++ [x00]) ++ c :: v)
          by (rewrite <- app_assoc; reflexivity).
        replace (len pre + 1) with (len (pre ++ [x00])) by len_lia.
        destruct (IH (pre ++ [x00]) fuel) as [Hr Hd]; [simpl in *; lia|].
        split; [len_lia|exact Hd].
      * rewrite bool_decide_false.
        2:{ intros E. injection E as E. apply b2z_zero in E. contradiction. }
        rewrite to_nat_len, drop_app_length. split; [len_lia|reflexivity].
Qed.

Lemma strip_loop_exit (bytes : Uint8Array) :
  let start := strip_loop (length bytes) bytes 0 in
  (start <? len bytes - 1) && bool_decide (index bytes start = Some 0) = false.
Proof.
  intros start.
  destruct (strip_loop_spec bytes [] (length bytes)) as [Hr Hd]; [lia|].
  cbn [app] in Hr, Hd. change (len []) with 0 in Hr, Hd. fold start in Hr, Hd.
  destruct (Z.ltb_spec start (len bytes - 1)) as [Hlt|]; [|reflexivity].
  cbn [andb]. apply bool_decide_false. intros Hz.
  destruct (index_inside bytes start) as (b & Hb & Hl); [lia|].
  rewrite Hb in Hz. injection Hz as Hz. apply b2z_zero in Hz. subst b.
  rewrite (drop_S _ _ _ Hl) in Hd.
  assert (Hlen : (2 <= length (drop (Z.to_nat start) bytes))%nat).
  { rewrite length_drop. unfold len in *. lia. }
  rewrite (drop_S _ _ _ Hl) in Hlen.
  destruct (drop (S (Z.to_nat start)) bytes) as [|c tl] eqn:E;
    [simpl in Hlen; lia|].
  symmetry in Hd. now apply minimal_octets_head in Hd.
Qed.

Lemma msb_test (b : byte) :
  negb (band (ToInt32 (b2z b)) 128 =? 0) = Z.testbit (b2z b) 7.
Proof. destruct b; reflexivity. Qed.

(** [encodeInteger] on bytes: it never throws, and writes the tag, the
    length octets and the content octets. *)
Lemma encodeInteger_bytes (v : Uint8Array) :
  encodeInteger (Bytes v) = Ok (tlv x02 (der_content v)).
Proof.
  unfold encodeInteger, bind.
  destruct (strip_loop_spec v [] (length v)) as [Hr Hd]; [lia|].
  cbn [app] in Hr, Hd. change (len []) with 0 in Hr, Hd.
  set (start := strip_loop (length v) v 0) in *.
  assert (Hb : (if start >? 0 then subarray_from v start else v) = minimal_octets v).
  { destruct (Z.gtb_spec start 0).
    - rewrite subarray_from_drop by lia. exact Hd.
    - replace start with 0 in Hd by lia. exact Hd. }
  rewrite Hb. clear Hb Hd Hr start.
  set (m := minimal_octets v).
  assert (Hp : negb (band (ToInt32_value (index m 0)) 128 =? 0) = msb_set m).
  { destruct m as [|b m']; [reflexivity|]. cbn [index_head msb_set].
    rewrite index_head. cbn [ToInt32_value]. apply msb_test. }
  rewrite Hp. unfold tlv, der_content. fold m.
  pose proof (len_nonneg m) as Hm.
  destruct (msb_set m).
  - set (lb := encodeLength (len m + 1)).
    pose proof (len_nonneg lb) as Hlb.
    replace (len ([x00] ++ m)) with (len m + 1) by len_lia. fold lb.
    rewrite !new_add, new_1 by lia. cbn [app].
    rewrite store_head.
    change (ToUint8 ASN1Tag_INTEGER :: new_Uint8Array (len lb)
            ++ new_Uint8Array (len m) ++ [x00])
      with ([x02] ++ new_Uint8Array (len lb)
            ++ (new_Uint8Array (len m) ++ [x00])).
    change (0 + 1) with (len [x02]).
    rewrite set_app by (unfold new_Uint8Array; rewrite length_replicate; len_lia).
    assert (Hz : new_Uint8Array (len m) ++ [x00] = x00 :: new_Uint8Array (len m)).
    { unfold new_Uint8Array. rewrite <- replicate_S_end. reflexivity. }
    rewrite Hz.
    replace ([x02] ++ lb ++ x00 :: new_Uint8Array (len m))
      with (([x02] ++ lb) ++ x00 :: new_Uint8Array (len m))
      by (rewrite <- app_assoc; reflexivity).
    replace (len [x02] + len lb) with (len ([x02] ++ lb)) by len_lia.
    rewrite store_app.
    replace (([x02] ++ lb) ++ ToUint8 0 :: new_Uint8Array (len m))
      with (([x02] ++ lb ++ [x00]) ++ new_Uint8Array (len m) ++ [])
      by (rewrite app_nil_r, <- !app_assoc; reflexivity).
    replace (len ([x02] ++ lb) + 1) with (len ([x02] ++ lb ++ [x00])) by len_lia.
    rewrite set_app by (unfold new_Uint8Array; rewrite length_replicate; len_lia).
    rewrite app_nil_r, <- !app_assoc. reflexivity.
  - rewrite Z.add_0_r. cbn [app].
    set (lb := encodeLength (len m)).
    pose proof (len_nonneg lb) as Hlb.
    rewrite !new_add, new_1 by lia. cbn [app].
    rewrite store_head.
    change (ToUint8 ASN1Tag_INTEGER :: new_Uint8Array (len lb)
            ++ new_Uint8Array (len m))
      with ([x02] ++ new_Uint8Array (len lb) ++ new_Uint8Array (len m)).
    change (0 + 1) with (len [x02]).
    rewrite set_app by (unfold new_Uint8Array; rewrite length_replicate; len_lia).
    replace ([x02] ++ lb ++ new_Uint8Array (len m))
      with (([x02] ++ lb) ++ new_Uint8Array (len m) ++ [])
      by (rewrite app_nil_r, <- !app_assoc; reflexivity).
    replace (len [x02] + len lb) with (len ([x02] ++ lb)) by len_lia.
    rewrite set_app by (unfold new_Uint8Array; rewrite length_replicate; len_lia).
    rewrite app_nil_r, <- !app_assoc. reflexivity.
Qed.

End Integer.

(** ** Decoding elements *)

(** Equal lists up to the bracketing of [++] and [::]. *)
Ltac list_assoc :=
  unfold tlv;
  repeat first [rewrite <- app_assoc | rewrite app_nil_r | progress cbn [app]];
  reflexivity.

Section Decoding.

Lemma len_encodeLength (n : Z) :
  0 <= n < 2 ^ 32 -> 1 <= len (encodeLength n) <= 5.
Proof.
  intros H. destruct (Z.lt_ge_cases n 128).
  - rewrite encodeLength_short by lia. len_lia.
  - rewrite encodeLength_long by lia. pose proof (byte_count_range n).
    rewrite len_cons. unfold len. rewrite length_be_bytes. lia.
Qed.

Lemma len_tlv (tag : byte) (content : Uint8Array) :
  len (tlv tag content) = 1 + len (encodeLength (len content)) + len content.
Proof. unfold tlv. len_lia. Qed.

Lemma unpad_der_content (v : Uint8Array) :
  unpad (der_content v) = minimal_octets v.
Proof.
  unfold der_content. destruct (minimal_octets v) as [|b [|c tl]] eqn:E.
  - reflexivity.
  - cbn [msb_set]. destruct (Z.testbit (b2z b) 7); reflexivity.
  - cbn [msb_set]. destruct (Z.testbit (b2z b) 7); [reflexivity|].
    cbn [app unpad]. apply minimal_octets_head in E.
    now rewrite bool_decide_false.
Qed.

(** [decodeInteger] on an INTEGER element found anywhere in a buffer. *)
Lemma decodeInteger_tlv (pre content post : Uint8Array) :
  len content < 2 ^ 31 ->
  decodeInteger (pre ++ tlv x02 content ++ post) (len pre) =
  Ok (mkIntegerInfo (unpad content) (len (tlv x02 content))).
Proof.
  intros Hc. pose proof (len_nonneg content) as Hc0.
  unfold decodeInteger, tlv. cbn [app]. rewrite index_app.
  change (b2z x02 =? ASN1Tag_INTEGER) with true. cbn [negb].
  set (lb := encodeLength (len content)).
  replace (pre ++ x02 :: (lb ++ content) ++ post)
    with ((pre ++ [x02]) ++ lb ++ (content ++ post))
    by (rewrite <- !app_assoc; reflexivity).
  replace (len pre + 1) with (len (pre ++ [x02])) by len_lia.
  unfold lb at 1. rewrite decodeLength_encodeLength by lia. fold lb.
  cbn [bind dl_length dl_bytesRead].
  pose proof (len_nonneg lb). pose proof (len_nonneg pre).
  pose proof (len_nonneg post).
  destruct (Z.gtb_spec (len (pre ++ [x02]) + len lb + len content)
              (len ((pre ++ [x02]) ++ lb ++ content ++ post))); [len_lia|].
  replace ((pre ++ [x02]) ++ lb ++ content ++ post)
    with (((pre ++ [x02]) ++ lb) ++ content ++ post)
    by (rewrite <- !app_assoc; reflexivity).
  replace (len (pre ++ [x02]) + len lb) with (len ((pre ++ [x02]) ++ lb))
    by len_lia.
  rewrite subarray_app. f_equal. f_equal; [|len_lia].
  destruct content as [|b [|c tl]]; try reflexivity.
  cbn [unpad]. rewrite index_head.
  destruct (Z.gtb_spec (len (b :: c :: tl)) 1); [|len_lia]. cbn [andb].
  destruct (bool_decide_reflect (b = x00)) as [->|Hb].
  - rewrite bool_decide_true by reflexivity.
    rewrite subarray_from_drop by len_lia. reflexivity.
  - rewrite bool_decide_false; [reflexivity|].
    intros E. injection E as E. apply b2z_zero in E. contradiction.
Qed.

Lemma decodeInteger_encoded (v : Uint8Array) :
  len v < 2 ^ 31 - 1 ->
  decodeInteger (tlv x02 (der_content v)) 0 =
  Ok (mkIntegerInfo (minimal_octets v) (len (tlv x02 (der_content v)))).
Proof.
  intros Hv. pose proof (len_der_content v).
  pose proof (decodeInteger_tlv [] (der_content v) []) as H1.
  rewrite app_nil_r in H1. cbn [app] in H1. change (len []) with 0 in H1.
  rewrite H1 by lia. now rewrite unpad_der_content.
Qed.

Lemma fold_left_len (elements : list Uint8Array) (acc : Z) :
  fold_left (fun acc el => acc + len el) elements acc = acc + len (concat elements).
Proof.
  revert acc. induction elements as [|e es IH]; intros acc; simpl.
  - change (len []) with 0. lia.
  - rewrite IH, len_app. lia.
Qed.

Lemma set_all_spec (elements : list Uint8Array) (pre : Uint8Array) :
  set_all elements (pre ++ new_Uint8Array (len (concat elements))) (len pre) =
  Ok (pre ++ concat elements).
Proof.
  revert pre. induction elements as [|e es IH]; intros pre.
  - simpl. reflexivity.
  - cbn [set_all concat]. rewrite len_app.
    rewrite new_add by apply len_nonneg.
    rewrite set_app by (unfold new_Uint8Array; rewrite length_replicate; len_lia).
    cbn [bind].
    replace (pre ++ e ++ new_Uint8Array (len (concat es)))
      with ((pre ++ e) ++ new_Uint8Array (len (concat es)))
      by (rewrite <- app_assoc; reflexivity).
    replace (len pre + len e) with (len (pre ++ e)) by len_lia.
    rewrite IH. rewrite <- app_assoc. reflexivity.
Qed.

(** [encodeSequence] never throws, and writes the tag, the length octets
    and the elements one after the other. *)
Lemma encodeSequence_spec (elements : list Uint8Array) :
  encodeSequence elements = Ok (tlv x30 (concat elements)).
Proof.
  unfold encodeSequence. rewrite fold_left_len, Z.add_0_l.
  set (body := concat elements). set (lb := encodeLength (len body)).
  pose proof (len_nonneg lb). pose proof (len_nonneg body).
  rewrite !new_add, new_1 by lia. cbn [app]. rewrite store_head.
  change (ToUint8 ASN1Tag_SEQUENCE :: new_Uint8Array (len lb)
          ++ new_Uint8Array (len body))
    with ([x30] ++ new_Uint8Array (len lb) ++ new_Uint8Array (len body)).
  change 1 with (len [x30]) at 1.
  rewrite set_app by (unfold new_Uint8Array; rewrite length_replicate; len_lia).
  cbn [bind].
  replace ([x30] ++ lb ++ new_Uint8Array (len body))
    with (([x30] ++ lb) ++ new_Uint8Array (len body))
    by (rewrite <- app_assoc; reflexivity).
  replace (1 + len lb) with (len ([x30] ++ lb)) by len_lia.
  unfold body. rewrite set_all_spec. fold body.
  unfold tlv. rewrite <- app_assoc. reflexivity.
Qed.

(** The element loop over a run of well-formed elements. *)
Lemma decodeSequence_loop_tlvs (items : list (byte * Uint8Array))
  (pre post : Uint8Array) (acc : list Uint8Array) (fuel : nat) :
  Forall (fun it => len (snd it) < 2 ^ 31) items ->
  (length items <= fuel)%nat ->
  let elems := map (fun it => tlv (fst it) (snd it)) items in
  decodeSequence_loop fuel (pre ++ concat elems ++ post)
    (len pre + len (concat elems)) (len pre) acc = Ok (acc ++ elems).
Proof.
  revert pre acc fuel.
  induction items as [|[tag content] items IH]; intros pre acc fuel Hall Hfuel elems.
  - subst elems. cbn [map concat]. change (len []) with 0.
    rewrite Z.add_0_r, app_nil_r.
    destruct fuel; simpl; destruct (Z.ltb_spec (len pre) (len pre)); trivial; lia.
  - destruct fuel as [|fuel]; [simpl in Hfuel; lia|].
    apply Forall_cons in Hall. destruct Hall as [Hc Hall]. cbn [snd] in Hc.
    subst elems. cbn [map concat fst snd].
    set (rest := concat (map (fun it => tlv (fst it) (snd it)) items)).
    pose proof (len_nonneg rest). pose proof (len_nonneg content).
    pose proof (len_tlv tag content) as Ht.
    pose proof (len_nonneg (encodeLength (len content))).
    cbn [decodeSequence_loop].
    destruct (Z.ltb_spec (len pre) (len pre + len (tlv tag content ++ rest)));
      [|len_lia].
    assert (E : pre ++ (tlv tag content ++ rest) ++ post
                = (pre ++ [tag]) ++ encodeLength (len content)
                  ++ (content ++ rest ++ post)).
    { list_assoc. }
    rewrite E at 1.
    replace (len pre + 1) with (len (pre ++ [tag])) by len_lia.
    rewrite decodeLength_encodeLength by lia.
    cbn [bind dl_length dl_bytesRead].
    rewrite <- Ht.
    assert (E2 : pre ++ (tlv tag content ++ rest) ++ post
                 = pre ++ tlv tag content ++ (rest ++ post)).
    { list_assoc. }
    rewrite E2, subarray_app.
    rewrite (app_assoc pre (tlv tag content) (rest ++ post)).
    replace (len pre + len (tlv tag content ++ rest))
      with (len (pre ++ tlv tag content) + len rest) by len_lia.
    replace (len pre + len (tlv tag content))
      with (len (pre ++ tlv tag content)) by len_lia.
    unfold rest. rewrite IH; [|assumption|simpl in Hfuel; lia].
    rewrite <- app_assoc. reflexivity.
Qed.

(** [decodeSequence] on a SEQUENCE of well-formed elements. *)
Lemma decodeSequence_tlvs (items : list (byte * Uint8Array)) (fuel : nat) :
  Forall (fun it => len (snd it) < 2 ^ 31) items ->
  (length items <= fuel)%nat ->
  let elems := map (fun it => tlv (fst it) (snd it)) items in
  len (concat elems) < 2 ^ 31 ->
  decodeSequence fuel (tlv x30 (concat elems)) 0 =
  Ok (mkSequenceInfo elems (len (tlv x30 (concat elems)))).
Proof.
  intros Hall Hfuel elems Hlen.
  set (body := concat elems) in *.
  pose proof (len_nonneg body).
  unfold decodeSequence.
  assert (Htag : index (tlv x30 body) 0 = Some ASN1Tag_SEQUENCE) by reflexivity.
  rewrite Htag, bool_decide_true by reflexivity. cbn [negb].
  set (lb := encodeLength (len body)).
  pose proof (len_nonneg lb).
  assert (E : tlv x30 body = [x30] ++ lb ++ (body ++ [])).
  { list_assoc. }
  rewrite E at 1. change (0 + 1) with (len [x30]).
  unfold lb at 1. rewrite decodeLength_encodeLength by lia. fold lb.
  cbn [bind dl_length dl_bytesRead].
  pose proof (len_tlv x30 body) as Ht. fold lb in Ht.
  destruct (Z.gtb_spec (len [x30] + len lb + len body) (len (tlv x30 body)));
    [len_lia|].
  pose proof (decodeSequence_loop_tlvs items ([x30] ++ lb) [] [] fuel Hall Hfuel)
    as Hloop.
  cbn zeta in Hloop. fold elems in Hloop. fold body in Hloop.
  replace (([x30] ++ lb) ++ body ++ []) with (tlv x30 body) in Hloop
    by list_assoc.
  replace (len ([x30] ++ lb) + len body) with (len [x30] + len lb + len body)
    in Hloop by len_lia.
  replace (len ([x30] ++ lb)) with (len [x30] + len lb) in Hloop by len_lia.
  rewrite Hloop.
  cbn [bind app]. f_equal. f_equal. lia.
Qed.

End Decoding.

(** ** Signatures *)

Section Signatures.

Lemma encodeInteger_str (h : jsstring) :
  Nat.even (length h) = true ->
  encodeInteger (Str h) = Ok (tlv x02 (der_content (decode_pairs h))).
Proof.
  intros He. rewrite <- encodeInteger_bytes.
  unfold encodeInteger. now rewrite decode_even.
Qed.

Lemma isComponent_even (v : StringOrBytes) :
  isComponent v = true ->
  match v with Str h => Nat.even (length h) = true | Bytes _ => True end.
Proof.
  destruct v as [h|b]; [|trivial]. unfold isComponent, isLowerHex.
  intros H. now apply andb_true_iff in H.
Qed.

Lemma encodeInteger_component (v : StringOrBytes) :
  match v with Str h => Nat.even (length h) = true | Bytes _ => True end ->
  encodeInteger v = Ok (tlv x02 (der_content (component_bytes v))).
Proof.
  destruct v as [h|b]; intros H.
  - now apply encodeInteger_str.
  - apply encodeInteger_bytes.
Qed.

Lemma encode_component_bytes (v : StringOrBytes) :
  isComponent v = true -> Hex.encode (component_bytes v) = hex_of v.
Proof.
  destruct v as [h|b]; intros H; [|reflexivity].
  now apply encode_decode_pairs.
Qed.

Lemma encodeSignature_spec (r s : StringOrBytes) :
  match r with Str h => Nat.even (length h) = true | Bytes _ => True end ->
  match s with Str h => Nat.even (length h) = true | Bytes _ => True end ->
  encodeSignature r s = Ok (der_signature (component_bytes r) (component_bytes s)).
Proof.
  intros Hr Hs. unfold encodeSignature.
  rewrite (encodeInteger_component r Hr), (encodeInteger_component s Hs).
  cbn [bind]. rewrite encodeSequence_spec. cbn [concat].
  now rewrite app_nil_r.
Qed.

Lemma decodeSignature_der_signature (rb sb : Uint8Array) (fuel : nat) :
  len rb + len sb < 2 ^ 31 - 14 -> (2 <= fuel)%nat ->
  decodeSignature fuel (der_signature rb sb) =
  Ok (mkSignature (Hex.encode (minimal_octets rb))
        (Hex.encode (minimal_octets sb))).
Proof.
  intros Hsize Hfuel.
  pose proof (len_nonneg rb). pose proof (len_nonneg sb).
  pose proof (len_der_content rb) as Hr. pose proof (len_der_content sb) as Hs.
  pose proof (len_nonneg (minimal_octets rb)).
  pose proof (len_nonneg (minimal_octets sb)).
  pose proof (len_tlv x02 (der_content rb)) as Htr.
  pose proof (len_tlv x02 (der_content sb)) as Hts.
  pose proof (len_encodeLength (len (der_content rb))).
  pose proof (len_encodeLength (len (der_content sb))).
  pose proof (decodeSequence_tlvs
                [(x02, der_content rb); (x02, der_content sb)] fuel) as Hseq.
  cbn [map concat fst snd length] in Hseq. rewrite app_nil_r in Hseq.
  unfold decodeSignature, der_signature. rewrite Hseq; cycle 1.
  { repeat constructor; cbn [snd]; lia. }
  { exact Hfuel. }
  { rewrite len_app. lia. }
  cbn [bind ds_elements].
  rewrite !decodeInteger_encoded by lia. reflexivity.
Qed.

Lemma padStart_minimal (v : Uint8Array) :
  length v = 32%nat ->
  padStart (Hex.encode (minimal_octets v)) 64 48%N = Hex.encode v.
Proof.
  intros Hv. destruct (minimal_octets_zeros v) as [k Hk].
  remember (minimal_octets v) as m eqn:Hm. clear Hm. subst v.
  rewrite length_app, length_replicate in Hv.
  unfold padStart. rewrite encode_app, encode_zeros.
  f_equal. f_equal. rewrite length_encode. lia.
Qed.

(** [rawToDer] then [derToRaw] on 64 bytes. *)
Lemma raw_roundtrip_bytes (raw : Uint8Array) (fuel : nat) :
  length raw = 64%nat -> (2 <= fuel)%nat ->
  let r := take 32 raw in
  let s := drop 32 raw in
  encodeSignature (Bytes (subarray raw 0 32)) (Bytes (subarray raw 32 64))
  = Ok (der_signature r s)
  /\ decodeSignature fuel (der_signature r s)
     = Ok (mkSignature (Hex.encode (minimal_octets r))
             (Hex.encode (minimal_octets s)))
  /\ derToRaw fuel (der_signature r s) = Ok (Hex.encode raw)
  /\ length r = 32%nat /\ length s = 32%nat.
Proof.
  intros Hlen Hfuel r s.
  assert (Hr : length r = 32%nat) by (unfold r; rewrite length_take; lia).
  assert (Hs : length s = 32%nat) by (unfold s; rewrite length_drop; lia).
  assert (Er : subarray raw 0 32 = r).
  { rewrite subarray_inside by (unfold len; lia). reflexivity. }
  assert (Es : subarray raw 32 64 = s).
  { rewrite subarray_inside by (unfold len; lia).
    change (Z.to_nat (64 - 32)) with 32%nat. change (Z.to_nat 32) with 32%nat.
    fold s. apply take_ge. lia. }
  assert (Hd : decodeSignature fuel (der_signature r s)
               = Ok (mkSignature (Hex.encode (minimal_octets r))
                       (Hex.encode (minimal_octets s)))).
  { apply decodeSignature_der_signature; [unfold len; lia|assumption]. }
  rewrite Er, Es. repeat split; trivial.
  - now rewrite encodeSignature_spec.
  - unfold derToRaw. rewrite Hd. cbn [bind sig_r sig_s].
    rewrite !padStart_minimal by assumption.
    rewrite <- encode_app. unfold r, s. now rewrite take_drop.
Qed.

(** A raw signature given as a string, through both conversions. *)
Example raw_string_roundtrip :
  let h := js "0000000000000000000000000000000000000000000000000000000000000a9f801b1b1b1b1b1b1b1b1b1b1b1b1b1b1b1b1b1b1b1b1b1b1b1b1b1b1b1b1b1b00" in
  isRawSignature (Str h) = true
  /\ (try der <- rawToDer (Str h); derToRaw 2 der) = Ok h.
Proof. split; vm_compute; reflexivity. Qed.

End Signatures.

(** * The properties of the specification *)

(** ** Raw and DER signatures *)

(** C1. For every raw signature [v], given as 128 lowercase hex digits
    or as 64 bytes, [rawToDer v] succeeds and [derToRaw] of its result
    returns the 128-digit lowercase hex string of [v]; the [r] and [s]
    read back from the DER form are each padded with zeros to 64 hex
    digits (32 bytes). *)
Theorem derToRaw_rawToDer (v : StringOrBytes) (fuel : nat) :
  isRawSignature v = true -> (2 <= fuel)%nat ->
  exists der sig,
    rawToDer v = Ok der
    /\ decodeSignature fuel der = Ok sig
    /\ derToRaw fuel der = Ok (hex_of v)
    /\ hex_of v = padStart (sig_r sig) 64 48%N ++ padStart (sig_s sig) 64 48%N
    /\ length (padStart (sig_r sig) 64 48%N) = 64%nat
    /\ length (padStart (sig_s sig) 64 48%N) = 64%nat
    /\ length (hex_of v) = 128%nat.
Proof.
  intros Hv Hfuel.
  assert (G : forall raw, length raw = 64%nat ->
    exists der sig,
      encodeSignature (Bytes (subarray raw 0 32)) (Bytes (subarray raw 32 64))
      = Ok der
      /\ decodeSignature fuel der = Ok sig
      /\ derToRaw fuel der = Ok (Hex.encode raw)
      /\ Hex.encode raw
         = padStart (sig_r sig) 64 48%N ++ padStart (sig_s sig) 64 48%N
      /\ length (padStart (sig_r sig) 64 48%N) = 64%nat
      /\ length (padStart (sig_s sig) 64 48%N) = 64%nat
      /\ length (Hex.encode raw) = 128%nat).
  { intros raw Hraw.
    destruct (raw_roundtrip_bytes raw fuel Hraw Hfuel)
      as (He & Hd & Hr & Lr & Ls).
    eexists. eexists. split; [exact He|]. split; [exact Hd|].
    split; [exact Hr|]. cbn [sig_r sig_s].
    rewrite !padStart_minimal by assumption.
    rewrite !length_encode, Lr, Ls, Hraw, <- encode_app, take_drop.
    repeat split; reflexivity. }
  destruct v as [h|raw]; cbn [isRawSignature] in Hv.
  - apply andb_true_iff in Hv. destruct Hv as [Hlen Hdig].
    apply Nat.eqb_eq in Hlen.
    assert (Heven : Nat.even (length h) = true) by (rewrite Hlen; reflexivity).
    assert (Hlow : isLowerHex h = true).
    { unfold isLowerHex. now rewrite Heven, Hdig. }
    destruct (G (decode_pairs h)) as (der & sig & He & Hrest).
    { apply length_decode_pairs. rewrite Hlen. reflexivity. }
    rewrite (encode_decode_pairs h Hlow) in Hrest.
    exists der, sig. split; [|exact Hrest].
    unfold rawToDer, len. rewrite Hlen. cbn [Z.of_nat Z.eqb negb Pos.eqb].
    rewrite decode_even by assumption. exact He.
  - apply Nat.eqb_eq in Hv.
    destruct (G raw Hv) as (der & sig & He & Hrest).
    exists der, sig. split; [|exact Hrest].
    unfold rawToDer, len. rewrite Hv. exact He.
Qed.

Lemma derToRaw_rawToDer_witness :
  isRawSignature (Bytes sample_raw) = true /\ (2 <= 2)%nat
  /\ exists der sig,
      rawToDer (Bytes sample_raw) = Ok der
      /\ decodeSignature 2 der = Ok sig
      /\ derToRaw 2 der = Ok (hex_of (Bytes sample_raw))
      /\ hex_of (Bytes sample_raw)
         = padStart (sig_r sig) 64 48%N ++ padStart (sig_s sig) 64 48%N
      /\ length (padStart (sig_r sig) 64 48%N) = 64%nat
      /\ length (padStart (sig_s sig) 64 48%N) = 64%nat
      /\ length (hex_of (Bytes sample_raw)) = 128%nat.
Proof.
  split; [reflexivity|]. split; [lia|].
  exact (derToRaw_rawToDer (Bytes sample_raw) 2 eq_refl ltac:(lia)).
Defined.

(** C2, as the claim states it, fails: [encodeSignature] drops the
    redundant leading zero octet of ["0001"], and no amount of fuel makes
    [decodeSignature] return it. *)
Lemma decodeSignature_encodeSignature_leading_zero :
  isComponent (Str (js "0001")) = true
  /\ isComponent (Str (js "01")) = true
  /\ ~ (exists fuel der,
          encodeSignature (Str (js "0001")) (Str (js "01")) = Ok der
          /\ decodeSignature fuel der = Ok (mkSignature (js "0001") (js "01"))).
Proof.
  split; [reflexivity|]. split; [reflexivity|].
  intros (fuel & der & He & Hd).
  rewrite encodeSignature_spec in He by reflexivity.
  injection He as <-.
  destruct fuel as [|[|fuel]].
  - vm_compute in Hd. discriminate.
  - vm_compute in Hd. discriminate.
  - rewrite decodeSignature_der_signature in Hd by (vm_compute; (reflexivity || lia)).
    vm_compute in Hd. discriminate.
Qed.

(** C2, amended. For every pair [(r, s)] of components (even-length
    lowercase hex strings or byte arrays) whose bytes number fewer than
    [2^31 - 14] together, [encodeSignature r s] succeeds and
    [decodeSignature] of its result returns the lowercase hex of [r] and
    of [s] without their redundant leading zero octets; it is the pair
    [(r, s)] itself when neither has a redundant leading zero octet. *)
Theorem decodeSignature_encodeSignature (r s : StringOrBytes) (fuel : nat) :
  isComponent r = true -> isComponent s = true ->
  len (component_bytes r) + len (component_bytes s) < 2 ^ 31 - 14 ->
  (2 <= fuel)%nat ->
  exists der,
    encodeSignature r s = Ok der
    /\ decodeSignature fuel der
       = Ok (mkSignature (Hex.encode (minimal_octets (component_bytes r)))
               (Hex.encode (minimal_octets (component_bytes s))))
    /\ Hex.encode (component_bytes r) = hex_of r
    /\ Hex.encode (component_bytes s) = hex_of s
    /\ (minimal_octets (component_bytes r) = component_bytes r ->
        minimal_octets (component_bytes s) = component_bytes s ->
        decodeSignature fuel der = Ok (mkSignature (hex_of r) (hex_of s))).
Proof.
  intros Hr Hs Hsize Hfuel.
  exists (der_signature (component_bytes r) (component_bytes s)).
  pose proof (encode_component_bytes r Hr) as Er.
  pose proof (encode_component_bytes s Hs) as Es.
  pose proof (decodeSignature_der_signature _ _ fuel Hsize Hfuel) as Hd.
  split; [apply encodeSignature_spec; now apply isComponent_even|].
  split; [exact Hd|]. split; [exact Er|]. split; [exact Es|].
  intros Mr Ms. rewrite Hd, Mr, Ms, Er, Es. reflexivity.
Qed.

Lemma decodeSignature_encodeSignature_witness :
  isComponent (Str (js "0001")) = true
  /\ isComponent (Bytes [xff; x10]) = true
  /\ exists der,
      encodeSignature (Str (js "0001")) (Bytes [xff; x10]) = Ok der
      /\ decodeSignature 2 der
         = Ok (mkSignature
                 (Hex.encode (minimal_octets (component_bytes (Str (js "0001")))))
                 (Hex.encode (minimal_octets (component_bytes (Bytes [xff; x10])))))
      /\ Hex.encode (component_bytes (Str (js "0001"))) = hex_of (Str (js "0001"))
      /\ Hex.encode (component_bytes (Bytes [xff; x10])) = hex_of (Bytes [xff; x10])
      /\ (minimal_octets (component_bytes (Str (js "0001")))
          = component_bytes (Str (js "0001")) ->
          minimal_octets (component_bytes (Bytes [xff; x10]))
          = component_bytes (Bytes [xff; x10]) ->
          decodeSignature 2 der
          = Ok (mkSignature (hex_of (Str (js "0001"))) (hex_of (Bytes [xff; x10])))).
Proof.
  split; [reflexivity|]. split; [reflexivity|].
  exact (decodeSignature_encodeSignature (Str (js "0001")) (Bytes [xff; x10]) 2
           eq_refl eq_refl eq_refl ltac:(lia)).
Defined.

(** ** INTEGER encoding and decoding *)

(** C3. For every non-empty byte array [v], [encodeInteger v] is the tag
    [02], the length octets and the content octets of a minimal INTEGER:
    [v] without its leading zero octets ([stripped], never empty, with
    no zero octet in front of another octet), behind one [00] octet
    exactly when the top bit of the first octet of [stripped] is set.  The
    single octet [00] is encoded as [02 01 00]. *)
Theorem encodeInteger_minimal (v : Uint8Array) :
  v <> [] ->
  (exists (k : nat) (stripped : Uint8Array) (pad : bool),
      v = replicate k x00 ++ stripped
      /\ stripped <> []
      /\ (forall b c tl, stripped = b :: c :: tl -> b <> x00)
      /\ (pad = true <->
          exists b tl, stripped = b :: tl /\ Z.testbit (b2z b) 7 = true)
      /\ encodeInteger (Bytes v)
         = Ok (x02 :: encodeLength (len ((if pad then [x00] else []) ++ stripped))
                 ++ (if pad then [x00] else []) ++ stripped))
  /\ encodeInteger (Bytes [x00]) = Ok [x02; x01; x00].
Proof.
  intros Hv. split; [|reflexivity].
  destruct (minimal_octets_zeros v) as [k Hk].
  exists k, (minimal_octets v), (msb_set (minimal_octets v)).
  split; [exact Hk|]. split; [now apply minimal_octets_nonempty|].
  split; [intros b c tl; apply minimal_octets_head|].
  split; [|apply encodeInteger_bytes].
  destruct (minimal_octets v) as [|b tl]; cbn [msb_set].
  - split; [discriminate|]. intros (b & tl & E & _). discriminate.
  - split.
    + intros H. exists b, tl. split; [reflexivity|exact H].
    + intros (b' & tl' & E & H). injection E as <- <-. exact H.
Qed.

Lemma encodeInteger_minimal_witness :
  [x00; x00; x80; x01] <> []
  /\ (exists (k : nat) (stripped : Uint8Array) (pad : bool),
         [x00; x00; x80; x01] = replicate k x00 ++ stripped
         /\ stripped <> []
         /\ (forall b c tl, stripped = b :: c :: tl -> b <> x00)
         /\ (pad = true <->
             exists b tl, stripped = b :: tl /\ Z.testbit (b2z b) 7 = true)
         /\ encodeInteger (Bytes [x00; x00; x80; x01])
            = Ok (x02 :: encodeLength (len ((if pad then [x00] else []) ++ stripped))
                    ++ (if pad then [x00] else []) ++ stripped))
     /\ encodeInteger (Bytes [x00]) = Ok [x02; x01; x00].
Proof.
  split; [discriminate|].
  exact (encodeInteger_minimal [x00; x00; x80; x01] ltac:(discriminate)).
Defined.

(** C4. For every INTEGER element in the input buffer (tag [02], DER
    length octets, fewer than [2^31] content octets), [decodeInteger]
    returns the content octets without their first octet when there is
    more than one content octet and the first one is [00], and the
    content octets unchanged otherwise; [bytesRead] is the size of the
    whole element.  [02 01 00] decodes to the single octet [00]. *)
Theorem decodeInteger_wellformed (pre content post : Uint8Array) :
  len content < 2 ^ 31 ->
  decodeInteger (pre ++ (x02 :: encodeLength (len content) ++ content) ++ post)
    (len pre)
  = Ok (mkIntegerInfo
          (if (1 <? len content) && bool_decide (head content = Some x00)
           then drop 1 content else content)
          (1 + len (encodeLength (len content)) + len content))
  /\ len (x02 :: encodeLength (len content) ++ content)
     = 1 + len (encodeLength (len content)) + len content
  /\ decodeInteger [x02; x01; x00] 0 = Ok (mkIntegerInfo [x00] 3).
Proof.
  intros Hc. split; [|split; [len_lia|reflexivity]].
  pose proof (decodeInteger_tlv pre content post Hc) as H.
  rewrite len_tlv in H. unfold tlv in H. rewrite H. f_equal. f_equal.
  destruct content as [|b [|c tl]]; try reflexivity.
  cbn [unpad head].
  destruct (Z.ltb_spec 1 (len (b :: c :: tl))); [|len_lia]. cbn [andb].
  destruct (bool_decide_reflect (b = x00)) as [->|Hb].
  - rewrite bool_decide_true by reflexivity. reflexivity.
  - rewrite bool_decide_false by congruence. reflexivity.
Qed.

Lemma decodeInteger_wellformed_witness :
  len [x00; x80] < 2 ^ 31
  /\ decodeInteger ([xaa] ++ (x02 :: encodeLength (len [x00; x80]) ++ [x00; x80])
                      ++ [xbb]) (len [xaa])
     = Ok (mkIntegerInfo
             (if (1 <? len [x00; x80]) && bool_decide (head [x00; x80] = Some x00)
              then drop 1 [x00; x80] else [x00; x80])
             (1 + len (encodeLength (len [x00; x80])) + len [x00; x80]))
  /\ len (x02 :: encodeLength (len [x00; x80]) ++ [x00; x80])
     = 1 + len (encodeLength (len [x00; x80])) + len [x00; x80]
  /\ decodeInteger [x02; x01; x00] 0 = Ok (mkIntegerInfo [x00] 3).
Proof.
  split; [reflexivity|].
  exact (decodeInteger_wellformed [xaa] [x00; x80] [xbb] eq_refl).
Defined.

(** ** Length octets *)

(** C6. For every [n] with [0 <= n < 2^31], [encodeLength n] is the
    single octet [n] when [n < 128]; otherwise it is a first octet
    [0x80 | k] followed by [k] octets (one to four) that write [n] in
    base 256, most significant octet first.  [decodeLength] at offset 0
    of [encodeLength n] returns the length [n] and the size of the
    encoding as [bytesRead]. *)
Theorem decodeLength_encodeLength_roundtrip (n : Z) :
  0 <= n < 2 ^ 31 ->
  (n < 128 -> encodeLength n = [ToUint8 n] /\ b2z (ToUint8 n) = n)
  /\ (128 <= n ->
      exists bs : Uint8Array,
        encodeLength n = ToUint8 (Z.lor 128 (len bs)) :: bs
        /\ 1 <= len bs <= 4
        /\ be_value bs = n)
  /\ decodeLength (encodeLength n) 0
     = Ok (mkLengthInfo n (len (encodeLength n))).
Proof.
  intros Hn. split; [|split].
  - intros Hs. split; [now apply encodeLength_short|].
    rewrite b2z_ToUint8. apply Z.mod_small. lia.
  - intros Hl. pose proof (byte_count_range n) as Hk.
    exists (be_bytes (Z.to_nat (byte_count n)) n).
    assert (Hlen : len (be_bytes (Z.to_nat (byte_count n)) n) = byte_count n).
    { unfold len. rewrite length_be_bytes. lia. }
    rewrite Hlen. split; [|split; [lia|]].
    + rewrite encodeLength_long by lia. f_equal. f_equal.
      assert (C : byte_count n = 1 \/ byte_count n = 2 \/ byte_count n = 3
                  \/ byte_count n = 4) by lia.
      destruct C as [-> | [-> | [-> | ->]]]; reflexivity.
    + apply be_value_be_bytes. rewrite Z2Nat.id by lia.
      pose proof (byte_count_bound n). lia.
  - pose proof (decodeLength_encodeLength [] [] n Hn) as H.
    rewrite app_nil_r in H. exact H.
Qed.

Lemma decodeLength_encodeLength_roundtrip_witness :
  0 <= 70000 < 2 ^ 31
  /\ (70000 < 128 ->
      encodeLength 70000 = [ToUint8 70000] /\ b2z (ToUint8 70000) = 70000)
  /\ (128 <= 70000 ->
      exists bs : Uint8Array,
        encodeLength 70000 = ToUint8 (Z.lor 128 (len bs)) :: bs
        /\ 1 <= len bs <= 4
        /\ be_value bs = 70000)
  /\ decodeLength (encodeLength 70000) 0
     = Ok (mkLengthInfo 70000 (len (encodeLength 70000))).
Proof.
  split; [lia|].
  exact (decodeLength_encodeLength_roundtrip 70000 ltac:(lia)).
Defined.

(** ** Rejected and accepted length octets *)

Section LengthErrors.

Lemma decodeLength_rejected (data : Uint8Array) (offset k : Z) :
  index data offset = Some (128 + k) -> k = 0 \/ 4 < k ->
  decodeLength data offset
  = Throw (Error "Invalid or unsupported long form length").
Proof.
  intros Hb Hk. rewrite (decodeLength_at _ _ _ Hb).
  destruct (Z.ltb_spec (128 + k) 128); [lia|]. cbn zeta.
  replace (128 + k - 128) with k by lia.
  destruct (Z.eqb_spec k 0); [reflexivity|].
  destruct (Z.gtb_spec k 4); [reflexivity|lia].
Qed.

Lemma decodeLength_accepted (data : Uint8Array) (offset k : Z) :
  index data offset = Some (128 + k) -> 1 <= k <= 4 ->
  offset + 1 + k <= len data ->
  decodeLength data offset
  = Ok (mkLengthInfo (length_loop (Z.to_nat k) data offset 0 0) (1 + k)).
Proof.
  intros Hb Hk Hin. rewrite (decodeLength_at _ _ _ Hb).
  destruct (Z.ltb_spec (128 + k) 128); [lia|]. cbn zeta.
  replace (128 + k - 128) with k by lia.
  destruct (Z.eqb_spec k 0); [lia|].
  destruct (Z.gtb_spec k 4); [lia|]. cbn [orb].
  destruct (Z.gtb_spec (offset + 1 + k) (len data)); [lia|reflexivity].
Qed.

(** An exception of [decodeLength] leaves [decodeInteger]. *)
Lemma decodeInteger_length_throws (data : Uint8Array) (offset : Z) (e : exn) :
  decodeLength data (offset + 1) = Throw e -> throws (decodeInteger data offset).
Proof.
  intros H. unfold decodeInteger, throws.
  destruct (index data offset) as [tag|]; [|eauto].
  destruct (negb (tag =? ASN1Tag_INTEGER)); [eauto|].
  rewrite H. cbn [bind]. eauto.
Qed.

(** An exception of [decodeLength] on the header leaves [decodeSequence]. *)
Lemma decodeSequence_length_throws (fuel : nat) (data : Uint8Array)
  (offset : Z) (e : exn) :
  decodeLength data (offset + 1) = Throw e ->
  throws (decodeSequence fuel data offset).
Proof.
  intros H. unfold decodeSequence, throws.
  destruct (negb _); [eauto|]. rewrite H. cbn [bind]. eauto.
Qed.

(** An exception of [decodeLength] on the first element leaves
    [decodeSequence]. *)
Lemma decodeSequence_element_throws (fuel : nat) (data : Uint8Array)
  (offset : Z) (li : LengthInfo) (e : exn) :
  (1 <= fuel)%nat ->
  decodeLength data (offset + 1) = Ok li ->
  0 < dl_length li ->
  decodeLength data (offset + 1 + dl_bytesRead li + 1) = Throw e ->
  throws (decodeSequence fuel data offset).
Proof.
  intros Hfuel Hli Hpos He. unfold decodeSequence, throws.
  destruct (negb _); [eauto|]. rewrite Hli. cbn [bind].
  destruct (_ >? _); [eauto|].
  destruct fuel as [|fuel]; [lia|]. cbn [decodeSequence_loop].
  destruct (Z.ltb_spec (offset + 1 + dl_bytesRead li)
              (offset + 1 + dl_bytesRead li + dl_length li)); [|lia].
  rewrite He. cbn [bind]. eauto.
Qed.

Lemma decodeSignature_sequence_throws (fuel : nat) (data : Uint8Array) :
  throws (decodeSequence fuel data 0) -> throws (decodeSignature fuel data).
Proof.
  intros [e He]. unfold decodeSignature, throws. rewrite He. cbn [bind]. eauto.
Qed.

End LengthErrors.

(** C5. A long-form first octet [0x80 + k] found at [offset] makes
    [decodeLength] throw when [k] is [0] or more than [4], and the
    exception leaves [decodeInteger] and [decodeSequence] (for an element
    whose length octets start at [offset]) and [decodeSignature] (for the
    length octets of the signature itself, or of its first element); when
    [1 <= k <= 4] and the [k] length octets lie inside the buffer,
    [decodeLength] returns. *)
Theorem decodeLength_long_form_limit (data : Uint8Array) (offset k : Z) :
  index data offset = Some (128 + k) ->
  (k = 0 \/ 4 < k ->
   decodeLength data offset
   = Throw (Error "Invalid or unsupported long form length")
   /\ throws (decodeInteger data (offset - 1))
   /\ (forall fuel, throws (decodeSequence fuel data (offset - 1)))
   /\ (offset = 1 -> forall fuel, throws (decodeSignature fuel data))
   /\ (forall fuel li,
         (1 <= fuel)%nat ->
         decodeLength data 1 = Ok li -> 0 < dl_length li ->
         offset = 1 + dl_bytesRead li + 1 ->
         throws (decodeSignature fuel data)))
  /\ (1 <= k <= 4 -> offset + 1 + k <= len data ->
      exists l, decodeLength data offset = Ok (mkLengthInfo l (1 + k))).
Proof.
  intros Hb. split.
  - intros Hk. pose proof (decodeLength_rejected data offset k Hb Hk) as Hr.
    split; [exact Hr|]. split; [|split; [|split]].
    + apply decodeInteger_length_throws with (e := Error "Invalid or unsupported long form length").
      now replace (offset - 1 + 1) with offset by lia.
    + intros fuel.
      apply decodeSequence_length_throws with (e := Error "Invalid or unsupported long form length").
      now replace (offset - 1 + 1) with offset by lia.
    + intros -> fuel. apply decodeSignature_sequence_throws.
      now apply decodeSequence_length_throws with (e := Error "Invalid or unsupported long form length").
    + intros fuel li Hfuel Hli Hpos ->. apply decodeSignature_sequence_throws.
      apply decodeSequence_element_throws
        with (li := li) (e := Error "Invalid or unsupported long form length");
        trivial.
  - intros Hk Hin. eexists. now apply decodeLength_accepted.
Qed.

Lemma decodeLength_long_form_limit_witness :
  index [x30; x85; x01; x00; x00; x00; x00] 1 = Some (128 + 5)
  /\ (5 = 0 \/ 4 < 5)
  /\ decodeLength [x30; x85; x01; x00; x00; x00; x00] 1
     = Throw (Error "Invalid or unsupported long form length")
  /\ throws (decodeInteger [x30; x85; x01; x00; x00; x00; x00] (1 - 1))
  /\ (forall fuel,
        throws (decodeSequence fuel [x30; x85; x01; x00; x00; x00; x00] (1 - 1)))
  /\ (1 = 1 -> forall fuel,
        throws (decodeSignature fuel [x30; x85; x01; x00; x00; x00; x00]))
  /\ (forall fuel li,
        (1 <= fuel)%nat ->
        decodeLength [x30; x85; x01; x00; x00; x00; x00] 1 = Ok li ->
        0 < dl_length li ->
        1 = 1 + dl_bytesRead li + 1 ->
        throws (decodeSignature fuel [x30; x85; x01; x00; x00; x00; x00])).
Proof.
  split; [reflexivity|]. split; [lia|].
  refine (proj1 (decodeLength_long_form_limit
                   [x30; x85; x01; x00; x00; x00; x00] 1 5 eq_refl) _).
  right. lia.
Defined.

(** Two length octets inside the buffer are accepted. *)
Example decodeLength_two_octets :
  1 <= 2 <= 4 /\ 1 + 1 + 2 <= len [x30; x82; x01; x00]
  /\ exists l, decodeLength [x30; x82; x01; x00] 1 = Ok (mkLengthInfo l (1 + 2)).
Proof.
  split; [lia|]. split; [vm_compute; discriminate|].
  eexists.
  refine (decodeLength_accepted [x30; x82; x01; x00] 1 2 eq_refl _ _);
    [lia|vm_compute; discriminate].
Qed.

(** ** Four length octets with the top bit set *)

Section SignedLength.

Lemma be_int32_nil (acc : Z) : be_int32 [] acc = acc.
Proof. reflexivity. Qed.

Lemma be_value_four (b1 b2 b3 b4 : byte) :
  be_value [b1; b2; b3; b4]
  = ((b2z b1 * 256 + b2z b2) * 256 + b2z b3) * 256 + b2z b4.
Proof. unfold be_value. cbn [fold_left]. lia. Qed.

(** The 32-bit accumulation over four octets is the written number
    wrapped to a signed 32-bit integer. *)
Lemma be_int32_four (b1 b2 b3 b4 : byte) :
  be_int32 [b1; b2; b3; b4] 0 = ToInt32 (be_value [b1; b2; b3; b4]).
Proof.
  pose proof (b2z_range b1). pose proof (b2z_range b2).
  pose proof (b2z_range b3). pose proof (b2z_range b4).
  rewrite be_value_four, !be_int32_cons, be_int32_nil.
  rewrite (length_step 0 (b2z b1)) by lia.
  rewrite (ToInt32_id (0 * 256 + b2z b1)) by lia.
  rewrite (length_step (0 * 256 + b2z b1) (b2z b2)) by lia.
  rewrite (ToInt32_id ((0 * 256 + b2z b1) * 256 + b2z b2)) by lia.
  rewrite (length_step ((0 * 256 + b2z b1) * 256 + b2z b2) (b2z b3)) by lia.
  rewrite (ToInt32_id (((0 * 256 + b2z b1) * 256 + b2z b2) * 256 + b2z b3))
    by lia.
  rewrite (length_step (((0 * 256 + b2z b1) * 256 + b2z b2) * 256 + b2z b3)
             (b2z b4)) by lia.
  f_equal.
Qed.

Lemma decodeSequence_loop_done (fuel : nat) (data : Uint8Array)
  (contentEnd pos : Z) (elements : list Uint8Array) :
  contentEnd <= pos ->
  decodeSequence_loop fuel data contentEnd pos elements = Ok elements.
Proof.
  intros H. destruct fuel; cbn [decodeSequence_loop];
    destruct (Z.ltb_spec pos contentEnd); trivial; lia.
Qed.

Lemma decodeLength_four (pre post : Uint8Array) (b1 b2 b3 b4 : byte) :
  decodeLength (pre ++ [x84; b1; b2; b3; b4] ++ post) (len pre)
  = Ok (mkLengthInfo (ToInt32 (be_value [b1; b2; b3; b4])) 5).
Proof.
  pose proof (len_nonneg pre). pose proof (len_nonneg post).
  change ([x84; b1; b2; b3; b4] ++ post) with (x84 :: [b1; b2; b3; b4] ++ post).
  assert (Hi : index (pre ++ x84 :: [b1; b2; b3; b4] ++ post) (len pre)
               = Some (128 + 4)) by apply index_app.
  rewrite (decodeLength_accepted _ _ 4 Hi); [|lia|len_lia].
  f_equal. f_equal.
  change (Z.to_nat 4) with (length [b1; b2; b3; b4]).
  replace (pre ++ x84 :: [b1; b2; b3; b4] ++ post)
    with ((pre ++ [x84]) ++ [b1; b2; b3; b4] ++ post) by list_assoc.
  rewrite length_loop_spec by len_lia. apply be_int32_four.
Qed.

End SignedLength.

(** C10. When four length octets follow [84] and the first of them is at
    least [80] (the written length is at least [2^31]), [decodeLength]
    does not throw: it returns the written length less [2^32], a negative
    number, with [bytesRead] 5.  The bounds checks of [decodeInteger] and
    of [decodeSequence] then compare with this negative length and pass:
    both return, with a negative [bytesRead]. *)
Theorem decodeLength_four_octets_negative
  (pre post : Uint8Array) (b1 b2 b3 b4 : byte) :
  128 <= b2z b1 ->
  2 ^ 31 <= be_value [b1; b2; b3; b4] < 2 ^ 32
  /\ decodeLength (pre ++ [x84; b1; b2; b3; b4] ++ post) (len pre)
     = Ok (mkLengthInfo (be_value [b1; b2; b3; b4] - 2 ^ 32) 5)
  /\ be_value [b1; b2; b3; b4] - 2 ^ 32 < 0
  /\ (exists value,
        decodeInteger (pre ++ [x02; x84; b1; b2; b3; b4] ++ post) (len pre)
        = Ok (mkIntegerInfo value (6 + (be_value [b1; b2; b3; b4] - 2 ^ 32))))
  /\ (forall fuel,
        decodeSequence fuel (pre ++ [x30; x84; b1; b2; b3; b4] ++ post) (len pre)
        = Ok (mkSequenceInfo [] (6 + (be_value [b1; b2; b3; b4] - 2 ^ 32)))).
Proof.
  intros Hb1.
  pose proof (b2z_range b1). pose proof (b2z_range b2).
  pose proof (b2z_range b3). pose proof (b2z_range b4).
  pose proof (len_nonneg pre). pose proof (len_nonneg post).
  pose proof (be_value_four b1 b2 b3 b4) as Hv.
  set (declared := be_value [b1; b2; b3; b4]) in *.
  assert (Hd : 2 ^ 31 <= declared < 2 ^ 32) by lia.
  assert (Hl : forall tag,
             decodeLength (pre ++ [tag; x84; b1; b2; b3; b4] ++ post) (len pre + 1)
             = Ok (mkLengthInfo (declared - 2 ^ 32) 5)).
  { intros tag.
    replace (pre ++ [tag; x84; b1; b2; b3; b4] ++ post)
      with ((pre ++ [tag]) ++ [x84; b1; b2; b3; b4] ++ post) by list_assoc.
    replace (len pre + 1) with (len (pre ++ [tag])) by len_lia.
    rewrite decodeLength_four. fold declared. now rewrite ToInt32_high. }
  split; [exact Hd|]. split; [|split; [lia|split]].
  - rewrite decodeLength_four. fold declared. now rewrite ToInt32_high.
  - unfold decodeInteger.
    assert (Hi : index (pre ++ [x02; x84; b1; b2; b3; b4] ++ post) (len pre)
                 = Some ASN1Tag_INTEGER) by apply (index_app pre _ x02).
    rewrite Hi.
    change (negb (ASN1Tag_INTEGER =? ASN1Tag_INTEGER)) with false. cbv iota.
    rewrite Hl. cbn [bind dl_length dl_bytesRead].
    destruct (Z.gtb_spec (len pre + 1 + 5 + (declared - 2 ^ 32))
                (len (pre ++ [x02; x84; b1; b2; b3; b4] ++ post))); [len_lia|].
    eexists. do 2 f_equal; lia.
  - intros fuel. unfold decodeSequence.
    assert (Hi : index (pre ++ [x30; x84; b1; b2; b3; b4] ++ post) (len pre)
                 = Some ASN1Tag_SEQUENCE) by apply (index_app pre _ x30).
    rewrite Hi, bool_decide_true by reflexivity. cbn [negb].
    rewrite Hl. cbn [bind dl_length dl_bytesRead].
    destruct (Z.gtb_spec (len pre + 1 + 5 + (declared - 2 ^ 32))
                (len (pre ++ [x30; x84; b1; b2; b3; b4] ++ post))); [len_lia|].
    rewrite decodeSequence_loop_done by lia. cbn [bind].
    do 2 f_equal; lia.
Qed.

Lemma decodeLength_four_octets_negative_witness :
  128 <= b2z xff
  /\ 2 ^ 31 <= be_value [xff; xff; xff; xce] < 2 ^ 32
  /\ decodeLength ([xaa] ++ [x84; xff; xff; xff; xce] ++ [xbb]) (len [xaa])
     = Ok (mkLengthInfo (be_value [xff; xff; xff; xce] - 2 ^ 32) 5)
  /\ be_value [xff; xff; xff; xce] - 2 ^ 32 < 0
  /\ (exists value,
        decodeInteger ([xaa] ++ [x02; x84; xff; xff; xff; xce] ++ [xbb]) (len [xaa])
        = Ok (mkIntegerInfo value (6 + (be_value [xff; xff; xff; xce] - 2 ^ 32))))
  /\ (forall fuel,
        decodeSequence fuel ([xaa] ++ [x30; x84; xff; xff; xff; xce] ++ [xbb])
          (len [xaa])
        = Ok (mkSequenceInfo [] (6 + (be_value [xff; xff; xff; xce] - 2 ^ 32)))).
Proof.
  split; [vm_compute; discriminate|].
  refine (decodeLength_four_octets_negative [xaa] [xbb] xff xff xff xce _).
  vm_compute. discriminate.
Defined.

(** ** Malformed structure *)

Section Malformed.

(** A wrong tag, or no octet at all at [offset], makes [decodeInteger]
    throw. *)
Lemma decodeInteger_wrong_tag (data : Uint8Array) (offset : Z) :
  index data offset <> Some ASN1Tag_INTEGER ->
  throws (decodeInteger data offset).
Proof.
  intros H. unfold decodeInteger, throws.
  destruct (index data offset) as [tag|]; [|eauto].
  destruct (Z.eqb_spec tag ASN1Tag_INTEGER) as [->|]; [congruence|].
  cbn [negb]. eauto.
Qed.

Lemma decodeSequence_wrong_tag (fuel : nat) (data : Uint8Array) (offset : Z) :
  index data offset <> Some ASN1Tag_SEQUENCE ->
  decodeSequence fuel data offset = Throw (Error "Expected SEQUENCE tag").
Proof.
  intros H. unfold decodeSequence. now rewrite bool_decide_false.
Qed.

(** Content that ends after the buffer, for the length that
    [decodeLength] returned, makes both decoders throw. *)
Lemma decodeInteger_out_of_bounds (data : Uint8Array) (offset : Z)
  (li : LengthInfo) :
  index data offset = Some ASN1Tag_INTEGER ->
  decodeLength data (offset + 1) = Ok li ->
  len data < offset + 1 + dl_bytesRead li + dl_length li ->
  decodeInteger data offset = Throw (Error "Integer value out of bounds").
Proof.
  intros Ht Hl Hb. unfold decodeInteger. rewrite Ht.
  change (negb (ASN1Tag_INTEGER =? ASN1Tag_INTEGER)) with false. cbv iota.
  rewrite Hl. cbn [bind].
  destruct (Z.gtb_spec (offset + 1 + dl_bytesRead li + dl_length li) (len data));
    [reflexivity|lia].
Qed.

Lemma decodeSequence_out_of_bounds (fuel : nat) (data : Uint8Array)
  (offset : Z) (li : LengthInfo) :
  index data offset = Some ASN1Tag_SEQUENCE ->
  decodeLength data (offset + 1) = Ok li ->
  len data < offset + 1 + dl_bytesRead li + dl_length li ->
  decodeSequence fuel data offset = Throw (Error "Sequence content out of bounds").
Proof.
  intros Ht Hl Hb. unfold decodeSequence. rewrite Ht.
  rewrite bool_decide_true by reflexivity. cbn [negb].
  rewrite Hl. cbn [bind].
  destruct (Z.gtb_spec (offset + 1 + dl_bytesRead li + dl_length li) (len data));
    [reflexivity|lia].
Qed.

(** The element loop has inputs on which it never ends: in
    [30 06 02 84 FF FF FF FA] the element announces the length [-6] once
    wrapped to 32 bits, its total size is [0], and [pos] stays where it is.
    No fuel suffices. *)
Lemma decodeSequence_loop_stationary (fuel : nat) (elements : list Uint8Array) :
  decodeSequence_loop fuel [x30; x06; x02; x84; xff; xff; xff; xfa] 8 2 elements
  = OutOfFuel.
Proof.
  revert elements. induction fuel as [|fuel IH]; intros elements; [reflexivity|].
  assert (Hl : decodeLength [x30; x06; x02; x84; xff; xff; xff; xfa] (2 + 1)
               = Ok (mkLengthInfo (-6) 5)) by (vm_compute; reflexivity).
  cbn [decodeSequence_loop]. change (2 <? 8) with true. cbv iota.
  rewrite Hl. cbn [bind dl_length dl_bytesRead].
  change (2 + (1 + 5 + -6)) with 2. apply IH.
Qed.

Lemma decodeSequence_never_returns (fuel : nat) :
  decodeSequence fuel [x30; x06; x02; x84; xff; xff; xff; xfa] 0 = OutOfFuel.
Proof.
  unfold decodeSequence.
  assert (Ht : index [x30; x06; x02; x84; xff; xff; xff; xfa] 0
               = Some ASN1Tag_SEQUENCE) by reflexivity.
  assert (Hl : decodeLength [x30; x06; x02; x84; xff; xff; xff; xfa] (0 + 1)
               = Ok (mkLengthInfo 6 1)) by (vm_compute; reflexivity).
  rewrite Ht, bool_decide_true by reflexivity. cbn [negb].
  rewrite Hl. cbn [bind dl_length dl_bytesRead].
  change (0 + 1 + 1 + 6 >? len [x30; x06; x02; x84; xff; xff; xff; xfa])
    with false. cbv iota.
  change (0 + 1 + 1 + 6) with 8. change (0 + 1 + 1) with 2.
  now rewrite decodeSequence_loop_stationary.
Qed.

End Malformed.

(** C7, at an input where the code departs from it.  The six octets
    [02 84 80 00 00 00] announce [2^31] content octets and hold none, yet
    [decodeInteger] returns (an empty value and a negative [bytesRead]);
    so does [decodeSequence] on [30 84 80 00 00 00], whatever the fuel. *)
Theorem decode_overlong_content_returns :
  index [x02; x84; x80; x00; x00; x00] 0 = Some ASN1Tag_INTEGER
  /\ index [x30; x84; x80; x00; x00; x00] 0 = Some ASN1Tag_SEQUENCE
  /\ be_value [x80; x00; x00; x00] = 2 ^ 31
  /\ len [x02; x84; x80; x00; x00; x00] = 6
  /\ decodeInteger [x02; x84; x80; x00; x00; x00] 0
     = Ok (mkIntegerInfo [] (-2147483642))
  /\ (forall fuel,
        decodeSequence fuel [x30; x84; x80; x00; x00; x00] 0
        = Ok (mkSequenceInfo [] (-2147483642))).
Proof.
  do 5 (split; [vm_compute; reflexivity|]).
  intros fuel. destruct fuel; vm_compute; reflexivity.
Qed.

(** ** Hex strings given as input *)

Section HexInput.

(** [encodeInteger] returns or throws; it has no loop that could run
    out of fuel. *)
Lemma encodeInteger_total (v : StringOrBytes) :
  (exists der, encodeInteger v = Ok der) \/ throws (encodeInteger v).
Proof.
  destruct v as [h|b].
  - destruct (Nat.even (length h)) eqn:E.
    + left. eexists. now apply encodeInteger_str.
    + right. unfold throws, encodeInteger. rewrite decode_odd.
      * cbn [bind]. eauto.
      * now rewrite <- Nat.negb_even, E.
  - left. eexists. apply encodeInteger_bytes.
Qed.

Ltac compare_cases :=
  repeat match goal with
    | |- context [N.leb ?a ?b] => destruct (N.leb_spec a b); try lia
    | |- context [N.eqb ?a ?b] => destruct (N.eqb_spec a b); try lia
    | H : context [N.leb ?a ?b] |- _ => destruct (N.leb_spec a b); try lia
    end.

(** A radix-16 digit is neither white space nor a sign. *)
Lemma hexDigitValue_Some (c : N) (d : Z) :
  hexDigitValue c = Some d ->
  isStrWhiteSpaceChar c = false /\ c <> 43%N /\ c <> 45%N
  /\ 0 <= d < 16 /\ (c = 48%N -> d = 0).
Proof.
  unfold hexDigitValue, isStrWhiteSpaceChar. intros H.
  compare_cases; cbn [andb orb] in H |- *; try discriminate;
    injection H as <-; repeat split; trivial; try lia.
Qed.

(** A pair that starts with neither a digit, white space nor a sign is
    read as [NaN] and stored as [0]. *)
Lemma pair_byte_no_digit (c1 c2 : N) :
  hexDigitValue c1 = None -> isStrWhiteSpaceChar c1 = false ->
  c1 <> 43%N -> c1 <> 45%N ->
  parseInt16 [c1; c2] = None /\ pair_byte c1 c2 = x00.
Proof.
  intros Hd Hw Hp Hm.
  assert (E : parseInt16 [c1; c2] = None).
  { unfold parseInt16. cbn [trimStart]. rewrite Hw. cbn [startsWith].
    apply N.eqb_neq in Hp, Hm. rewrite Hp, Hm. cbn [orb].
    unfold startsWith0x.
    destruct (N.eqb_spec c1 48) as [->|_]; [discriminate|].
    cbn [andb hexPrefix]. now rewrite Hd. }
  split; [exact E|]. unfold pair_byte. now rewrite E.
Qed.

(** A pair made of a digit and of a unit that is no digit is read as the
    digit alone. *)
Lemma pair_byte_digit_only (c1 c2 : N) (d : Z) :
  hexDigitValue c1 = Some d -> hexDigitValue c2 = None ->
  pair_byte c1 c2 = ToUint8 d.
Proof.
  intros H1 H2. destruct (hexDigitValue_Some c1 d H1) as (Hw & Hp & Hm & Hr & H0).
  unfold pair_byte, parseInt16. cbn [trimStart]. rewrite Hw. cbn [startsWith].
  apply N.eqb_neq in Hp, Hm. rewrite Hp, Hm. cbn [orb].
  unfold startsWith0x.
  destruct (N.eqb_spec c1 48) as [E|_]; cbn [andb].
  - rewrite (H0 E).
    destruct ((c2 =? 120)%N || (c2 =? 88)%N).
    + reflexivity.
    + cbn [hexPrefix]. rewrite H1, H2. rewrite (H0 E). reflexivity.
  - cbn [hexPrefix]. rewrite H1, H2. cbn [fold_left default]. f_equal.
    unfold id. lia.
Qed.

End HexInput.

(** C8. [Hex.decode] throws on every string of odd length, and so do
    [encodeInteger], [encodeSignature] (for either component) and
    [rawToDer] when given such a string. *)
Theorem hex_decode_odd_length (hex : jsstring) :
  Nat.odd (length hex) = true ->
  Hex.decode hex = Throw (Error "Invalid hex string length")
  /\ encodeInteger (Str hex) = Throw (Error "Invalid hex string length")
  /\ (forall s, encodeSignature (Str hex) s
                = Throw (Error "Invalid hex string length"))
  /\ (forall r, throws (encodeSignature r (Str hex)))
  /\ throws (rawToDer (Str hex)).
Proof.
  intros Ho. pose proof (decode_odd hex Ho) as Hd.
  assert (He : encodeInteger (Str hex) = Throw (Error "Invalid hex string length")).
  { unfold encodeInteger. now rewrite Hd. }
  split; [exact Hd|]. split; [exact He|]. split; [|split].
  - intros s. unfold encodeSignature. now rewrite He.
  - intros r. unfold encodeSignature, throws.
    destruct (encodeInteger_total r) as [[der Hr]|[e Hr]]; rewrite Hr; cbn [bind].
    + rewrite He. cbn [bind]. eauto.
    + eauto.
  - unfold rawToDer, throws.
    destruct (Z.eqb_spec (len hex) 128) as [E|_]; cbn [negb bind]; [|eauto].
    exfalso. unfold len in E. replace (length hex) with 128%nat in Ho by lia.
    discriminate.
Qed.

Lemma hex_decode_odd_length_witness :
  Nat.odd (length (js "abc")) = true
  /\ Hex.decode (js "abc") = Throw (Error "Invalid hex string length")
  /\ encodeInteger (Str (js "abc")) = Throw (Error "Invalid hex string length")
  /\ (forall s, encodeSignature (Str (js "abc")) s
                = Throw (Error "Invalid hex string length"))
  /\ (forall r, throws (encodeSignature r (Str (js "abc"))))
  /\ throws (rawToDer (Str (js "abc"))).
Proof.
  split; [reflexivity|].
  exact (hex_decode_odd_length (js "abc") eq_refl).
Defined.

(** C9, as the claim states it, fails: in the pair ["1g"] the unit [g] is
    no radix-16 digit, and the pair is stored as [01], not as [00]. *)
Lemma hex_decode_digit_then_letter :
  Nat.even (length (js "1g")) = true
  /\ hexDigitValue 103 = None
  /\ js "1g" = [49; 103]%N
  /\ Hex.decode (js "1g") = Ok [x01]
  /\ Hex.decode (js "1g") <> Ok [x00].
Proof.
  repeat split; try reflexivity. vm_compute. discriminate.
Qed.

(** C9, amended. [Hex.decode] does not validate digits: on every string
    of even length it returns, without throwing, one byte per pair of
    code units, the byte that [parseInt] reads from the pair.  A pair whose
    first unit is neither a radix-16 digit, white space nor a sign is
    stored as [00]; a pair made of a digit and of a unit that is no digit
    is stored as the value of the digit.  Such strings are accepted by
    [encodeInteger], by [encodeSignature] and (with 128 units) by
    [rawToDer]. *)
Theorem hex_decode_unvalidated (h : jsstring) :
  Nat.even (length h) = true ->
  (exists bytes,
      Hex.decode h = Ok bytes
      /\ (2 * length bytes = length h)%nat
      /\ forall (i : nat) (c1 c2 : N),
          h !! (2 * i)%nat = Some c1 -> h !! (2 * i + 1)%nat = Some c2 ->
          bytes !! i = Some (ToUint8 (default 0 (parseInt16 [c1; c2])))
          /\ (hexDigitValue c1 = None -> isStrWhiteSpaceChar c1 = false ->
              c1 <> 43%N -> c1 <> 45%N -> bytes !! i = Some x00)
          /\ (forall d, hexDigitValue c1 = Some d -> hexDigitValue c2 = None ->
              bytes !! i = Some (ToUint8 d)))
  /\ (exists der, encodeInteger (Str h) = Ok der)
  /\ (forall h2, Nat.even (length h2) = true ->
      exists der, encodeSignature (Str h) (Str h2) = Ok der)
  /\ (length h = 128%nat -> exists der, rawToDer (Str h) = Ok der).
Proof.
  intros He. split; [|split; [|split]].
  - exists (decode_pairs h). split; [now apply decode_even|].
    apply Nat.even_spec in He. destruct He as [n Hn].
    split; [rewrite (length_decode_pairs h n Hn); lia|].
    intros i c1 c2 H1 H2.
    pose proof (lookup_decode_pairs h i c1 c2 H1 H2) as Hl.
    split; [exact Hl|]. split.
    + intros Hd Hw Hp Hm. rewrite Hl. f_equal.
      now apply pair_byte_no_digit.
    + intros d Hd1 Hd2. rewrite Hl. f_equal.
      now apply pair_byte_digit_only.
  - eexists. now apply encodeInteger_str.
  - intros h2 He2. eexists.
    now apply (encodeSignature_spec (Str h) (Str h2)).
  - intros Hlen. unfold rawToDer, len. rewrite Hlen.
    change (negb (Z.of_nat 128 =? 128)) with false. cbv iota.
    rewrite decode_even by assumption. cbn [bind].
    eexists. now apply (encodeSignature_spec (Bytes _) (Bytes _)).
Qed.

Lemma hex_decode_unvalidated_witness :
  Nat.even (length (js "zz1g")) = true
  /\ (exists bytes,
         Hex.decode (js "zz1g") = Ok bytes
         /\ (2 * length bytes = length (js "zz1g"))%nat
         /\ forall (i : nat) (c1 c2 : N),
             js "zz1g" !! (2 * i)%nat = Some c1 ->
             js "zz1g" !! (2 * i + 1)%nat = Some c2 ->
             bytes !! i = Some (ToUint8 (default 0 (parseInt16 [c1; c2])))
             /\ (hexDigitValue c1 = None -> isStrWhiteSpaceChar c1 = false ->
                 c1 <> 43%N -> c1 <> 45%N -> bytes !! i = Some x00)
             /\ (forall d, hexDigitValue c1 = Some d -> hexDigitValue c2 = None ->
                 bytes !! i = Some (ToUint8 d)))
     /\ (exists der, encodeInteger (Str (js "zz1g")) = Ok der)
     /\ (forall h2, Nat.even (length h2) = true ->
         exists der, encodeSignature (Str (js "zz1g")) (Str h2) = Ok der)
     /\ (length (js "zz1g") = 128%nat ->
         exists der, rawToDer (Str (js "zz1g")) = Ok der).
Proof.
  split; [reflexivity|].
  exact (hex_decode_unvalidated (js "zz1g") eq_refl).
Defined.

(** * Further properties of the codec *)

(** ** The hex helper *)

Section HexHelper.

Lemma byteToHex_digits (b : byte) :
  exists c1 c2,
    Hex.byteToHex b = [c1; c2] /\ pair_byte c1 c2 = b
    /\ isLowerHexDigit c1 = true /\ isLowerHexDigit c2 = true.
Proof. destruct b; do 2 eexists; repeat split; reflexivity. Qed.

Lemma decode_pairs_encode (bytes : Uint8Array) :
  decode_pairs (Hex.encode bytes) = bytes.
Proof.
  induction bytes as [|b bs IH]; [reflexivity|].
  destruct (byteToHex_digits b) as (c1 & c2 & E & P & _).
  rewrite encode_cons, E. cbn [app decode_pairs]. now rewrite P, IH.
Qed.

Lemma isLowerHex_encode (bytes : Uint8Array) :
  isLowerHex (Hex.encode bytes) = true.
Proof.
  unfold isLowerHex. apply andb_true_iff. split.
  - rewrite length_encode. apply Nat.even_spec. now exists (length bytes).
  - induction bytes as [|b bs IH]; [reflexivity|].
    destruct (byteToHex_digits b) as (c1 & c2 & E & _ & D1 & D2).
    rewrite encode_cons, E. cbn [app forallb]. now rewrite D1, D2, IH.
Qed.

Lemma decode_encode (bytes : Uint8Array) :
  Hex.decode (Hex.encode bytes) = Ok bytes.
Proof.
  rewrite decode_even, decode_pairs_encode; [reflexivity|].
  pose proof (isLowerHex_encode bytes) as H. unfold isLowerHex in H.
  now apply andb_true_iff in H.
Qed.

(** Two radix-16 digits are read as the number they write. *)
Lemma pair_byte_digits (c1 c2 : N) (d1 d2 : Z) :
  hexDigitValue c1 = Some d1 -> hexDigitValue c2 = Some d2 ->
  pair_byte c1 c2 = ToUint8 (16 * d1 + d2).
Proof.
  intros H1 H2.
  destruct (hexDigitValue_Some c1 d1 H1) as (Hw & Hp & Hm & _ & _).
  unfold pair_byte, parseInt16. cbn [trimStart]. rewrite Hw. cbn [startsWith].
  apply N.eqb_neq in Hp, Hm. rewrite Hp, Hm. cbn [orb].
  unfold startsWith0x.
  assert (Hx : ((c2 =? 120) || (c2 =? 88))%N = false).
  { destruct (N.eqb_spec c2 120) as [->|_]; [discriminate|].
    destruct (N.eqb_spec c2 88) as [->|_]; [discriminate|]. reflexivity. }
  rewrite Hx, andb_false_r. cbn [hexPrefix]. rewrite H1, H2.
  cbn [fold_left default]. f_equal. unfold id. lia.
Qed.

Lemma decode_pairs_hex_value (h : jsstring) :
  forallb isHexDigit h = true -> decode_pairs h = hex_value_bytes h.
Proof.
  revert h. fix IH 1. intros [|c1 [|c2 h']] H; try reflexivity.
  cbn [forallb] in H. apply andb_true_iff in H. destruct H as [D1 H].
  apply andb_true_iff in H. destruct H as [D2 H].
  unfold isHexDigit in D1, D2.
  destruct (hexDigitValue c1) as [d1|] eqn:E1; [|discriminate].
  destruct (hexDigitValue c2) as [d2|] eqn:E2; [|discriminate].
  cbn [decode_pairs hex_value_bytes]. rewrite E1, E2.
  rewrite (pair_byte_digits c1 c2 d1 d2 E1 E2). cbn [default]. unfold id.
  f_equal. now apply IH.
Qed.

Lemma hex_value_bytes_same_digits (h h' : jsstring) :
  map hexDigitValue h' = map hexDigitValue h ->
  hex_value_bytes h' = hex_value_bytes h.
Proof.
  revert h h'. fix IH 1. intros [|c1 [|c2 h]] [|c1' [|c2' k]] E;
    try reflexivity; try discriminate.
  cbn [map] in E. injection E as E1 E2 E.
  cbn [hex_value_bytes]. rewrite E1, E2. f_equal. now apply IH.
Qed.

End HexHelper.

(** X1. [Hex.encode] writes every byte as two lowercase radix-16 digits,
    and [Hex.decode] reads the bytes back: the hex helper round-trips on
    every byte array. *)
Theorem hex_encode_decode (bytes : Uint8Array) :
  length (Hex.encode bytes) = (2 * length bytes)%nat
  /\ forallb isLowerHexDigit (Hex.encode bytes) = true
  /\ Hex.decode (Hex.encode bytes) = Ok bytes.
Proof.
  split; [apply length_encode|]. split; [|apply decode_encode].
  pose proof (isLowerHex_encode bytes) as H. unfold isLowerHex in H.
  now apply andb_true_iff in H.
Qed.

(** X2. On an even-length string of lowercase radix-16 digits
    [Hex.decode] returns half as many bytes, and [Hex.encode] of these
    bytes is the string again. *)
Theorem hex_decode_encode (h : jsstring) :
  isLowerHex h = true ->
  exists bytes,
    Hex.decode h = Ok bytes
    /\ (2 * length bytes = length h)%nat
    /\ Hex.encode bytes = h.
Proof.
  intros H. exists (decode_pairs h).
  pose proof H as H'. unfold isLowerHex in H'. apply andb_true_iff in H'.
  destruct H' as [He _]. split; [now apply decode_even|].
  split; [|now apply encode_decode_pairs].
  apply Nat.even_spec in He. destruct He as [n Hn].
  rewrite (length_decode_pairs h n Hn). lia.
Qed.

Lemma hex_decode_encode_witness :
  isLowerHex (js "00ff7a") = true
  /\ exists bytes,
      Hex.decode (js "00ff7a") = Ok bytes
      /\ (2 * length bytes = length (js "00ff7a"))%nat
      /\ Hex.encode bytes = js "00ff7a".
Proof.
  split; [reflexivity|]. exact (hex_decode_encode (js "00ff7a") eq_refl).
Defined.

(** X3. On an even-length string of radix-16 digits of either case
    [Hex.decode] returns the bytes that the digits write (sixteen times
    the first digit of a pair plus the second); two such strings with the
    same digit values, as a lowercase string and its uppercase form,
    decode to the same bytes. *)
Theorem hex_decode_digits (h : jsstring) :
  Nat.even (length h) = true -> forallb isHexDigit h = true ->
  Hex.decode h = Ok (hex_value_bytes h)
  /\ (forall h', map hexDigitValue h' = map hexDigitValue h ->
      Hex.decode h' = Hex.decode h).
Proof.
  intros He Hd.
  assert (G : forall k, Nat.even (length k) = true -> forallb isHexDigit k = true ->
                        Hex.decode k = Ok (hex_value_bytes k)).
  { intros k Ke Kd. now rewrite decode_even, decode_pairs_hex_value. }
  split; [now apply G|]. intros h' E.
  assert (Hl : length h' = length h).
  { apply (f_equal (@length _)) in E. now rewrite !length_map in E. }
  assert (Hd' : forallb isHexDigit h' = true).
  { unfold isHexDigit in *. rewrite forallb_forall in *.
    intros c Hc. apply (in_map hexDigitValue) in Hc. rewrite E in Hc.
    apply in_map_iff in Hc. destruct Hc as (c0 & E0 & Hc0).
    specialize (Hd c0 Hc0). rewrite E0 in Hd.
    destruct (hexDigitValue c); [reflexivity|discriminate]. }
  rewrite !G; trivial; [|now rewrite Hl].
  f_equal. now apply hex_value_bytes_same_digits.
Qed.

Lemma hex_decode_digits_witness :
  Nat.even (length (js "0aFf")) = true
  /\ forallb isHexDigit (js "0aFf") = true
  /\ Hex.decode (js "0aFf") = Ok (hex_value_bytes (js "0aFf"))
  /\ (forall h', map hexDigitValue h' = map hexDigitValue (js "0aFf") ->
      Hex.decode h' = Hex.decode (js "0aFf")).
Proof.
  split; [reflexivity|]. split; [reflexivity|].
  exact (hex_decode_digits (js "0aFf") eq_refl eq_refl).
Defined.

(** ** Length octets, beyond the DER forms *)

Section LengthForms.

Lemma be_value_nil : be_value [] = 0.
Proof. reflexivity. Qed.

(** Up to three octets the 32-bit accumulation is the written number. *)
Lemma be_int32_small (bs : Uint8Array) :
  (length bs <= 3)%nat ->
  be_int32 bs 0 = be_value bs /\ 0 <= be_value bs < 256 ^ len bs.
Proof.
  induction bs as [|b bs IH] using rev_ind; intros Hlen.
  { rewrite be_int32_nil, be_value_nil. change (len []) with 0. lia. }
  rewrite length_app in Hlen. cbn [length] in Hlen.
  destruct IH as [IH1 IH2]; [lia|].
  pose proof (b2z_range b) as Hb.
  rewrite be_int32_snoc, be_value_snoc, IH1, len_app.
  change (len [b]) with 1. rewrite Z.pow_add_r by (pose proof (len_nonneg bs); lia).
  change (256 ^ 1) with 256.
  assert (Hp : 256 ^ len bs <= 2 ^ 16).
  { assert (C : len bs = 0 \/ len bs = 1 \/ len bs = 2) by (unfold len; lia).
    destruct C as [-> | [-> | ->]]; lia. }
  rewrite length_step by lia. rewrite ToInt32_id by lia. split; [reflexivity|nia].
Qed.

(** Up to four octets it is the written number wrapped to 32 bits. *)
Lemma be_int32_wrapped (bs : Uint8Array) :
  (length bs <= 4)%nat ->
  be_int32 bs 0 = ToInt32 (be_value bs) /\ 0 <= be_value bs < 2 ^ 32.
Proof.
  destruct bs as [|b bs] using rev_ind; intros Hlen.
  { rewrite be_int32_nil, be_value_nil. split; [reflexivity|lia]. }
  clear IHbs. rewrite length_app in Hlen. cbn [length] in Hlen.
  destruct (be_int32_small bs) as [H1 H2]; [lia|].
  pose proof (b2z_range b) as Hb.
  assert (Hp : 256 ^ len bs <= 2 ^ 24).
  { assert (C : len bs = 0 \/ len bs = 1 \/ len bs = 2 \/ len bs = 3)
      by (unfold len; lia).
    destruct C as [-> | [-> | [-> | ->]]]; lia. }
  rewrite be_int32_snoc, be_value_snoc, H1.
  rewrite length_step by lia. split; [reflexivity|lia].
Qed.

Lemma decodeLength_octets (pre bs post : Uint8Array) :
  1 <= len bs <= 4 ->
  decodeLength (pre ++ ToUint8 (128 + len bs) :: bs ++ post) (len pre)
  = Ok (mkLengthInfo (ToInt32 (be_value bs)) (1 + len bs)).
Proof.
  intros Hk. pose proof (len_nonneg pre). pose proof (len_nonneg post).
  assert (Hi : index (pre ++ ToUint8 (128 + len bs) :: bs ++ post) (len pre)
               = Some (128 + len bs)).
  { rewrite index_app, b2z_ToUint8, Z.mod_small by lia. reflexivity. }
  rewrite (decodeLength_accepted _ _ _ Hi) by len_lia.
  rewrite to_nat_len.
  replace (pre ++ ToUint8 (128 + len bs) :: bs ++ post)
    with ((pre ++ [ToUint8 (128 + len bs)]) ++ bs ++ post) by list_assoc.
  rewrite length_loop_spec by len_lia.
  destruct (be_int32_wrapped bs) as [E _]; [unfold len in Hk; lia|].
  now rewrite E.
Qed.

(** The first octet that [encodeLength] writes after the count is not
    zero. *)
Lemma be_bytes_minimal (n : Z) :
  128 <= n < 2 ^ 32 ->
  exists b bs,
    be_bytes (Z.to_nat (byte_count n)) n = b :: bs /\ b <> x00.
Proof.
  intros Hn.
  assert (Hnz : forall m, 1 <= m < 256 -> ToUint8 m <> x00).
  { intros m Hm E. apply (f_equal b2z) in E. rewrite b2z_ToUint8 in E.
    rewrite Z.mod_small in E by lia. change (b2z x00) with 0 in E. lia. }
  unfold byte_count.
  destruct (Z.ltb_spec n (2 ^ 8)).
  { exists (ToUint8 n), []. split; [reflexivity|]. apply Hnz. lia. }
  destruct (Z.ltb_spec n (2 ^ 16)).
  { exists (ToUint8 (n / 256)), [ToUint8 n]. split; [reflexivity|].
    apply Hnz. Z.div_mod_to_equations. lia. }
  destruct (Z.ltb_spec n (2 ^ 24)).
  { exists (ToUint8 (n / 256 / 256)), [ToUint8 (n / 256); ToUint8 n].
    split; [reflexivity|]. apply Hnz. Z.div_mod_to_equations. lia. }
  exists (ToUint8 (n / 256 / 256 / 256)),
    [ToUint8 (n / 256 / 256); ToUint8 (n / 256); ToUint8 n].
  split; [reflexivity|]. apply Hnz. Z.div_mod_to_equations. lia.
Qed.

End LengthForms.

(** X4. [decodeLength] accepts every long form of one to four length
    octets, minimal or not (a value below 128, leading zero octets): it
    returns the number that the octets write in base 256 wrapped to a
    signed 32-bit integer, which is the number itself below [2^31], and
    one more than the number of length octets as [bytesRead]. *)
Theorem decodeLength_any_long_form (pre bs post : Uint8Array) :
  1 <= len bs <= 4 ->
  decodeLength (pre ++ ToUint8 (128 + len bs) :: bs ++ post) (len pre)
  = Ok (mkLengthInfo (ToInt32 (be_value bs)) (1 + len bs))
  /\ 0 <= be_value bs < 2 ^ 32
  /\ (be_value bs < 2 ^ 31 -> ToInt32 (be_value bs) = be_value bs).
Proof.
  intros Hk. split; [now apply decodeLength_octets|].
  destruct (be_int32_wrapped bs) as [_ Hr]; [unfold len in Hk; lia|].
  split; [exact Hr|]. intros Hlt. apply ToInt32_id. lia.
Qed.

Lemma decodeLength_any_long_form_witness :
  1 <= len [x00; x05] <= 4
  /\ decodeLength ([x02] ++ ToUint8 (128 + len [x00; x05]) :: [x00; x05] ++ [xaa])
       (len [x02])
     = Ok (mkLengthInfo (ToInt32 (be_value [x00; x05])) (1 + len [x00; x05]))
  /\ 0 <= be_value [x00; x05] < 2 ^ 32
  /\ (be_value [x00; x05] < 2 ^ 31 ->
      ToInt32 (be_value [x00; x05]) = be_value [x00; x05]).
Proof.
  split; [vm_compute; split; discriminate|].
  refine (decodeLength_any_long_form [x02] [x00; x05] [xaa] _).
  vm_compute. split; discriminate.
Defined.

(** X5. The edges of [decodeLength]: an offset at or after the end of the
    buffer throws ['Offset out of bounds']; a negative offset throws the
    long-form error, the octet read being [undefined]; an octet below 128
    is returned as the length with [bytesRead] 1; a long form whose one to
    four length octets do not all lie in the buffer throws ['Length bytes
    out of bounds']. *)
Theorem decodeLength_edges (data : Uint8Array) (offset : Z) :
  (len data <= offset ->
   decodeLength data offset = Throw (Error "Offset out of bounds"))
  /\ (offset < 0 ->
      decodeLength data offset
      = Throw (Error "Invalid or unsupported long form length"))
  /\ (forall b, index data offset = Some b -> b < 128 ->
      decodeLength data offset = Ok (mkLengthInfo b 1))
  /\ (forall k, index data offset = Some (128 + k) -> 1 <= k <= 4 ->
      len data < offset + 1 + k ->
      decodeLength data offset = Throw (Error "Length bytes out of bounds")).
Proof.
  split; [|split; [|split]].
  - intros H. unfold decodeLength.
    destruct (Z.geb_spec offset (len data)); [reflexivity|lia].
  - intros H. pose proof (len_nonneg data). unfold decodeLength.
    destruct (Z.geb_spec offset (len data)); [lia|].
    rewrite index_outside by lia. reflexivity.
  - intros b Hb Hlt. rewrite (decodeLength_at _ _ _ Hb).
    destruct (Z.ltb_spec b 128); [reflexivity|lia].
  - intros k Hb Hk Hout. rewrite (decodeLength_at _ _ _ Hb).
    destruct (Z.ltb_spec (128 + k) 128); [lia|]. cbn zeta.
    replace (128 + k - 128) with k by lia.
    destruct (Z.eqb_spec k 0); [lia|].
    destruct (Z.gtb_spec k 4); [lia|]. cbn [orb].
    destruct (Z.gtb_spec (offset + 1 + k) (len data)); [reflexivity|lia].
Qed.

Lemma decodeLength_edges_witness :
  decodeLength [x05] 1 = Throw (Error "Offset out of bounds")
  /\ decodeLength [x05] (-1)
     = Throw (Error "Invalid or unsupported long form length")
  /\ decodeLength [x05] 0 = Ok (mkLengthInfo 5 1)
  /\ decodeLength [x82; x01] 0 = Throw (Error "Length bytes out of bounds").
Proof.
  split; [refine (proj1 (decodeLength_edges [x05] 1) _); vm_compute;
          discriminate|].
  split; [refine (proj1 (proj2 (decodeLength_edges [x05] (-1))) _); lia|].
  split; [refine (proj1 (proj2 (proj2 (decodeLength_edges [x05] 0))) 5 _ _);
          [reflexivity|lia]|].
  refine (proj2 (proj2 (proj2 (decodeLength_edges [x82; x01] 0))) 2 _ _ _);
    [reflexivity|lia|vm_compute; reflexivity].
Defined.

(** X6. For every [n] with [128 <= n < 2^32], [encodeLength n] is the
    octet [0x80 + k] followed by the [k] octets (at most four) that write
    [n] in base 256 with no zero octet in front: the shortest long form.
    From [2^31] on [decodeLength] does not read it back: it returns
    [n - 2^32]. *)
Theorem encodeLength_shortest_form (n : Z) :
  128 <= n < 2 ^ 32 ->
  exists (b : byte) (bs : Uint8Array),
    encodeLength n = ToUint8 (128 + len (b :: bs)) :: b :: bs
    /\ len (b :: bs) <= 4
    /\ b <> x00
    /\ be_value (b :: bs) = n
    /\ (2 ^ 31 <= n ->
        decodeLength (encodeLength n) 0
        = Ok (mkLengthInfo (n - 2 ^ 32) (len (encodeLength n)))).
Proof.
  intros Hn. pose proof (byte_count_range n) as Hk.
  destruct (be_bytes_minimal n Hn) as (b & bs & E & Hb).
  assert (Hlen : len (b :: bs) = byte_count n).
  { rewrite <- E. unfold len. rewrite length_be_bytes. lia. }
  assert (Hv : be_value (b :: bs) = n).
  { rewrite <- E. apply be_value_be_bytes. rewrite Z2Nat.id by lia.
    pose proof (byte_count_bound n). lia. }
  assert (He : encodeLength n = ToUint8 (128 + len (b :: bs)) :: b :: bs).
  { rewrite encodeLength_long, E, Hlen by lia. reflexivity. }
  exists b, bs. split; [exact He|]. split; [lia|]. split; [exact Hb|].
  split; [exact Hv|]. intros Hhi.
  pose proof (decodeLength_octets [] (b :: bs) []) as Hd.
  rewrite app_nil_r in Hd. cbn [app] in Hd. change (len []) with 0 in Hd.
  rewrite He at 1. rewrite Hd by lia. rewrite Hv, ToInt32_high by lia.
  rewrite He. do 2 f_equal. len_lia.
Qed.

Lemma encodeLength_shortest_form_witness :
  128 <= 3000000000 < 2 ^ 32
  /\ exists (b : byte) (bs : Uint8Array),
      encodeLength 3000000000 = ToUint8 (128 + len (b :: bs)) :: b :: bs
      /\ len (b :: bs) <= 4
      /\ b <> x00
      /\ be_value (b :: bs) = 3000000000
      /\ (2 ^ 31 <= 3000000000 ->
          decodeLength (encodeLength 3000000000) 0
          = Ok (mkLengthInfo (3000000000 - 2 ^ 32)
                  (len (encodeLength 3000000000)))).
Proof.
  split; [lia|]. exact (encodeLength_shortest_form 3000000000 ltac:(lia)).
Defined.

(** ** INTEGER, further *)

Section IntegerFurther.

Lemma minimal_octets_replicate (k : nat) (v : Uint8Array) :
  v <> [] -> minimal_octets (replicate k x00 ++ v) = minimal_octets v.
Proof.
  intros Hv. induction k as [|k IH]; [reflexivity|].
  rewrite replicate_S. cbn [app].
  destruct (replicate k x00 ++ v) as [|c tl] eqn:E.
  { apply app_eq_nil in E. destruct E as [_ E]. contradiction. }
  cbn [minimal_octets]. rewrite bool_decide_true by reflexivity. exact IH.
Qed.

Lemma minimal_octets_idem (v : Uint8Array) :
  minimal_octets (minimal_octets v) = minimal_octets v.
Proof.
  destruct (minimal_octets v) as [|b [|c tl]] eqn:E; try reflexivity.
  apply minimal_octets_head in E. cbn [minimal_octets].
  now rewrite bool_decide_false.
Qed.

Lemma der_content_minimal (v : Uint8Array) :
  der_content (minimal_octets v) = der_content v.
Proof. unfold der_content. now rewrite minimal_octets_idem. Qed.

End IntegerFurther.

(** X7. [encodeInteger] is insensitive to leading zero octets: zero
    octets put in front of a non-empty byte array do not change its
    encoding.  The empty array is apart: it is encoded, without an
    exception, as [02 00], and so is the empty string. *)
Theorem encodeInteger_leading_zeros (v : Uint8Array) (k : nat) :
  v <> [] ->
  encodeInteger (Bytes (replicate k x00 ++ v)) = encodeInteger (Bytes v)
  /\ encodeInteger (Bytes []) = Ok [x02; x00]
  /\ encodeInteger (Str []) = Ok [x02; x00].
Proof.
  intros Hv. split; [|split; reflexivity].
  rewrite !encodeInteger_bytes. unfold der_content.
  now rewrite minimal_octets_replicate.
Qed.

Lemma encodeInteger_leading_zeros_witness :
  [x7f; x00] <> []
  /\ encodeInteger (Bytes (replicate 3 x00 ++ [x7f; x00]))
     = encodeInteger (Bytes [x7f; x00])
  /\ encodeInteger (Bytes []) = Ok [x02; x00]
  /\ encodeInteger (Str []) = Ok [x02; x00].
Proof.
  split; [discriminate|].
  exact (encodeInteger_leading_zeros [x7f; x00] 3 ltac:(discriminate)).
Defined.

(** X8. For every byte array [v] of fewer than [2^31 - 1] bytes,
    [decodeInteger] of [encodeInteger v] returns [v] without its redundant
    leading zero octets and reads the whole encoding; encoding the
    returned value gives the same octets again. *)
Theorem decodeInteger_encodeInteger (v : Uint8Array) :
  len v < 2 ^ 31 - 1 ->
  exists der,
    encodeInteger (Bytes v) = Ok der
    /\ decodeInteger der 0 = Ok (mkIntegerInfo (minimal_octets v) (len der))
    /\ encodeInteger (Bytes (minimal_octets v)) = Ok der.
Proof.
  intros Hv. exists (tlv x02 (der_content v)).
  split; [apply encodeInteger_bytes|].
  split; [now apply decodeInteger_encoded|].
  now rewrite encodeInteger_bytes, der_content_minimal.
Qed.

Lemma decodeInteger_encodeInteger_witness :
  len [x00; x00; x9c; x01] < 2 ^ 31 - 1
  /\ exists der,
      encodeInteger (Bytes [x00; x00; x9c; x01]) = Ok der
      /\ decodeInteger der 0
         = Ok (mkIntegerInfo (minimal_octets [x00; x00; x9c; x01]) (len der))
      /\ encodeInteger (Bytes (minimal_octets [x00; x00; x9c; x01])) = Ok der.
Proof.
  split; [reflexivity|].
  exact (decodeInteger_encodeInteger [x00; x00; x9c; x01] eq_refl).
Defined.

(** X9. Where there is no octet to read as a tag (an empty buffer, an
    offset before or after the buffer) [decodeInteger] throws a
    [TypeError], raised while it builds its message, and [decodeSequence]
    throws ['Expected SEQUENCE tag']; [decodeSignature] and [derToRaw]
    throw on empty input. *)
Theorem decode_no_tag (data : Uint8Array) (offset : Z) :
  offset < 0 \/ len data <= offset ->
  decodeInteger data offset = Throw TypeError
  /\ (forall fuel,
        decodeSequence fuel data offset = Throw (Error "Expected SEQUENCE tag"))
  /\ (forall fuel,
        decodeSignature fuel [] = Throw (Error "Expected SEQUENCE tag"))
  /\ (forall fuel, derToRaw fuel [] = Throw (Error "Expected SEQUENCE tag")).
Proof.
  intros H. pose proof (index_outside data offset H) as Hi.
  split; [|split; [|split]].
  - unfold decodeInteger. now rewrite Hi.
  - intros fuel. apply decodeSequence_wrong_tag. rewrite Hi. discriminate.
  - intros fuel. unfold decodeSignature.
    rewrite decodeSequence_wrong_tag by discriminate. reflexivity.
  - intros fuel. unfold derToRaw, decodeSignature.
    rewrite decodeSequence_wrong_tag by discriminate. reflexivity.
Qed.

Lemma decode_no_tag_witness :
  (2 < 0 \/ len [x02; x00] <= 2)
  /\ decodeInteger [x02; x00] 2 = Throw TypeError
  /\ (forall fuel,
        decodeSequence fuel [x02; x00] 2 = Throw (Error "Expected SEQUENCE tag"))
  /\ (forall fuel,
        decodeSignature fuel [] = Throw (Error "Expected SEQUENCE tag"))
  /\ (forall fuel, derToRaw fuel [] = Throw (Error "Expected SEQUENCE tag")).
Proof.
  split; [right; vm_compute; discriminate|].
  refine (decode_no_tag [x02; x00] 2 _). right. vm_compute. discriminate.
Defined.

(** X10. An element cut short is reported: when the length octets
    announce [n] content octets, [n < 2^31], and the buffer ends before
    them, [decodeInteger] throws ['Integer value out of bounds'] and
    [decodeSequence] throws ['Sequence content out of bounds']; when the
    buffer ends right after the tag, both throw ['Offset out of bounds']. *)
Theorem decode_truncated_element (pre partial : Uint8Array) (n : Z) :
  len partial < n < 2 ^ 31 ->
  decodeInteger (pre ++ x02 :: encodeLength n ++ partial) (len pre)
  = Throw (Error "Integer value out of bounds")
  /\ (forall fuel,
        decodeSequence fuel (pre ++ x30 :: encodeLength n ++ partial) (len pre)
        = Throw (Error "Sequence content out of bounds"))
  /\ decodeInteger (pre ++ [x02]) (len pre) = Throw (Error "Offset out of bounds")
  /\ (forall fuel,
        decodeSequence fuel (pre ++ [x30]) (len pre)
        = Throw (Error "Offset out of bounds")).
Proof.
  intros Hn. pose proof (len_nonneg partial). pose proof (len_nonneg pre).
  assert (Hl : forall tag,
             decodeLength (pre ++ tag :: encodeLength n ++ partial) (len pre + 1)
             = Ok (mkLengthInfo n (len (encodeLength n)))).
  { intros tag.
    replace (pre ++ tag :: encodeLength n ++ partial)
      with ((pre ++ [tag]) ++ encodeLength n ++ partial) by list_assoc.
    replace (len pre + 1) with (len (pre ++ [tag])) by len_lia.
    apply decodeLength_encodeLength. lia. }
  assert (Hs : forall tag,
             decodeLength (pre ++ [tag]) (len pre + 1)
             = Throw (Error "Offset out of bounds")).
  { intros tag. unfold decodeLength.
    destruct (Z.geb_spec (len pre + 1) (len (pre ++ [tag]))); [reflexivity|len_lia]. }
  split; [|split; [|split]].
  - apply decodeInteger_out_of_bounds with (li := mkLengthInfo n (len (encodeLength n))).
    + apply (index_app pre _ x02).
    + apply Hl.
    + cbn [dl_length dl_bytesRead]. len_lia.
  - intros fuel.
    apply decodeSequence_out_of_bounds with (li := mkLengthInfo n (len (encodeLength n))).
    + apply (index_app pre _ x30).
    + apply Hl.
    + cbn [dl_length dl_bytesRead]. len_lia.
  - unfold decodeInteger.
    assert (Hi : index (pre ++ [x02]) (len pre) = Some ASN1Tag_INTEGER)
      by apply (index_app pre [] x02).
    rewrite Hi. change (negb (ASN1Tag_INTEGER =? ASN1Tag_INTEGER)) with false.
    cbv iota. now rewrite Hs.
  - intros fuel. unfold decodeSequence.
    assert (Hi : index (pre ++ [x30]) (len pre) = Some ASN1Tag_SEQUENCE)
      by apply (index_app pre [] x30).
    rewrite Hi, bool_decide_true by reflexivity. cbn [negb]. now rewrite Hs.
Qed.

Lemma decode_truncated_element_witness :
  len [x01; x02] < 200 < 2 ^ 31
  /\ decodeInteger ([xaa] ++ x02 :: encodeLength 200 ++ [x01; x02]) (len [xaa])
     = Throw (Error "Integer value out of bounds")
  /\ (forall fuel,
        decodeSequence fuel ([xaa] ++ x30 :: encodeLength 200 ++ [x01; x02])
          (len [xaa])
        = Throw (Error "Sequence content out of bounds"))
  /\ decodeInteger ([xaa] ++ [x02]) (len [xaa])
     = Throw (Error "Offset out of bounds")
  /\ (forall fuel,
        decodeSequence fuel ([xaa] ++ [x30]) (len [xaa])
        = Throw (Error "Offset out of bounds")).
Proof.
  split; [vm_compute; split; reflexivity|].
  refine (decode_truncated_element [xaa] [x01; x02] 200 _).
  vm_compute. split; reflexivity.
Defined.

(** ** SEQUENCE, further *)

Section SequenceFurther.

Lemma subarray_clamped (a : Uint8Array) (b e : Z) :
  0 <= b <= len a -> len a <= e -> subarray a b e = drop (Z.to_nat b) a.
Proof.
  intros Hb He. pose proof (len_nonneg a). unfold subarray.
  destruct (Z.ltb_spec b 0); [lia|].
  destruct (Z.ltb_spec e 0); [exfalso; lia|].
  rewrite (Z.min_l b), (Z.min_r e), Z.max_l by lia.
  apply take_ge. rewrite length_drop. unfold len in *. lia.
Qed.

Lemma decodeLength_not_OutOfFuel (data : Uint8Array) (offset : Z) :
  decodeLength data offset <> OutOfFuel.
Proof.
  unfold decodeLength.
  destruct (offset >=? len data); [discriminate|].
  destruct (match index data offset with Some b => b <? 128 | None => false end);
    [discriminate|].
  destruct (_ || _); [discriminate|].
  destruct (_ >? _); discriminate.
Qed.

Lemma decodeLength_Ok_range (data : Uint8Array) (offset : Z) (li : LengthInfo) :
  decodeLength data offset = Ok li ->
  0 <= offset < len data /\ 1 <= dl_bytesRead li <= 5.
Proof.
  intros H.
  destruct (Z.lt_ge_cases offset 0) as [Hneg|Hpos].
  { pose proof (len_nonneg data). unfold decodeLength in H.
    destruct (Z.geb_spec offset (len data)); [discriminate|].
    rewrite index_outside in H by lia. discriminate. }
  destruct (Z.lt_ge_cases offset (len data)) as [Hin|Hout].
  2:{ unfold decodeLength in H.
      destruct (Z.geb_spec offset (len data)); [discriminate|lia]. }
  split; [lia|].
  destruct (index_inside data offset) as (b & Hb & _); [lia|].
  rewrite (decodeLength_at _ _ _ Hb) in H.
  destruct (Z.ltb_spec (b2z b) 128).
  { injection H as <-. cbn [dl_bytesRead]. lia. }
  cbn zeta in H.
  destruct (Z.eqb_spec (b2z b - 128) 0); [discriminate|].
  destruct (Z.gtb_spec (b2z b - 128) 4); [discriminate|]. cbn [orb] in H.
  destruct (_ >? _); [discriminate|].
  injection H as <-. cbn [dl_bytesRead]. pose proof (b2z_range b). lia.
Qed.

Lemma lengths_nonneg_spec (data : Uint8Array) (p : Z) (li : LengthInfo) :
  lengths_nonneg data = true -> decodeLength data p = Ok li -> 0 <= dl_length li.
Proof.
  intros Hn Hl. destruct (decodeLength_Ok_range _ _ _ Hl) as [Hp _].
  unfold lengths_nonneg in Hn. rewrite forallb_forall in Hn.
  specialize (Hn (Z.to_nat p)). rewrite Z2Nat.id, Hl in Hn by lia.
  apply Z.leb_le. apply Hn. apply in_seq. unfold len in Hp. lia.
Qed.

Lemma decodeSequence_loop_terminates (fuel : nat) (data : Uint8Array)
  (contentEnd pos : Z) (elements : list Uint8Array) :
  lengths_nonneg data = true ->
  (Z.to_nat (contentEnd - pos) <= fuel)%nat ->
  decodeSequence_loop fuel data contentEnd pos elements <> OutOfFuel.
Proof.
  intros Hn. revert pos elements.
  induction fuel as [|fuel IH]; intros pos elements Hf.
  - rewrite decodeSequence_loop_done by lia. discriminate.
  - cbn [decodeSequence_loop].
    destruct (Z.ltb_spec pos contentEnd); [|discriminate].
    destruct (decodeLength data (pos + 1)) as [li| |] eqn:Hl; cbn [bind].
    + pose proof (lengths_nonneg_spec _ _ _ Hn Hl).
      destruct (decodeLength_Ok_range _ _ _ Hl) as [_ Hb].
      apply IH. lia.
    + discriminate.
    + now apply decodeLength_not_OutOfFuel in Hl.
Qed.

Lemma decodeInteger_not_OutOfFuel (data : Uint8Array) (offset : Z) :
  decodeInteger data offset <> OutOfFuel.
Proof.
  unfold decodeInteger. destruct (index data offset); [|discriminate].
  destruct (negb _); [discriminate|].
  destruct (decodeLength data (offset + 1)) eqn:Hl; cbn [bind].
  - destruct (_ >? _); discriminate.
  - discriminate.
  - now apply decodeLength_not_OutOfFuel in Hl.
Qed.

Lemma decodeSequence_loop_stuck (fuel : nat) (data : Uint8Array)
  (contentEnd pos : Z) (li : LengthInfo) (elements : list Uint8Array) :
  pos < contentEnd ->
  decodeLength data (pos + 1) = Ok li ->
  1 + dl_bytesRead li + dl_length li = 0 ->
  decodeSequence_loop fuel data contentEnd pos elements = OutOfFuel.
Proof.
  intros Hp Hl Hz. revert elements.
  induction fuel as [|fuel IH]; intros elements; cbn [decodeSequence_loop];
    destruct (Z.ltb_spec pos contentEnd); try lia; [reflexivity|].
  rewrite Hl. cbn [bind]. rewrite Hz, Z.add_0_r. apply IH.
Qed.

End SequenceFurther.

(** X11. [encodeSequence] never throws: for every list of elements it
    returns the tag [30], the length octets of the total size of the
    elements, and the elements one after the other; for no element this
    is [30 00]. *)
Theorem encodeSequence_layout (elements : list Uint8Array) :
  encodeSequence elements
  = Ok (x30 :: encodeLength (len (concat elements)) ++ concat elements)
  /\ encodeSequence [] = Ok [x30; x00].
Proof. split; [apply encodeSequence_spec|reflexivity]. Qed.

(** X12. [decodeSequence] of [encodeSequence] returns the elements: for
    every list of elements, each a tag followed by DER length octets and
    that many content octets, of fewer than [2^31] octets in all, the
    decoded list is the list that was encoded and [bytesRead] is the size
    of the encoding (given fuel for one round per element). *)
Theorem decodeSequence_encodeSequence
  (items : list (byte * Uint8Array)) (fuel : nat) :
  Forall (fun it => len (snd it) < 2 ^ 31) items ->
  len (concat (map (fun it => tlv (fst it) (snd it)) items)) < 2 ^ 31 ->
  (length items <= fuel)%nat ->
  exists der,
    encodeSequence (map (fun it => tlv (fst it) (snd it)) items) = Ok der
    /\ decodeSequence fuel der 0
       = Ok (mkSequenceInfo (map (fun it => tlv (fst it) (snd it)) items)
               (len der)).
Proof.
  intros Hall Hlen Hfuel. eexists. split; [apply encodeSequence_spec|].
  now apply decodeSequence_tlvs.
Qed.

Lemma decodeSequence_encodeSequence_witness :
  Forall (fun it => len (snd it) < 2 ^ 31)
    [(x02, [x05]); (x04, [xaa; xbb]); (x05, [])]
  /\ len (concat (map (fun it => tlv (fst it) (snd it))
                    [(x02, [x05]); (x04, [xaa; xbb]); (x05, [])])) < 2 ^ 31
  /\ (length [(x02, [x05]); (x04, [xaa; xbb]); (x05, [])] <= 3)%nat
  /\ exists der,
      encodeSequence (map (fun it => tlv (fst it) (snd it))
                        [(x02, [x05]); (x04, [xaa; xbb]); (x05, [])]) = Ok der
      /\ decodeSequence 3 der 0
         = Ok (mkSequenceInfo
                 (map (fun it => tlv (fst it) (snd it))
                    [(x02, [x05]); (x04, [xaa; xbb]); (x05, [])])
                 (len der)).
Proof.
  assert (H : Forall (fun it : byte * Uint8Array => len (snd it) < 2 ^ 31)
                [(x02, [x05]); (x04, [xaa; xbb]); (x05, [])])
    by (repeat constructor).
  split; [exact H|]. split; [reflexivity|]. split; [simpl; lia|].
  exact (decodeSequence_encodeSequence
           [(x02, [x05]); (x04, [xaa; xbb]); (x05, [])] 3 H eq_refl
           ltac:(simpl; lia)).
Defined.

(** X13. [decodeSequence] cuts its elements by their own length octets
    only: when the length of the SEQUENCE covers the header of an element
    and just [m] of its content octets, the element is returned whole, with
    content octets that lie after the end that the SEQUENCE declares. *)
Theorem decodeSequence_element_overrun
  (tag : byte) (content post : Uint8Array) (m : Z) (fuel : nat) :
  0 <= m < len content -> len content < 2 ^ 31 - 6 -> (1 <= fuel)%nat ->
  decodeSequence fuel
    (x30 :: encodeLength (1 + len (encodeLength (len content)) + m)
         ++ tlv tag content ++ post) 0
  = Ok (mkSequenceInfo [tlv tag content]
          (1 + len (encodeLength (1 + len (encodeLength (len content)) + m))
           + (1 + len (encodeLength (len content)) + m)))
  /\ 1 + len (encodeLength (len content)) + m < len (tlv tag content).
Proof.
  intros Hm Hc Hfuel.
  pose proof (len_encodeLength (len content) ltac:(lia)) as Hlc.
  pose proof (len_tlv tag content) as Ht.
  split; [|lia].
  set (n := 1 + len (encodeLength (len content)) + m) in *.
  set (lb := encodeLength n).
  pose proof (len_nonneg lb). pose proof (len_nonneg post).
  set (data := x30 :: lb ++ tlv tag content ++ post).
  assert (Hlen : len data = 1 + len lb + len (tlv tag content) + len post)
    by (unfold data; len_lia).
  unfold decodeSequence.
  assert (Htag : index data 0 = Some ASN1Tag_SEQUENCE) by reflexivity.
  rewrite Htag, bool_decide_true by reflexivity. cbn [negb].
  assert (Hl : decodeLength data (0 + 1) = Ok (mkLengthInfo n (len lb))).
  { change data with ([x30] ++ lb ++ (tlv tag content ++ post)).
    change (0 + 1) with (len [x30]). apply decodeLength_encodeLength. lia. }
  rewrite Hl. cbn [bind dl_length dl_bytesRead].
  destruct (Z.gtb_spec (0 + 1 + len lb + n) (len data)); [lia|].
  destruct fuel as [|fuel]; [lia|]. cbn [decodeSequence_loop].
  destruct (Z.ltb_spec (0 + 1 + len lb) (0 + 1 + len lb + n)); [|lia].
  assert (Hl2 : decodeLength data (0 + 1 + len lb + 1)
                = Ok (mkLengthInfo (len content) (len (encodeLength (len content))))).
  { replace data
      with (([x30] ++ lb ++ [tag]) ++ encodeLength (len content)
            ++ (content ++ post)) by (unfold data; list_assoc).
    replace (0 + 1 + len lb + 1) with (len ([x30] ++ lb ++ [tag])) by len_lia.
    apply decodeLength_encodeLength. pose proof (len_nonneg content). lia. }
  rewrite Hl2. cbn [bind dl_length dl_bytesRead]. rewrite <- Ht.
  assert (Hs : subarray data (0 + 1 + len lb)
                 (0 + 1 + len lb + len (tlv tag content)) = tlv tag content).
  { replace data with (([x30] ++ lb) ++ tlv tag content ++ post)
      by (unfold data; list_assoc).
    replace (0 + 1 + len lb) with (len ([x30] ++ lb)) by len_lia.
    apply subarray_app. }
  rewrite Hs, decodeSequence_loop_done by lia. reflexivity.
Qed.

Lemma decodeSequence_element_overrun_witness :
  0 <= 1 < len [x11; x22; x33] /\ len [x11; x22; x33] < 2 ^ 31 - 6
  /\ (1 <= 1)%nat
  /\ decodeSequence 1
       (x30 :: encodeLength (1 + len (encodeLength (len [x11; x22; x33])) + 1)
            ++ tlv x02 [x11; x22; x33] ++ [xee]) 0
     = Ok (mkSequenceInfo [tlv x02 [x11; x22; x33]]
             (1 + len (encodeLength
                         (1 + len (encodeLength (len [x11; x22; x33])) + 1))
              + (1 + len (encodeLength (len [x11; x22; x33])) + 1)))
  /\ 1 + len (encodeLength (len [x11; x22; x33])) + 1
     < len (tlv x02 [x11; x22; x33]).
Proof.
  assert (H1 : 0 <= 1 < len [x11; x22; x33]) by (vm_compute; split; [discriminate|reflexivity]).
  split; [exact H1|]. split; [reflexivity|]. split; [lia|].
  exact (decodeSequence_element_overrun x02 [x11; x22; x33] [xee] 1 1
           H1 eq_refl ltac:(lia)).
Defined.

(** X14. [decodeSequence] does not throw when its last element is cut
    short by the end of the buffer: [subarray] clamps, and the element is
    returned with the content octets that are there. *)
Theorem decodeSequence_clamped_element
  (tag : byte) (partial : Uint8Array) (c : Z) (fuel : nat) :
  len partial < c < 2 ^ 31 -> len partial < 2 ^ 31 - 6 -> (1 <= fuel)%nat ->
  decodeSequence fuel
    (x30 :: encodeLength (1 + len (encodeLength c) + len partial)
         ++ tag :: encodeLength c ++ partial) 0
  = Ok (mkSequenceInfo [tag :: encodeLength c ++ partial]
          (1 + len (encodeLength (1 + len (encodeLength c) + len partial))
           + (1 + len (encodeLength c) + len partial))).
Proof.
  intros Hc Hp Hfuel. pose proof (len_nonneg partial).
  pose proof (len_encodeLength c ltac:(lia)) as Hlc.
  set (n := 1 + len (encodeLength c) + len partial) in *.
  set (lb := encodeLength n). pose proof (len_nonneg lb).
  set (elem := tag :: encodeLength c ++ partial).
  assert (He : len elem = n) by (unfold elem, n; len_lia).
  set (data := x30 :: lb ++ elem).
  assert (Hlen : len data = 1 + len lb + n) by (unfold data; len_lia).
  unfold decodeSequence.
  assert (Htag : index data 0 = Some ASN1Tag_SEQUENCE) by reflexivity.
  rewrite Htag, bool_decide_true by reflexivity. cbn [negb].
  assert (Hl : decodeLength data (0 + 1) = Ok (mkLengthInfo n (len lb))).
  { change data with ([x30] ++ lb ++ elem).
    change (0 + 1) with (len [x30]). apply decodeLength_encodeLength. lia. }
  rewrite Hl. cbn [bind dl_length dl_bytesRead].
  destruct (Z.gtb_spec (0 + 1 + len lb + n) (len data)); [lia|].
  destruct fuel as [|fuel]; [lia|]. cbn [decodeSequence_loop].
  destruct (Z.ltb_spec (0 + 1 + len lb) (0 + 1 + len lb + n)); [|lia].
  assert (Hl2 : decodeLength data (0 + 1 + len lb + 1)
                = Ok (mkLengthInfo c (len (encodeLength c)))).
  { replace data with (([x30] ++ lb ++ [tag]) ++ encodeLength c ++ partial)
      by (unfold data, elem; list_assoc).
    replace (0 + 1 + len lb + 1) with (len ([x30] ++ lb ++ [tag])) by len_lia.
    apply decodeLength_encodeLength. lia. }
  rewrite Hl2. cbn [bind dl_length dl_bytesRead].
  assert (Hs : subarray data (0 + 1 + len lb)
                 (0 + 1 + len lb + (1 + len (encodeLength c) + c)) = elem).
  { rewrite subarray_clamped by lia.
    replace (Z.to_nat (0 + 1 + len lb)) with (length ([x30] ++ lb)) by len_lia.
    change data with (([x30] ++ lb) ++ elem). apply drop_app_length. }
  rewrite Hs, decodeSequence_loop_done by lia. reflexivity.
Qed.

Lemma decodeSequence_clamped_element_witness :
  len [x11] < 5 < 2 ^ 31 /\ len [x11] < 2 ^ 31 - 6 /\ (1 <= 1)%nat
  /\ decodeSequence 1
       (x30 :: encodeLength (1 + len (encodeLength 5) + len [x11])
            ++ x02 :: encodeLength 5 ++ [x11]) 0
     = Ok (mkSequenceInfo [x02 :: encodeLength 5 ++ [x11]]
             (1 + len (encodeLength (1 + len (encodeLength 5) + len [x11]))
              + (1 + len (encodeLength 5) + len [x11]))).
Proof.
  assert (H1 : len [x11] < 5 < 2 ^ 31) by (vm_compute; split; reflexivity).
  split; [exact H1|]. split; [reflexivity|]. split; [lia|].
  exact (decodeSequence_clamped_element x02 [x11] 5 1 H1 eq_refl ltac:(lia)).
Defined.

(** X15. When no position of the buffer makes [decodeLength] return a
    negative length, the element loop ends: with one round of fuel per
    byte of the buffer, [decodeSequence], [decodeSignature] and
    [derToRaw] return or throw. *)
Theorem decodeSequence_terminates (data : Uint8Array) (offset : Z) (fuel : nat) :
  lengths_nonneg data = true -> (length data <= fuel)%nat ->
  decodeSequence fuel data offset <> OutOfFuel
  /\ decodeSignature fuel data <> OutOfFuel
  /\ derToRaw fuel data <> OutOfFuel.
Proof.
  intros Hn Hfuel.
  assert (G : forall off, decodeSequence fuel data off <> OutOfFuel).
  { intros off. unfold decodeSequence. destruct (negb _); [discriminate|].
    destruct (decodeLength data (off + 1)) as [li| |] eqn:Hl; cbn [bind].
    - destruct (Z.gtb_spec (off + 1 + dl_bytesRead li + dl_length li) (len data));
        [discriminate|].
      destruct (decodeLength_Ok_range _ _ _ Hl) as [Ho Hb].
      pose proof (decodeSequence_loop_terminates fuel data
                    (off + 1 + dl_bytesRead li + dl_length li)
                    (off + 1 + dl_bytesRead li) [] Hn) as Ht.
      destruct (decodeSequence_loop _ _ _ _ _); cbn [bind]; try discriminate.
      exfalso. apply Ht; [|reflexivity]. unfold len in *. lia.
    - discriminate.
    - now apply decodeLength_not_OutOfFuel in Hl. }
  assert (G2 : decodeSignature fuel data <> OutOfFuel).
  { unfold decodeSignature. specialize (G 0).
    destruct (decodeSequence fuel data 0) as [sq| |]; cbn [bind];
      [|discriminate|congruence].
    destruct (ds_elements sq) as [|e0 [|e1 [|e2 rest]]]; try discriminate.
    pose proof (decodeInteger_not_OutOfFuel e0 0).
    pose proof (decodeInteger_not_OutOfFuel e1 0).
    destruct (decodeInteger e0 0); cbn [bind]; try discriminate; try congruence.
    destruct (decodeInteger e1 0); cbn [bind]; try discriminate; congruence. }
  split; [apply G|]. split; [exact G2|].
  unfold derToRaw. destruct (decodeSignature fuel data); cbn [bind];
    try discriminate; congruence.
Qed.

Lemma decodeSequence_terminates_witness :
  lengths_nonneg [x30; x06; x02; x01; x84; x02; x01; xff] = true
  /\ (length [x30; x06; x02; x01; x84; x02; x01; xff] <= 8)%nat
  /\ decodeSequence 8 [x30; x06; x02; x01; x84; x02; x01; xff] 0 <> OutOfFuel
  /\ decodeSignature 8 [x30; x06; x02; x01; x84; x02; x01; xff] <> OutOfFuel
  /\ derToRaw 8 [x30; x06; x02; x01; x84; x02; x01; xff] <> OutOfFuel.
Proof.
  split; [reflexivity|]. split; [simpl; lia|].
  exact (decodeSequence_terminates [x30; x06; x02; x01; x84; x02; x01; xff] 0 8
           eq_refl ltac:(simpl; lia)).
Defined.

(** X16. The element loop never ends on an element whose size, as
    [decodeLength] gives it, is zero (four length octets that write
    [2^32 - 6], read as [-6]): [pos] does not move, and [decodeSequence]
    neither returns nor throws, whatever the fuel. *)
Theorem decodeSequence_zero_size_element
  (data : Uint8Array) (offset : Z) (hdr li : LengthInfo) :
  index data offset = Some ASN1Tag_SEQUENCE ->
  decodeLength data (offset + 1) = Ok hdr ->
  0 < dl_length hdr ->
  offset + 1 + dl_bytesRead hdr + dl_length hdr <= len data ->
  decodeLength data (offset + 1 + dl_bytesRead hdr + 1) = Ok li ->
  1 + dl_bytesRead li + dl_length li = 0 ->
  forall fuel, decodeSequence fuel data offset = OutOfFuel.
Proof.
  intros Ht Hh Hpos Hin Hl Hz fuel. unfold decodeSequence.
  rewrite Ht, bool_decide_true by reflexivity. cbn [negb].
  rewrite Hh. cbn [bind].
  destruct (Z.gtb_spec (offset + 1 + dl_bytesRead hdr + dl_length hdr) (len data));
    [lia|].
  rewrite (decodeSequence_loop_stuck fuel data _ _ li) by (trivial; lia).
  reflexivity.
Qed.

Lemma decodeSequence_zero_size_element_witness :
  index [x30; x06; x02; x84; xff; xff; xff; xfa] 0 = Some ASN1Tag_SEQUENCE
  /\ decodeLength [x30; x06; x02; x84; xff; xff; xff; xfa] (0 + 1)
     = Ok (mkLengthInfo 6 1)
  /\ 0 < dl_length (mkLengthInfo 6 1)
  /\ 0 + 1 + dl_bytesRead (mkLengthInfo 6 1) + dl_length (mkLengthInfo 6 1)
     <= len [x30; x06; x02; x84; xff; xff; xff; xfa]
  /\ decodeLength [x30; x06; x02; x84; xff; xff; xff; xfa]
       (0 + 1 + dl_bytesRead (mkLengthInfo 6 1) + 1)
     = Ok (mkLengthInfo (-6) 5)
  /\ 1 + dl_bytesRead (mkLengthInfo (-6) 5) + dl_length (mkLengthInfo (-6) 5) = 0
  /\ forall fuel,
      decodeSequence fuel [x30; x06; x02; x84; xff; xff; xff; xfa] 0 = OutOfFuel.
Proof.
  split; [reflexivity|]. split; [vm_compute; reflexivity|].
  split; [reflexivity|]. split; [vm_compute; discriminate|].
  split; [vm_compute; reflexivity|]. split; [reflexivity|].
  refine (decodeSequence_zero_size_element
            [x30; x06; x02; x84; xff; xff; xff; xfa] 0
            (mkLengthInfo 6 1) (mkLengthInfo (-6) 5) eq_refl _ eq_refl _ _ eq_refl).
  - vm_compute. reflexivity.
  - vm_compute. discriminate.
  - vm_compute. reflexivity.
Defined.

(** ** Signatures, further *)

Section SignaturesFurther.

Lemma len_padStart (s : jsstring) (n : nat) (c : N) :
  length (padStart s n c) = Nat.max n (length s).
Proof. unfold padStart. rewrite length_app, length_replicate. lia. Qed.

Lemma der_signature_minimal (rb sb : Uint8Array) :
  der_signature (minimal_octets rb) (minimal_octets sb) = der_signature rb sb.
Proof. unfold der_signature. now rewrite !der_content_minimal. Qed.

Lemma der_content_zeros (k : nat) (v : Uint8Array) :
  v <> [] -> der_content (replicate k x00 ++ minimal_octets v) = der_content v.
Proof.
  intros Hv. unfold der_content.
  rewrite minimal_octets_replicate by now apply minimal_octets_nonempty.
  now rewrite minimal_octets_idem.
Qed.

(** [derToRaw] on the DER form of two byte strings of moderate size. *)
Lemma derToRaw_der_signature (rb sb : Uint8Array) (fuel : nat) :
  len (minimal_octets rb) + len (minimal_octets sb) < 2 ^ 31 - 14 ->
  (2 <= fuel)%nat ->
  derToRaw fuel (der_signature rb sb)
  = Ok (padStart (Hex.encode (minimal_octets rb)) 64 48%N
        ++ padStart (Hex.encode (minimal_octets sb)) 64 48%N).
Proof.
  intros Hsize Hfuel. unfold derToRaw.
  rewrite <- der_signature_minimal.
  rewrite decodeSignature_der_signature by assumption.
  cbn [bind sig_r sig_s]. now rewrite !minimal_octets_idem.
Qed.

Lemma padStart_short (m : Uint8Array) :
  (length m <= 32)%nat ->
  padStart (Hex.encode m) 64 48%N
  = Hex.encode (replicate (32 - length m) x00 ++ m)
  /\ length (replicate (32 - length m) x00 ++ m) = 32%nat.
Proof.
  intros H. split.
  - unfold padStart. rewrite encode_app, encode_zeros, length_encode.
    f_equal. f_equal. lia.
  - rewrite length_app, length_replicate. lia.
Qed.

Lemma len_tlv_short (tag : byte) (content : Uint8Array) :
  len content < 128 -> len (tlv tag content) = 2 + len content.
Proof.
  intros H. rewrite len_tlv, encodeLength_short by lia. len_lia.
Qed.

Lemma len_der_content_32 (v : Uint8Array) :
  length v = 32%nat -> 1 <= len (der_content v) <= 33.
Proof.
  intros Hv. pose proof (len_der_content v) as H.
  assert (Hne : minimal_octets v <> []).
  { apply minimal_octets_nonempty. intros ->. discriminate. }
  assert (1 <= len (minimal_octets v)).
  { destruct (minimal_octets v); [contradiction|len_lia]. }
  unfold len in *. lia.
Qed.

End SignaturesFurther.

(** X17. [decodeSignature] demands two elements: on the SEQUENCE of any
    other number of well-formed elements it throws ['Invalid signature:
    expected 2 elements (r, s)']. *)
Theorem decodeSignature_element_count
  (items : list (byte * Uint8Array)) (fuel : nat) :
  Forall (fun it => len (snd it) < 2 ^ 31) items ->
  len (concat (map (fun it => tlv (fst it) (snd it)) items)) < 2 ^ 31 ->
  (length items <= fuel)%nat ->
  length items <> 2%nat ->
  decodeSignature fuel
    (tlv x30 (concat (map (fun it => tlv (fst it) (snd it)) items)))
  = Throw (Error "Invalid signature: expected 2 elements (r, s)").
Proof.
  intros Hall Hlen Hfuel Hn. unfold decodeSignature.
  rewrite (decodeSequence_tlvs items fuel Hall Hfuel Hlen).
  cbn [bind ds_elements].
  destruct items as [|a [|b [|c rest]]]; try reflexivity.
  now contradiction Hn.
Qed.

Lemma decodeSignature_element_count_witness :
  Forall (fun it => len (snd it) < 2 ^ 31) [(x02, [x01])]
  /\ len (concat (map (fun it => tlv (fst it) (snd it)) [(x02, [x01])])) < 2 ^ 31
  /\ (length [(x02, [x01])] <= 1)%nat
  /\ length [(x02, [x01])] <> 2%nat
  /\ decodeSignature 1
       (tlv x30 (concat (map (fun it => tlv (fst it) (snd it)) [(x02, [x01])])))
     = Throw (Error "Invalid signature: expected 2 elements (r, s)").
Proof.
  assert (H : Forall (fun it : byte * Uint8Array => len (snd it) < 2 ^ 31)
                [(x02, [x01])]) by (repeat constructor).
  split; [exact H|]. split; [reflexivity|]. split; [simpl; lia|].
  split; [discriminate|].
  exact (decodeSignature_element_count [(x02, [x01])] 1 H eq_refl
           ltac:(simpl; lia) ltac:(discriminate)).
Defined.

(** X18. [decodeSequence] takes elements of any tag, and [decodeSignature]
    then refuses them: on a SEQUENCE of two well-formed elements one of
    which does not carry the INTEGER tag [02] it throws. *)
Theorem decodeSignature_element_tag
  (t1 t2 : byte) (c1 c2 : Uint8Array) (fuel : nat) :
  t1 <> x02 \/ t2 <> x02 ->
  len c1 < 2 ^ 31 -> len c2 < 2 ^ 31 ->
  len (tlv t1 c1 ++ tlv t2 c2) < 2 ^ 31 ->
  (2 <= fuel)%nat ->
  decodeSequence fuel (tlv x30 (tlv t1 c1 ++ tlv t2 c2)) 0
  = Ok (mkSequenceInfo [tlv t1 c1; tlv t2 c2]
          (len (tlv x30 (tlv t1 c1 ++ tlv t2 c2))))
  /\ throws (decodeSignature fuel (tlv x30 (tlv t1 c1 ++ tlv t2 c2))).
Proof.
  intros Ht H1 H2 Hlen Hfuel.
  pose proof (decodeSequence_tlvs [(t1, c1); (t2, c2)] fuel) as Hs.
  cbn [map concat fst snd length] in Hs. rewrite app_nil_r in Hs.
  assert (Hseq : decodeSequence fuel (tlv x30 (tlv t1 c1 ++ tlv t2 c2)) 0
                 = Ok (mkSequenceInfo [tlv t1 c1; tlv t2 c2]
                         (len (tlv x30 (tlv t1 c1 ++ tlv t2 c2))))).
  { apply Hs; [repeat constructor; assumption|exact Hfuel|exact Hlen]. }
  split; [exact Hseq|].
  unfold decodeSignature. rewrite Hseq. cbn [bind ds_elements].
  assert (W : forall t c, t <> x02 -> throws (decodeInteger (tlv t c) 0)).
  { intros t c Hne. apply decodeInteger_wrong_tag. unfold tlv.
    rewrite index_head. intros E. injection E as E.
    apply Hne. now apply b2z_inj. }
  destruct (Byte.byte_eq_dec t1 x02) as [->|Hne1].
  - pose proof (decodeInteger_tlv [] c1 [] H1) as Hd.
    rewrite app_nil_r in Hd. cbn [app] in Hd. change (len []) with 0 in Hd.
    rewrite Hd. cbn [bind].
    destruct Ht as [Ht|Ht]; [contradiction|].
    destruct (W t2 c2 Ht) as [e He]. rewrite He. cbn [bind]. now exists e.
  - destruct (W t1 c1 Hne1) as [e He]. rewrite He. cbn [bind]. now exists e.
Qed.

Lemma decodeSignature_element_tag_witness :
  (x02 <> x02 \/ x04 <> x02)
  /\ len [x01] < 2 ^ 31 /\ len [x02] < 2 ^ 31
  /\ len (tlv x02 [x01] ++ tlv x04 [x02]) < 2 ^ 31
  /\ (2 <= 2)%nat
  /\ decodeSequence 2 (tlv x30 (tlv x02 [x01] ++ tlv x04 [x02])) 0
     = Ok (mkSequenceInfo [tlv x02 [x01]; tlv x04 [x02]]
             (len (tlv x30 (tlv x02 [x01] ++ tlv x04 [x02]))))
  /\ throws (decodeSignature 2 (tlv x30 (tlv x02 [x01] ++ tlv x04 [x02]))).
Proof.
  assert (H : x02 <> x02 \/ x04 <> x02) by (right; discriminate).
  split; [exact H|]. split; [reflexivity|]. split; [reflexivity|].
  split; [reflexivity|]. split; [lia|].
  exact (decodeSignature_element_tag x02 x04 [x01] [x02] 2 H eq_refl eq_refl
           eq_refl ltac:(lia)).
Defined.

(** X19. DER to raw and back: for two non-empty byte arrays whose
    significant octets number at most 32 each, [derToRaw] of their
    [encodeSignature] is a string of 128 characters, and [rawToDer] of this
    string is the DER signature again. *)
Theorem rawToDer_derToRaw (rb sb : Uint8Array) (fuel : nat) :
  rb <> [] -> sb <> [] ->
  (length (minimal_octets rb) <= 32)%nat ->
  (length (minimal_octets sb) <= 32)%nat ->
  (2 <= fuel)%nat ->
  exists der raw,
    encodeSignature (Bytes rb) (Bytes sb) = Ok der
    /\ derToRaw fuel der = Ok raw
    /\ length raw = 128%nat
    /\ rawToDer (Str raw) = Ok der.
Proof.
  intros Hr Hs Lr Ls Hfuel.
  destruct (padStart_short _ Lr) as [Pr Zr].
  destruct (padStart_short _ Ls) as [Ps Zs].
  set (zr := replicate (32 - length (minimal_octets rb)) x00 ++ minimal_octets rb) in *.
  set (zs := replicate (32 - length (minimal_octets sb)) x00 ++ minimal_octets sb) in *.
  exists (der_signature rb sb), (Hex.encode (zr ++ zs)).
  split; [now apply (encodeSignature_spec (Bytes rb) (Bytes sb))|].
  split.
  { rewrite derToRaw_der_signature by (trivial; unfold len; lia).
    now rewrite Pr, Ps, encode_app. }
  assert (Hl : length (Hex.encode (zr ++ zs)) = 128%nat).
  { rewrite length_encode, length_app, Zr, Zs. reflexivity. }
  split; [exact Hl|].
  unfold rawToDer, len. rewrite Hl.
  change (negb (Z.of_nat 128 =? 128)) with false. cbv iota.
  rewrite decode_encode. cbn [bind].
  assert (E1 : subarray (zr ++ zs) 0 32 = zr).
  { rewrite subarray_inside by (rewrite ?len_app; unfold len; lia).
    change (Z.to_nat 0) with 0%nat. change (Z.to_nat (32 - 0)) with 32%nat.
    rewrite drop_0, <- Zr. apply take_app_length. }
  assert (E2 : subarray (zr ++ zs) 32 64 = zs).
  { rewrite subarray_inside by (rewrite ?len_app; unfold len; lia).
    change (Z.to_nat 32) with 32%nat. change (Z.to_nat (64 - 32)) with 32%nat.
    rewrite <- Zr at 2. rewrite drop_app_length. apply take_ge. lia. }
  rewrite E1, E2, (encodeSignature_spec (Bytes zr) (Bytes zs)) by exact I.
  cbn [component_bytes]. unfold der_signature, zr, zs.
  now rewrite !der_content_zeros.
Qed.

Lemma rawToDer_derToRaw_witness :
  [x00; x9a; x01] <> [] /\ [x05] <> []
  /\ (length (minimal_octets [x00; x9a; x01]) <= 32)%nat
  /\ (length (minimal_octets [x05]) <= 32)%nat
  /\ (2 <= 2)%nat
  /\ exists der raw,
      encodeSignature (Bytes [x00; x9a; x01]) (Bytes [x05]) = Ok der
      /\ derToRaw 2 der = Ok raw
      /\ length raw = 128%nat
      /\ rawToDer (Str raw) = Ok der.
Proof.
  split; [discriminate|]. split; [discriminate|].
  split; [simpl; lia|]. split; [simpl; lia|]. split; [lia|].
  exact (rawToDer_derToRaw [x00; x9a; x01] [x05] 2 ltac:(discriminate)
           ltac:(discriminate) ltac:(simpl; lia) ltac:(simpl; lia) ltac:(lia)).
Defined.

(** X20. The DER form of a raw signature of 64 bytes has between 8 and 72
    octets; it starts with the SEQUENCE tag [30], a single length octet
    that counts the octets after it, and the INTEGER tag [02]. *)
Theorem rawToDer_size (raw : Uint8Array) :
  length raw = 64%nat ->
  exists der,
    rawToDer (Bytes raw) = Ok der
    /\ 8 <= len der <= 72
    /\ der !! 0%nat = Some x30
    /\ der !! 1%nat = Some (ToUint8 (len der - 2))
    /\ der !! 2%nat = Some x02.
Proof.
  intros Hraw.
  destruct (raw_roundtrip_bytes raw 2 Hraw ltac:(lia)) as (He & _ & _ & Lr & Ls).
  exists (der_signature (take 32 raw) (drop 32 raw)).
  split.
  { unfold rawToDer, len. rewrite Hraw. exact He. }
  pose proof (len_der_content_32 _ Lr) as Cr.
  pose proof (len_der_content_32 _ Ls) as Cs.
  assert (Tr : len (tlv x02 (der_content (take 32 raw)))
               = 2 + len (der_content (take 32 raw)))
    by (apply len_tlv_short; lia).
  assert (Ts : len (tlv x02 (der_content (drop 32 raw)))
               = 2 + len (der_content (drop 32 raw)))
    by (apply len_tlv_short; lia).
  set (body := tlv x02 (der_content (take 32 raw))
               ++ tlv x02 (der_content (drop 32 raw))).
  assert (Hb : len body = 4 + len (der_content (take 32 raw))
                         + len (der_content (drop 32 raw))).
  { unfold body. rewrite len_app. lia. }
  assert (Hd : der_signature (take 32 raw) (drop 32 raw)
               = x30 :: ToUint8 (len body) :: body).
  { unfold der_signature. fold body. unfold tlv at 1.
    rewrite encodeLength_short by lia. reflexivity. }
  rewrite Hd. rewrite !len_cons.
  split; [lia|]. split; [reflexivity|]. split.
  - cbn [lookup list_lookup]. do 2 f_equal. lia.
  - reflexivity.
Qed.

Lemma rawToDer_size_witness :
  length sample_raw = 64%nat
  /\ exists der,
      rawToDer (Bytes sample_raw) = Ok der
      /\ 8 <= len der <= 72
      /\ der !! 0%nat = Some x30
      /\ der !! 1%nat = Some (ToUint8 (len der - 2))
      /\ der !! 2%nat = Some x02.
Proof.
  split; [reflexivity|]. exact (rawToDer_size sample_raw eq_refl).
Defined.

(** X21. [derToRaw] neither rejects nor shortens a component of more than
    32 significant octets: each half of its result has 64 characters or
    twice the number of significant octets of the component, whichever is
    more, so the result can be longer than 128 characters. *)
Theorem derToRaw_length (rb sb : Uint8Array) (fuel : nat) :
  len (minimal_octets rb) + len (minimal_octets sb) < 2 ^ 31 - 14 ->
  (2 <= fuel)%nat ->
  exists der raw,
    encodeSignature (Bytes rb) (Bytes sb) = Ok der
    /\ derToRaw fuel der = Ok raw
    /\ length raw
       = (Nat.max 64 (2 * length (minimal_octets rb))
          + Nat.max 64 (2 * length (minimal_octets sb)))%nat.
Proof.
  intros Hsize Hfuel. eexists. eexists.
  split; [now apply (encodeSignature_spec (Bytes rb) (Bytes sb))|].
  split; [now apply derToRaw_der_signature|].
  now rewrite length_app, !len_padStart, !length_encode.
Qed.

Lemma derToRaw_length_witness :
  len (minimal_octets (replicate 33 x7f)) + len (minimal_octets [x01])
  < 2 ^ 31 - 14
  /\ (2 <= 2)%nat
  /\ exists der raw,
      encodeSignature (Bytes (replicate 33 x7f)) (Bytes [x01]) = Ok der
      /\ derToRaw 2 der = Ok raw
      /\ length raw
         = (Nat.max 64 (2 * length (minimal_octets (replicate 33 x7f)))
            + Nat.max 64 (2 * length (minimal_octets [x01])))%nat.
Proof.
  split; [reflexivity|]. split; [lia|].
  exact (derToRaw_length (replicate 33 x7f) [x01] 2 eq_refl ltac:(lia)).
Defined.

(** ** The XML text of well-formed elements *)

Section Visualization.

Lemma element_induction (P : element -> Prop) :
  (forall tag content, P (Primitive tag content)) ->
  (forall children, Forall P children -> P (Constructed children)) ->
  forall e, P e.
Proof.
  intros Hp Hc. fix IH 1. intros [tag content|children].
  - apply Hp.
  - apply Hc. induction children as [|c cs IHcs]; constructor.
    + apply IH.
    + exact IHcs.
Qed.

Lemma der_tlv (e : element) : der e = tlv (el_tag e) (el_content e).
Proof. destruct e; reflexivity. Qed.

Lemma wellformed_content (e : element) :
  wellformed e = true -> len (el_content e) < 2 ^ 31.
Proof.
  destruct e; cbn [wellformed el_content]; intros H;
    apply andb_true_iff in H; destruct H as [_ H]; now apply Z.ltb_lt in H.
Qed.

Lemma recurse_S (fuel' : nat) (data : Uint8Array) (offset level : Z)
  (buffer : list jsstring) :
  recurse (S fuel') data offset level buffer =
  if offset >=? len data then Ok buffer
  else
    try spaces <- String_repeat (js "  ") level;
    let tag := index data offset in
    try li <- decodeLength data (offset + 1);
    let length := dl_length li in
    let lengthBytes := dl_bytesRead li in
    let contentStart := offset + 1 + lengthBytes in
    let contentEnd := contentStart + length in
    try tagName <- match tag with
                   | Some t => Ok (tagName t)
                   | None => Throw TypeError
                   end;
    let buffer := buffer ++ [spaces ++ js "<" ++ tagName ++ js ">"] in
    try buffer <-
      if bool_decide (tag = Some ASN1Tag_SEQUENCE) then
        let buffer := buffer ++ [LF] in
        try buffer <-
          element_loop (fun o b => recurse fuel' data o (level + 1) b)
            fuel' data contentEnd contentStart buffer;
        Ok (buffer ++ [spaces])
      else
        let value := subarray data contentStart contentEnd in
        let hexValue := Hex.encode value in
        if bool_decide (tag = Some ASN1Tag_NULL) then Ok buffer
        else Ok (buffer ++ [LF ++ spaces ++ js "  <value>" ++ hexValue
                            ++ js "</value>" ++ LF ++ spaces]);
    Ok (buffer ++ [js "</" ++ tagName ++ js ">" ++ LF]).
Proof. reflexivity. Qed.

Lemma element_loop_S (rec : Z -> list jsstring -> outcome (list jsstring))
  (n' : nat) (data : Uint8Array) (contentEnd subOffset : Z)
  (buffer : list jsstring) :
  subOffset < contentEnd ->
  element_loop rec (S n') data contentEnd subOffset buffer =
  try subTagLenInfo <- decodeLength data (subOffset + 1);
  try buffer <- rec subOffset buffer;
  element_loop rec n' data contentEnd
    (subOffset + 1 + dl_bytesRead subTagLenInfo + dl_length subTagLenInfo)
    buffer.
Proof.
  intros H. cbn [element_loop].
  destruct (Z.ltb_spec subOffset contentEnd); [reflexivity|lia].
Qed.

Lemma element_loop_done (rec : Z -> list jsstring -> outcome (list jsstring))
  (n : nat) (data : Uint8Array) (contentEnd subOffset : Z)
  (buffer : list jsstring) :
  contentEnd <= subOffset ->
  element_loop rec n data contentEnd subOffset buffer = Ok buffer.
Proof.
  intros H. destruct n; cbn [element_loop];
    destruct (Z.ltb_spec subOffset contentEnd); trivial; lia.
Qed.

Lemma String_repeat_indentation (level : Z) :
  0 <= level -> String_repeat (js "  ") level = Ok (indentation level).
Proof.
  intros H. unfold String_repeat.
  destruct (Z.ltb_spec level 0); [lia|reflexivity].
Qed.

(** The length octets of an element found anywhere in a buffer. *)
Lemma decodeLength_tlv (pre post : Uint8Array) (tag : byte)
  (content : Uint8Array) :
  len content < 2 ^ 31 ->
  decodeLength (pre ++ tlv tag content ++ post) (len pre + 1) =
  Ok (mkLengthInfo (len content) (len (encodeLength (len content)))).
Proof.
  intros Hc. pose proof (len_nonneg content).
  assert (E : pre ++ tlv tag content ++ post
              = (pre ++ [tag]) ++ encodeLength (len content)
                ++ (content ++ post)).
  { unfold tlv. list_assoc. }
  rewrite E. replace (len pre + 1) with (len (pre ++ [tag])) by len_lia.
  apply decodeLength_encodeLength. lia.
Qed.

Lemma tlv_content (pre post : Uint8Array) (tag : byte) (content : Uint8Array) :
  subarray (pre ++ tlv tag content ++ post)
    (len pre + 1 + len (encodeLength (len content)))
    (len pre + 1 + len (encodeLength (len content)) + len content)
  = content.
Proof.
  assert (E : pre ++ tlv tag content ++ post
              = (pre ++ tag :: encodeLength (len content)) ++ content ++ post).
  { unfold tlv. list_assoc. }
  rewrite E.
  replace (len pre + 1 + len (encodeLength (len content)))
    with (len (pre ++ tag :: encodeLength (len content))) by len_lia.
  apply subarray_app.
Qed.

Lemma renders_refl (buffer : list jsstring) : renders (Ok buffer) buffer [].
Proof. exists buffer. now rewrite app_nil_r. Qed.

Lemma concat_snoc (buffer : list jsstring) (s : jsstring) :
  concat (buffer ++ [s]) = concat buffer ++ s.
Proof. rewrite concat_app. cbn [concat]. now rewrite app_nil_r. Qed.

(** [recurse] on an element that is not a SEQUENCE. *)
Lemma recurse_primitive (fuel : nat) (pre post : Uint8Array) (tag : byte)
  (content : Uint8Array) (level : Z) (buffer : list jsstring) :
  tag <> x30 -> len content < 2 ^ 31 -> 0 <= level ->
  renders (recurse (S fuel) (pre ++ tlv tag content ++ post) (len pre) level
             buffer)
    buffer (primitive_xml level tag content).
Proof.
  intros Htag Hc Hl. rewrite recurse_S.
  pose proof (len_nonneg pre). pose proof (len_nonneg post).
  pose proof (len_nonneg content).
  pose proof (len_tlv tag content) as Ht.
  pose proof (len_nonneg (encodeLength (len content))).
  destruct (Z.geb_spec (len pre) (len (pre ++ tlv tag content ++ post)));
    [len_lia|].
  rewrite String_repeat_indentation by assumption. cbn [bind].
  rewrite decodeLength_tlv by assumption.
  cbn [bind dl_length dl_bytesRead].
  assert (Hi : index (pre ++ tlv tag content ++ post) (len pre)
               = Some (b2z tag)) by apply index_app.
  rewrite Hi. cbn [bind].
  cbv zeta. rewrite tlv_content.
  rewrite bool_decide_false.
  2:{ intros E. injection E as E. apply Htag.
      apply b2z_inj. exact E. }
  unfold primitive_xml.
  destruct (bool_decide_reflect (tag = x05)) as [->|Hn].
  - rewrite bool_decide_true by reflexivity. cbn [bind].
    eexists. split; [reflexivity|].
    rewrite !concat_snoc, <- !app_assoc. reflexivity.
  - rewrite bool_decide_false.
    2:{ intros E. injection E as E. apply Hn. apply b2z_inj. exact E. }
    cbn [bind]. eexists. split; [reflexivity|].
    rewrite !concat_snoc, <- !app_assoc. reflexivity.
Qed.


(** The loop over a run of elements, each of which [rec] renders. *)
Lemma element_loop_renders
  (rec : Z -> list jsstring -> outcome (list jsstring)) (level : Z)
  (data : Uint8Array) (es : list element) :
  forall (n : nat) (pre post : Uint8Array) (buffer : list jsstring),
  data = pre ++ concat (map der es) ++ post ->
  forallb wellformed es = true ->
  (length es <= n)%nat ->
  Forall (fun e => forall pre' post' buffer',
            data = pre' ++ der e ++ post' ->
            renders (rec (len pre') buffer') buffer' (xml level e)) es ->
  renders (element_loop rec n data (len pre + len (concat (map der es)))
             (len pre) buffer)
    buffer (concat (map (xml level) es)).
Proof.
  induction es as [|e es IH]; intros n pre post buffer Hd Hw Hn Hall.
  - rewrite element_loop_done by (cbn [map concat]; len_lia).
    apply renders_refl.
  - destruct n as [|n]; [cbn [length] in Hn; lia|].
    cbn [forallb] in Hw. apply andb_true_iff in Hw. destruct Hw as [Hwe Hw].
    apply Forall_cons in Hall. destruct Hall as [He Hall].
    cbn [map concat] in *.
    set (rest := concat (map der es)) in *.
    pose proof (len_nonneg rest).
    pose proof (wellformed_content e Hwe) as Hc.
    pose proof (len_nonneg (el_content e)).
    pose proof (len_nonneg (encodeLength (len (el_content e)))).
    assert (Ht : len (der e)
                 = 1 + len (encodeLength (len (el_content e)))
                   + len (el_content e)).
    { rewrite der_tlv. apply len_tlv. }
    rewrite element_loop_S by len_lia.
    assert (E : data = pre ++ der e ++ (rest ++ post)).
    { rewrite Hd. list_assoc. }
    assert (Hl : decodeLength data (len pre + 1)
                 = Ok (mkLengthInfo (len (el_content e))
                         (len (encodeLength (len (el_content e)))))).
    { rewrite E, der_tlv. now apply decodeLength_tlv. }
    rewrite Hl. cbn [bind dl_length dl_bytesRead].
    destruct (He pre (rest ++ post) buffer E) as (buffer1 & Hr & Hc1).
    rewrite Hr. cbn [bind].
    replace (len pre + 1 + len (encodeLength (len (el_content e)))
             + len (el_content e)) with (len (pre ++ der e)) by len_lia.
    replace (len pre + len (der e ++ rest))
      with (len (pre ++ der e) + len rest) by len_lia.
    destruct (IH n (pre ++ der e) post buffer1) as (buffer2 & Hr2 & Hc2).
    + rewrite Hd. list_assoc.
    + exact Hw.
    + cbn [length] in Hn. lia.
    + exact Hall.
    + exists buffer2. split; [exact Hr2|].
      rewrite Hc2, Hc1, <- app_assoc. reflexivity.
Qed.

Lemma list_sum_cons (a : nat) (l : list nat) :
  list_sum (a :: l) = (a + list_sum l)%nat.
Proof. reflexivity. Qed.

Lemma nodes_member (e : element) (es : list element) :
  In e es -> (nodes e <= list_sum (map nodes es))%nat.
Proof.
  induction es as [|x es IH]; intros Hin; [destruct Hin|].
  cbn [map]. rewrite list_sum_cons. destruct Hin as [->|Hin]; [lia|].
  specialize (IH Hin). lia.
Qed.

Lemma nodes_positive (e : element) : (1 <= nodes e)%nat.
Proof. destruct e; cbn [nodes]; lia. Qed.

Lemma nodes_count (es : list element) :
  (length es <= list_sum (map nodes es))%nat.
Proof.
  induction es as [|x es IH]; [reflexivity|].
  cbn [map length]. rewrite list_sum_cons. pose proof (nodes_positive x). lia.
Qed.

(** [recurse] on a well-formed element found anywhere in a buffer. *)
Lemma recurse_renders (e : element) :
  wellformed e = true ->
  forall (fuel : nat) (pre post : Uint8Array) (level : Z)
    (buffer : list jsstring),
  (nodes e <= fuel)%nat -> 0 <= level ->
  renders (recurse fuel (pre ++ der e ++ post) (len pre) level buffer)
    buffer (xml level e).
Proof.
  induction e as [tag content|children IH] using element_induction;
    intros Hw fuel pre post level buffer Hf Hl.
  - cbn [wellformed] in Hw. apply andb_true_iff in Hw.
    destruct Hw as [Ht Hc]. apply Z.ltb_lt in Hc.
    apply negb_true_iff, bool_decide_eq_false in Ht.
    destruct fuel as [|fuel]; [cbn [nodes] in Hf; lia|].
    cbn [der xml]. now apply recurse_primitive.
  - cbn [wellformed] in Hw. apply andb_true_iff in Hw.
    destruct Hw as [Hws Hc]. apply Z.ltb_lt in Hc.
    destruct fuel as [|fuel]; [cbn [nodes] in Hf; lia|].
    cbn [nodes] in Hf. cbn [der xml].
    set (body := concat (map der children)) in *.
    set (data := pre ++ tlv x30 body ++ post).
    pose proof (len_nonneg pre). pose proof (len_nonneg post).
    pose proof (len_nonneg body).
    pose proof (len_tlv x30 body) as Ht.
    pose proof (len_nonneg (encodeLength (len body))).
    rewrite recurse_S.
    destruct (Z.geb_spec (len pre) (len data)); [unfold data in *; len_lia|].
    rewrite String_repeat_indentation by assumption. cbn [bind].
    unfold data at 1. rewrite decodeLength_tlv by assumption.
    cbn [bind dl_length dl_bytesRead].
    assert (Hi : index data (len pre) = Some (b2z x30)) by apply index_app.
    rewrite Hi. cbn [bind]. cbv zeta.
    change (b2z x30) with ASN1Tag_SEQUENCE.
    rewrite bool_decide_true by reflexivity.
    change (tagName ASN1Tag_SEQUENCE) with (js "SEQUENCE").
    set (pre' := pre ++ x30 :: encodeLength (len body)).
    replace (len pre + 1 + len (encodeLength (len body))) with (len pre')
      by (unfold pre'; len_lia).
    destruct (element_loop_renders
                (fun o b => recurse fuel data o (level + 1) b) (level + 1)
                data children fuel pre' post
                ((buffer ++ [indentation level ++ js "<" ++ js "SEQUENCE"
                             ++ js ">"]) ++ [LF]))
      as (buffer1 & Hr & Hc1).
    + unfold data, pre', tlv. fold body. list_assoc.
    + exact Hws.
    + pose proof (nodes_count children). lia.
    + rewrite !List.Forall_forall in *. intros c Hin pre1 post1 buffer1 Hd.
      rewrite Hd. apply IH; [exact Hin| |..].
      * rewrite forallb_forall in Hws. now apply Hws.
      * pose proof (nodes_member c children Hin). lia.
      * lia.
    + fold body in Hr. rewrite Hr. cbn [bind].
      eexists. split; [reflexivity|].
      fold body in Hc1.
      rewrite !concat_snoc, Hc1, !concat_snoc, <- !app_assoc. reflexivity.
Qed.



(** [asn1ToXml] on well-formed elements, with fuel for the number of
    elements. *)
Lemma asn1ToXml_elements (es : list element) (indent : Z) (fuel : nat) :
  forallb wellformed es = true ->
  0 <= indent ->
  (list_sum (map nodes es) <= fuel)%nat ->
  asn1ToXml fuel (concat (map der es)) indent
  = Ok (concat (map (xml indent) es)).
Proof.
  intros Hw Hi Hf. unfold asn1ToXml.
  set (data := concat (map der es)) in *.
  destruct (element_loop_renders
              (fun o b => recurse fuel data o indent b) indent data es
              fuel [] [] []) as (buffer & Hr & Hc).
  - fold data. now rewrite app_nil_r.
  - exact Hw.
  - pose proof (nodes_count es). lia.
  - rewrite List.Forall_forall. intros e Hin pre post buffer Hd. rewrite Hd.
    apply recurse_renders; [|pose proof (nodes_member e es Hin); lia|exact Hi].
    rewrite forallb_forall in Hw. now apply Hw.
  - fold data in Hr. change (len []) with 0 in Hr.
    rewrite Z.add_0_l in Hr. rewrite Hr. cbn [bind].
    now rewrite Hc.
Qed.

End Visualization.



(** X23. [asn1ToXml] does not compare the length of an element with the
    octets at hand: an element whose length octets announce more content
    than the buffer holds is shown with the octets that are there, and
    no exception is thrown. *)
Theorem asn1ToXml_truncated_content (tag : byte) (partial : Uint8Array)
  (n indent : Z) (fuel : nat) :
  tag <> x30 -> len partial < n < 2 ^ 31 -> 0 <= indent -> (1 <= fuel)%nat ->
  asn1ToXml fuel (tag :: encodeLength n ++ partial) indent
  = Ok (primitive_xml indent tag partial).
Proof.
  intros Htag Hn Hi Hf. destruct fuel as [|fuel]; [lia|].
  pose proof (len_nonneg partial).
  set (lb := encodeLength n).
  pose proof (len_encodeLength n ltac:(lia)) as Hlb. fold lb in Hlb.
  set (data := tag :: lb ++ partial).
  assert (Hlen : len data = 1 + len lb + len partial)
    by (unfold data; len_lia).
  assert (Hl : decodeLength data (0 + 1) = Ok (mkLengthInfo n (len lb))).
  { change data with ([tag] ++ lb ++ partial). change (0 + 1) with (len [tag]).
    apply decodeLength_encodeLength. lia. }
  unfold asn1ToXml. rewrite element_loop_S by lia.
  rewrite Hl. cbn [bind dl_length dl_bytesRead].
  rewrite recurse_S.
  destruct (Z.geb_spec 0 (len data)); [lia|].
  rewrite String_repeat_indentation by assumption. cbn [bind].
  rewrite Hl. cbn [bind dl_length dl_bytesRead].
  change (index data 0) with (Some (b2z tag)). cbn [bind]. cbv zeta.
  rewrite bool_decide_false.
  2:{ intros E. injection E as E. apply Htag. apply b2z_inj. exact E. }
  assert (Hs : subarray data (0 + 1 + len lb) (0 + 1 + len lb + n) = partial).
  { rewrite subarray_clamped by lia.
    change data with ((tag :: lb) ++ partial).
    replace (Z.to_nat (0 + 1 + len lb)) with (length (tag :: lb)).
    - apply drop_app_length.
    - cbn [length]. unfold len. lia. }
  rewrite Hs. unfold primitive_xml.
  destruct (bool_decide_reflect (tag = x05)) as [->|Hne].
  - rewrite bool_decide_true by reflexivity. cbn [bind].
    rewrite element_loop_done by lia. cbn [bind]. f_equal.
    rewrite !concat_snoc, <- !app_assoc. reflexivity.
  - rewrite bool_decide_false.
    2:{ intros E. injection E as E. apply Hne. apply b2z_inj. exact E. }
    cbn [bind]. rewrite element_loop_done by lia. cbn [bind]. f_equal.
    rewrite !concat_snoc, <- !app_assoc. reflexivity.
Qed.

Lemma asn1ToXml_truncated_content_witness :
  x02 <> x30 /\ len [xaa; xbb] < 200 < 2 ^ 31 /\ 0 <= 0 /\ (1 <= 1)%nat
  /\ asn1ToXml 1 (x02 :: encodeLength 200 ++ [xaa; xbb]) 0
     = Ok (primitive_xml 0 x02 [xaa; xbb]).
Proof.
  assert (H : x02 <> x30) by discriminate.
  assert (Hn : len [xaa; xbb] < 200 < 2 ^ 31) by (vm_compute; split; reflexivity).
  split; [exact H|]. split; [exact Hn|]. split; [lia|]. split; [lia|].
  exact (asn1ToXml_truncated_content x02 [xaa; xbb] 200 0 1 H Hn
           ltac:(lia) ltac:(lia)).
Defined.

(** ** The XML document of a signature *)

Section SignatureXml.

Lemma trimEnd_line (s : jsstring) (c : N) :
  isStrWhiteSpaceChar c = false -> trimEnd (s ++ [c] ++ LF) = s ++ [c].
Proof.
  intros Hc. unfold trimEnd, LF. rewrite !rev_app_distr. cbn [rev app trimStart].
  change (isStrWhiteSpaceChar 10) with true. cbv iota. rewrite Hc.
  change (c :: rev s) with ([c] ++ rev s).
  rewrite rev_app_distr, rev_involutive. reflexivity.
Qed.

Lemma xml_sequence_trimEnd (level : Z) (children : list element) :
  trimEnd (xml level (Constructed children))
  = removelast (xml level (Constructed children)).
Proof.
  cbn [xml].
  set (head_ := indentation level ++ js "<SEQUENCE>" ++ LF
                ++ concat (map (xml (level + 1)) children)
                ++ indentation level ++ js "</SEQUENCE").
  assert (E : indentation level ++ js "<SEQUENCE>" ++ LF
              ++ concat (map (xml (level + 1)) children)
              ++ indentation level ++ js "</SEQUENCE>" ++ LF
              = head_ ++ [62%N] ++ LF).
  { unfold head_. change (js "</SEQUENCE>") with (js "</SEQUENCE" ++ [62%N]).
    rewrite <- !app_assoc. reflexivity. }
  rewrite E, trimEnd_line by reflexivity.
  unfold LF. rewrite (app_assoc head_ [62%N] [10%N]).
  now rewrite removelast_last.
Qed.

Lemma der_signature_element (rb sb : Uint8Array) :
  der (signature_element rb sb) = der_signature rb sb.
Proof.
  unfold signature_element, der_signature. cbn [der map concat].
  now rewrite app_nil_r.
Qed.

Lemma len_der_content_minimal (v : Uint8Array) :
  len (der_content v) <= len (minimal_octets v) + 1.
Proof.
  rewrite <- der_content_minimal.
  pose proof (len_der_content (minimal_octets v)). lia.
Qed.

Lemma len_tlv_bound (tag : byte) (content : Uint8Array) :
  len content < 2 ^ 31 -> len (tlv tag content) <= 6 + len content.
Proof.
  intros H. pose proof (len_nonneg content).
  pose proof (len_encodeLength (len content) ltac:(lia)).
  rewrite len_tlv. lia.
Qed.

Lemma wellformed_signature_element (rb sb : Uint8Array) :
  len (minimal_octets rb) + len (minimal_octets sb) < 2 ^ 31 - 14 ->
  wellformed (signature_element rb sb) = true.
Proof.
  intros Hsize.
  pose proof (len_nonneg (minimal_octets rb)).
  pose proof (len_nonneg (minimal_octets sb)).
  pose proof (len_der_content_minimal rb) as Hr.
  pose proof (len_der_content_minimal sb) as Hs.
  pose proof (len_tlv_bound x02 (der_content rb) ltac:(lia)).
  pose proof (len_tlv_bound x02 (der_content sb) ltac:(lia)).
  unfold signature_element. cbn [wellformed forallb der map concat].
  rewrite app_nil_r, len_app.
  change (negb (bool_decide (x02 = x30))) with true. cbn [andb].
  repeat (apply andb_true_iff; split); try reflexivity; apply Z.ltb_lt; lia.
Qed.

Lemma decodeSignature_minimal (rb sb : Uint8Array) (fuel : nat) :
  len (minimal_octets rb) + len (minimal_octets sb) < 2 ^ 31 - 14 ->
  (2 <= fuel)%nat ->
  decodeSignature fuel (der_signature rb sb)
  = Ok (mkSignature (Hex.encode (minimal_octets rb))
          (Hex.encode (minimal_octets sb))).
Proof.
  intros Hsize Hfuel. rewrite <- der_signature_minimal.
  rewrite decodeSignature_der_signature by assumption.
  now rewrite !minimal_octets_idem.
Qed.

(** [signatureToXml] on the DER octets of a signature. *)
Lemma signatureToXml_bytes (rb sb : Uint8Array) (fuel : nat) :
  len (minimal_octets rb) + len (minimal_octets sb) < 2 ^ 31 - 14 ->
  (3 <= fuel)%nat ->
  signatureToXml fuel (Bytes (der_signature rb sb))
  = Ok (signature_xml rb sb).
Proof.
  intros Hsize Hfuel. unfold signatureToXml. cbn [bind].
  rewrite decodeSignature_minimal by (trivial; lia).
  cbn [bind sig_r sig_s].
  rewrite <- der_signature_element.
  pose proof (asn1ToXml_elements [signature_element rb sb] 2 fuel) as Hx.
  cbn [map concat forallb] in Hx. rewrite !app_nil_r, andb_true_r in Hx.
  rewrite Hx; [|now apply wellformed_signature_element|lia|exact Hfuel].
  cbn [bind]. unfold signature_element at 1.
  rewrite xml_sequence_trimEnd. fold (signature_element rb sb).
  unfold signature_xml. cbn [join map concat].
  rewrite app_nil_r, <- !app_assoc. reflexivity.
Qed.

Lemma startsWith_30 (rest : Uint8Array) :
  startsWith_string (Hex.encode (x30 :: rest)) (js "30") = true.
Proof. reflexivity. Qed.

Lemma der_signature_head (rb sb : Uint8Array) :
  exists rest, der_signature rb sb = x30 :: rest.
Proof. unfold der_signature, tlv. eexists. reflexivity. Qed.

Lemma len_encode (bytes : Uint8Array) : len (Hex.encode bytes) = 2 * len bytes.
Proof. unfold len. rewrite length_encode. lia. Qed.

End SignatureXml.

(** X24. [signatureToXml] on a DER signature, given as bytes or as a hex
    string of more than 130 characters, returns the document with the
    minimal octets of [r] and [s] in hex and, under [<DER>], the
    SEQUENCE of the two INTEGERs with their content octets (so with the
    sign octet [00] that [r] and [s] do not show), indented by two
    levels. *)
Theorem signatureToXml_der (rb sb : Uint8Array) (fuel : nat) :
  len (minimal_octets rb) + len (minimal_octets sb) < 2 ^ 31 - 14 ->
  (3 <= fuel)%nat ->
  signatureToXml fuel (Bytes (der_signature rb sb)) = Ok (signature_xml rb sb)
  /\ (65 < len (der_signature rb sb) ->
      signatureToXml fuel (Str (Hex.encode (der_signature rb sb)))
      = Ok (signature_xml rb sb)).
Proof.
  intros Hsize Hfuel.
  pose proof (signatureToXml_bytes rb sb fuel Hsize Hfuel) as Hb.
  split; [exact Hb|]. intros Hlong.
  unfold signatureToXml in *. cbn [bind] in Hb.
  destruct (der_signature_head rb sb) as [rest E].
  rewrite E at 1. rewrite startsWith_30, len_encode.
  destruct (Z.gtb_spec (2 * len (der_signature rb sb)) 130); [|lia].
  cbn [andb]. rewrite decode_encode. cbn [bind]. exact Hb.
Qed.

Lemma signatureToXml_der_witness :
  len (minimal_octets (replicate 32 xff))
  + len (minimal_octets (replicate 32 x7f)) < 2 ^ 31 - 14
  /\ (3 <= 3)%nat
  /\ 65 < len (der_signature (replicate 32 xff) (replicate 32 x7f))
  /\ signatureToXml 3 (Bytes (der_signature (replicate 32 xff) (replicate 32 x7f)))
     = Ok (signature_xml (replicate 32 xff) (replicate 32 x7f))
  /\ signatureToXml 3
       (Str (Hex.encode (der_signature (replicate 32 xff) (replicate 32 x7f))))
     = Ok (signature_xml (replicate 32 xff) (replicate 32 x7f)).
Proof.
  assert (H : 65 < len (der_signature (replicate 32 xff) (replicate 32 x7f)))
    by (vm_compute; reflexivity).
  split; [reflexivity|]. split; [lia|]. split; [exact H|].
  refine (let T := signatureToXml_der (replicate 32 xff) (replicate 32 x7f) 3
                     eq_refl _ in conj (proj1 T) (proj2 T H)).
  lia.
Defined.

(** X25. A raw signature of 64 bytes given as a hex string of 128
    characters is converted to DER first and then shown like a DER
    signature, whatever its first characters are; the same 64 bytes given
    as a [Uint8Array] are read as DER, and refused with
    ['Expected SEQUENCE tag'] unless the first byte is [30]. *)
Theorem signatureToXml_raw (raw : Uint8Array) (fuel : nat) :
  length raw = 64%nat -> (3 <= fuel)%nat ->
  signatureToXml fuel (Str (Hex.encode raw))
  = Ok (signature_xml (take 32 raw) (drop 32 raw))
  /\ (raw !! 0%nat <> Some x30 ->
      signatureToXml fuel (Bytes raw) = Throw (Error "Expected SEQUENCE tag")).
Proof.
  intros Hraw Hfuel.
  destruct (raw_roundtrip_bytes raw fuel Hraw ltac:(lia))
    as (He & _ & _ & Lr & Ls).
  split.
  - pose proof (signatureToXml_bytes (take 32 raw) (drop 32 raw) fuel) as Hb.
    unfold signatureToXml in *. cbn [bind] in Hb.
    rewrite len_encode. unfold len at 1. rewrite Hraw.
    change (2 * Z.of_nat 64 >? 130) with false. rewrite andb_false_r.
    unfold rawToDer. rewrite len_encode. unfold len at 1. rewrite Hraw.
    change (negb (2 * Z.of_nat 64 =? 128)) with false. cbv iota.
    rewrite decode_encode. cbn [bind]. rewrite He. cbn [bind].
    apply Hb; [|exact Hfuel].
    pose proof (len_minimal_octets (take 32 raw)).
    pose proof (len_minimal_octets (drop 32 raw)).
    unfold len in *. lia.
  - intros H0. unfold signatureToXml. cbn [bind].
    unfold decodeSignature, decodeSequence.
    rewrite bool_decide_false; [reflexivity|].
    unfold index. change (0 <? 0) with false. cbv iota.
    change (Z.to_nat 0) with 0%nat.
    destruct (raw !! 0%nat) as [b|]; [|discriminate].
    cbn [fmap option_fmap option_map]. intros E. injection E as E.
    apply H0. f_equal. now apply b2z_inj.
Qed.

Lemma signatureToXml_raw_witness :
  length sample_raw = 64%nat /\ (3 <= 3)%nat
  /\ sample_raw !! 0%nat <> Some x30
  /\ signatureToXml 3 (Str (Hex.encode sample_raw))
     = Ok (signature_xml (take 32 sample_raw) (drop 32 sample_raw))
  /\ signatureToXml 3 (Bytes sample_raw)
     = Throw (Error "Expected SEQUENCE tag").
Proof.
  assert (H : sample_raw !! 0%nat <> Some x30) by discriminate.
  split; [reflexivity|]. split; [lia|]. split; [exact H|].
  refine (let T := signatureToXml_raw sample_raw 3 eq_refl _ in
          conj (proj1 T) (proj2 T H)).
  lia.
Defined.

(** X26. The choice between DER and raw for a string input rests on the
    first two characters and on the number of characters alone: the hex
    string of a DER signature of at most 65 octets (short [r] and [s]) is
    taken for a raw signature and refused with ['Raw signature string
    must be 128 hex chars'], though the same octets given as a
    [Uint8Array] are shown. *)
Theorem signatureToXml_short_der (rb sb : Uint8Array) (fuel : nat) :
  len (der_signature rb sb) <= 65 ->
  len (der_signature rb sb) <> 64 ->
  len (minimal_octets rb) + len (minimal_octets sb) < 2 ^ 31 - 14 ->
  (3 <= fuel)%nat ->
  signatureToXml fuel (Bytes (der_signature rb sb)) = Ok (signature_xml rb sb)
  /\ signatureToXml fuel (Str (Hex.encode (der_signature rb sb)))
     = Throw (Error "Raw signature string must be 128 hex chars").
Proof.
  intros Hshort Hne Hsize Hfuel.
  split; [now apply signatureToXml_bytes|].
  unfold signatureToXml. rewrite len_encode.
  destruct (Z.gtb_spec (2 * len (der_signature rb sb)) 130); [lia|].
  rewrite andb_false_r. unfold rawToDer. rewrite len_encode.
  destruct (Z.eqb_spec (2 * len (der_signature rb sb)) 128); [lia|].
  reflexivity.
Qed.

Lemma signatureToXml_short_der_witness :
  len (der_signature [x01] [x02]) <= 65
  /\ len (der_signature [x01] [x02]) <> 64
  /\ len (minimal_octets [x01]) + len (minimal_octets [x02]) < 2 ^ 31 - 14
  /\ (3 <= 3)%nat
  /\ signatureToXml 3 (Bytes (der_signature [x01] [x02]))
     = Ok (signature_xml [x01] [x02])
  /\ signatureToXml 3 (Str (Hex.encode (der_signature [x01] [x02])))
     = Throw (Error "Raw signature string must be 128 hex chars").
Proof.
  assert (H1 : len (der_signature [x01] [x02]) <= 65)
    by (vm_compute; discriminate).
  assert (H2 : len (der_signature [x01] [x02]) <> 64)
    by (vm_compute; discriminate).
  split; [exact H1|]. split; [exact H2|]. split; [reflexivity|].
  split; [lia|].
  exact (signatureToXml_short_der [x01] [x02] 3 H1 H2 eq_refl ltac:(lia)).
Defined.

(** ** Termination of the XML loops *)

Section XmlLoops.

Lemma String_repeat_not_OutOfFuel (s : jsstring) (count : Z) :
  String_repeat s count <> OutOfFuel.
Proof. unfold String_repeat. destruct (count <? 0); discriminate. Qed.

(** The loop ends when lengths are not negative and every call of [rec]
    at or after [subOffset] ends. *)
Lemma element_loop_terminates
  (rec : Z -> list jsstring -> outcome (list jsstring))
  (data : Uint8Array) (contentEnd : Z) (n : nat) :
  lengths_nonneg data = true ->
  forall (subOffset : Z) (buffer : list jsstring),
  (forall o b, subOffset <= o -> rec o b <> OutOfFuel) ->
  (Z.to_nat (len data - subOffset) < n)%nat ->
  element_loop rec n data contentEnd subOffset buffer <> OutOfFuel.
Proof.
  intros Hn. induction n as [|n IH]; intros subOffset buffer Hrec Hf; [lia|].
  cbn [element_loop].
  destruct (Z.ltb_spec subOffset contentEnd); [|discriminate].
  destruct (decodeLength data (subOffset + 1)) as [li| |] eqn:Hl; cbn [bind].
  - pose proof (lengths_nonneg_spec _ _ _ Hn Hl).
    destruct (decodeLength_Ok_range _ _ _ Hl) as [Ho Hb].
    pose proof (Hrec subOffset buffer ltac:(lia)) as Hr.
    destruct (rec subOffset buffer) as [buffer1| |]; cbn [bind];
      [|discriminate|congruence].
    apply IH; [|lia].
    intros o b Ho'. apply Hrec. lia.
  - discriminate.
  - now apply decodeLength_not_OutOfFuel in Hl.
Qed.

Lemma recurse_terminates (data : Uint8Array) (fuel : nat) :
  lengths_nonneg data = true ->
  forall (offset level : Z) (buffer : list jsstring),
  (Z.to_nat (len data - offset) < fuel)%nat ->
  recurse fuel data offset level buffer <> OutOfFuel.
Proof.
  intros Hn. induction fuel as [|fuel IH]; intros offset level buffer Hf; [lia|].
  rewrite recurse_S.
  destruct (Z.geb_spec offset (len data)); [discriminate|].
  pose proof (String_repeat_not_OutOfFuel (js "  ") level) as Hs.
  destruct (String_repeat (js "  ") level) as [spaces| |]; cbn [bind];
    [|discriminate|congruence].
  destruct (decodeLength data (offset + 1)) as [li| |] eqn:Hl; cbn [bind];
    [|discriminate|now apply decodeLength_not_OutOfFuel in Hl].
  pose proof (lengths_nonneg_spec _ _ _ Hn Hl).
  destruct (decodeLength_Ok_range _ _ _ Hl) as [Ho Hb].
  destruct (index data offset) as [t|]; cbn [bind]; [|discriminate].
  cbv zeta.
  destruct (bool_decide (Some t = Some ASN1Tag_SEQUENCE)).
  - pose proof (element_loop_terminates
                  (fun o b => recurse fuel data o (level + 1) b) data
                  (offset + 1 + dl_bytesRead li + dl_length li) fuel Hn
                  (offset + 1 + dl_bytesRead li)
                  ((buffer ++ [spaces ++ js "<" ++ tagName t ++ js ">"])
                   ++ [LF])) as Hloop.
    destruct (element_loop _ _ _ _ _ _) as [buffer1| |]; cbn [bind];
      try discriminate.
    exfalso. apply Hloop; [|lia|reflexivity].
    intros o b Ho'. apply IH. lia.
  - destruct (bool_decide (Some t = Some ASN1Tag_NULL)); discriminate.
Qed.

(** The loop does not move past an element of size zero. *)
Lemma element_loop_stuck
  (rec : Z -> list jsstring -> outcome (list jsstring))
  (data : Uint8Array) (contentEnd subOffset : Z) (li : LengthInfo) :
  subOffset < contentEnd ->
  decodeLength data (subOffset + 1) = Ok li ->
  1 + dl_bytesRead li + dl_length li = 0 ->
  (forall b e, rec subOffset b <> Throw e) ->
  forall (n : nat) (buffer : list jsstring),
  element_loop rec n data contentEnd subOffset buffer = OutOfFuel.
Proof.
  intros Hp Hl Hz Hrec. induction n as [|n IH]; intros buffer;
    cbn [element_loop]; destruct (Z.ltb_spec subOffset contentEnd); try lia;
    [reflexivity|].
  rewrite Hl. cbn [bind].
  pose proof (Hrec buffer) as Hr.
  destruct (rec subOffset buffer) as [buffer1|e|]; cbn [bind].
  - replace (subOffset + 1 + dl_bytesRead li + dl_length li)
      with subOffset by lia.
    apply IH.
  - now contradiction (Hr e).
  - reflexivity.
Qed.

(** [recurse] on an element of size zero does not throw. *)
Lemma recurse_zero_size (data : Uint8Array) (offset level : Z)
  (li : LengthInfo) (fuel : nat) (buffer : list jsstring) (e : exn) :
  0 <= offset -> 0 <= level ->
  decodeLength data (offset + 1) = Ok li ->
  1 + dl_bytesRead li + dl_length li = 0 ->
  recurse fuel data offset level buffer <> Throw e.
Proof.
  intros Ho Hlv Hl Hz. destruct fuel as [|fuel]; [discriminate|].
  rewrite recurse_S.
  destruct (Z.geb_spec offset (len data)); [discriminate|].
  rewrite String_repeat_indentation by assumption. cbn [bind].
  rewrite Hl. cbn [bind].
  destruct (decodeLength_Ok_range _ _ _ Hl) as [_ Hb].
  destruct (index_inside data offset ltac:(lia)) as (t & Ht & _).
  rewrite Ht. cbn [bind]. cbv zeta.
  destruct (bool_decide (Some (b2z t) = Some ASN1Tag_SEQUENCE)).
  - rewrite element_loop_done by lia. discriminate.
  - destruct (bool_decide (Some (b2z t) = Some ASN1Tag_NULL)); discriminate.
Qed.

Lemma decodeSignature_not_OutOfFuel (fuel : nat) (data : Uint8Array) :
  lengths_nonneg data = true -> (length data <= fuel)%nat ->
  decodeSignature fuel data <> OutOfFuel.
Proof.
  intros Hn Hfuel. unfold decodeSignature.
  assert (G : decodeSequence fuel data 0 <> OutOfFuel).
  { unfold decodeSequence. destruct (negb _); [discriminate|].
    destruct (decodeLength data (0 + 1)) as [li| |] eqn:Hl; cbn [bind].
    - destruct (Z.gtb_spec (0 + 1 + dl_bytesRead li + dl_length li) (len data));
        [discriminate|].
      destruct (decodeLength_Ok_range _ _ _ Hl) as [Ho Hb].
      pose proof (decodeSequence_loop_terminates fuel data
                    (0 + 1 + dl_bytesRead li + dl_length li)
                    (0 + 1 + dl_bytesRead li) [] Hn) as Ht.
      destruct (decodeSequence_loop _ _ _ _ _); cbn [bind]; try discriminate.
      exfalso. apply Ht; [|reflexivity]. unfold len in *. lia.
    - discriminate.
    - now apply decodeLength_not_OutOfFuel in Hl. }
  destruct (decodeSequence fuel data 0) as [sq| |]; cbn [bind];
    [|discriminate|congruence].
  destruct (ds_elements sq) as [|e0 [|e1 [|e2 rest]]]; try discriminate.
  pose proof (decodeInteger_not_OutOfFuel e0 0).
  pose proof (decodeInteger_not_OutOfFuel e1 0).
  destruct (decodeInteger e0 0); cbn [bind]; try discriminate; try congruence.
  destruct (decodeInteger e1 0); cbn [bind]; try discriminate; congruence.
Qed.

End XmlLoops.

(** X27. When no position of the buffer makes [decodeLength] return a
    negative length, the loops and the recursion of [asn1ToXml] end: with
    more fuel than the buffer has bytes, [asn1ToXml] returns or throws,
    and so does [signatureToXml] on a [Uint8Array]. *)
Theorem asn1ToXml_terminates (data : Uint8Array) (indent : Z) (fuel : nat) :
  lengths_nonneg data = true -> (length data < fuel)%nat ->
  asn1ToXml fuel data indent <> OutOfFuel
  /\ signatureToXml fuel (Bytes data) <> OutOfFuel.
Proof.
  intros Hn Hfuel.
  assert (G : forall i, asn1ToXml fuel data i <> OutOfFuel).
  { intros i. unfold asn1ToXml.
    pose proof (element_loop_terminates
                  (fun o b => recurse fuel data o i b) data (len data)
                  fuel Hn 0 []) as Hloop.
    destruct (element_loop _ _ _ _ _ _); cbn [bind]; try discriminate.
    exfalso. apply Hloop; [|unfold len; lia|reflexivity].
    intros o b Ho. apply recurse_terminates; [exact Hn|].
    unfold len. lia. }
  split; [apply G|].
  unfold signatureToXml. cbn [bind].
  pose proof (decodeSignature_not_OutOfFuel fuel data Hn ltac:(lia)) as Hd.
  destruct (decodeSignature fuel data); cbn [bind];
    [|discriminate|congruence].
  specialize (G 2). destruct (asn1ToXml fuel data 2); cbn [bind];
    [discriminate|discriminate|congruence].
Qed.

Lemma asn1ToXml_terminates_witness :
  lengths_nonneg [x30; x06; x02; x01; x84; x02; x01; xff] = true
  /\ (length [x30; x06; x02; x01; x84; x02; x01; xff] < 9)%nat
  /\ asn1ToXml 9 [x30; x06; x02; x01; x84; x02; x01; xff] 0 <> OutOfFuel
  /\ signatureToXml 9 (Bytes [x30; x06; x02; x01; x84; x02; x01; xff])
     <> OutOfFuel.
Proof.
  split; [reflexivity|]. split; [simpl; lia|].
  exact (asn1ToXml_terminates [x30; x06; x02; x01; x84; x02; x01; xff] 0 9
           eq_refl ltac:(simpl; lia)).
Defined.

(** X28. [asn1ToXml] never ends on a buffer that starts with an element
    whose size, as [decodeLength] gives it, is zero (four length octets
    that write [2^32 - 6], read as [-6]): [rootOffset] does not move, the
    element is pushed to the buffer again and again, and there is neither
    a result nor an exception, whatever the fuel (the program runs until
    the growing buffer exhausts the memory). *)
Theorem asn1ToXml_zero_size_element (data : Uint8Array) (indent : Z)
  (li : LengthInfo) :
  0 <= indent ->
  decodeLength data 1 = Ok li ->
  1 + dl_bytesRead li + dl_length li = 0 ->
  forall fuel, asn1ToXml fuel data indent = OutOfFuel.
Proof.
  intros Hi Hl Hz fuel. unfold asn1ToXml.
  destruct (decodeLength_Ok_range _ _ _ Hl) as [Ho _].
  rewrite (element_loop_stuck _ data (len data) 0 li); trivial; [lia|].
  intros b e. now apply (recurse_zero_size data 0 indent li).
Qed.

Lemma asn1ToXml_zero_size_element_witness :
  0 <= 0
  /\ decodeLength [x02; x84; xff; xff; xff; xfa] 1 = Ok (mkLengthInfo (-6) 5)
  /\ 1 + dl_bytesRead (mkLengthInfo (-6) 5) + dl_length (mkLengthInfo (-6) 5) = 0
  /\ forall fuel, asn1ToXml fuel [x02; x84; xff; xff; xff; xfa] 0 = OutOfFuel.
Proof.
  split; [lia|]. split; [vm_compute; reflexivity|]. split; [reflexivity|].
  exact (asn1ToXml_zero_size_element [x02; x84; xff; xff; xff; xfa] 0
           (mkLengthInfo (-6) 5) ltac:(lia) ltac:(vm_compute; reflexivity)
           eq_refl).
Defined.

(** X29. The same inside a SEQUENCE: when the first element of a SEQUENCE
    at the start of the buffer has size zero, the loop over the elements
    of the SEQUENCE never ends, and neither [asn1ToXml] nor
    [signatureToXml] on these bytes returns or throws, whatever the
    fuel. *)
Theorem asn1ToXml_zero_size_nested (data : Uint8Array) (indent : Z)
  (hdr li : LengthInfo) :
  0 <= indent ->
  index data 0 = Some ASN1Tag_SEQUENCE ->
  decodeLength data 1 = Ok hdr ->
  0 < dl_length hdr ->
  1 + dl_bytesRead hdr + dl_length hdr <= len data ->
  decodeLength data (1 + dl_bytesRead hdr + 1) = Ok li ->
  1 + dl_bytesRead li + dl_length li = 0 ->
  forall fuel,
    asn1ToXml fuel data indent = OutOfFuel
    /\ signatureToXml fuel (Bytes data) = OutOfFuel.
Proof.
  intros Hi Ht Hh Hpos Hin Hl Hz fuel.
  destruct (decodeLength_Ok_range _ _ _ Hh) as [Ho Hb].
  assert (R : forall f lv b, 0 <= lv -> recurse (S f) data 0 lv b = OutOfFuel).
  { intros f lv b Hlv. rewrite recurse_S.
    destruct (Z.geb_spec 0 (len data)); [lia|].
    rewrite String_repeat_indentation by assumption. cbn [bind].
    change (0 + 1) with 1. rewrite Hh, Ht. cbn [bind]. cbv zeta.
    rewrite bool_decide_true by reflexivity.
    rewrite (element_loop_stuck _ data _ (1 + dl_bytesRead hdr) li);
      trivial; [lia|].
    intros b' e. apply (recurse_zero_size data _ (lv + 1) li); trivial; lia. }
  split.
  - unfold asn1ToXml. destruct fuel as [|fuel].
    + cbn [element_loop]. destruct (Z.ltb_spec 0 (len data)); [reflexivity|lia].
    + rewrite element_loop_S by lia. change (0 + 1) with 1.
      rewrite Hh. cbn [bind]. rewrite R by assumption. reflexivity.
  - unfold signatureToXml. cbn [bind]. unfold decodeSignature, decodeSequence.
    rewrite Ht, bool_decide_true by reflexivity. cbn [negb].
    change (0 + 1) with 1. rewrite Hh. cbn [bind].
    destruct (Z.gtb_spec (1 + dl_bytesRead hdr + dl_length hdr) (len data));
      [lia|].
    rewrite (decodeSequence_loop_stuck fuel data _ _ li) by (trivial; lia).
    reflexivity.
Qed.

Lemma asn1ToXml_zero_size_nested_witness :
  0 <= 2
  /\ index [x30; x06; x02; x84; xff; xff; xff; xfa] 0 = Some ASN1Tag_SEQUENCE
  /\ decodeLength [x30; x06; x02; x84; xff; xff; xff; xfa] 1
     = Ok (mkLengthInfo 6 1)
  /\ 0 < dl_length (mkLengthInfo 6 1)
  /\ 1 + dl_bytesRead (mkLengthInfo 6 1) + dl_length (mkLengthInfo 6 1)
     <= len [x30; x06; x02; x84; xff; xff; xff; xfa]
  /\ decodeLength [x30; x06; x02; x84; xff; xff; xff; xfa]
       (1 + dl_bytesRead (mkLengthInfo 6 1) + 1)
     = Ok (mkLengthInfo (-6) 5)
  /\ 1 + dl_bytesRead (mkLengthInfo (-6) 5) + dl_length (mkLengthInfo (-6) 5) = 0
  /\ forall fuel,
      asn1ToXml fuel [x30; x06; x02; x84; xff; xff; xff; xfa] 2 = OutOfFuel
      /\ signatureToXml fuel (Bytes [x30; x06; x02; x84; xff; xff; xff; xfa])
         = OutOfFuel.
Proof.
  split; [lia|]. split; [reflexivity|]. split; [vm_compute; reflexivity|].
  split; [reflexivity|]. split; [vm_compute; discriminate|].
  split; [vm_compute; reflexivity|]. split; [reflexivity|].
  exact (asn1ToXml_zero_size_nested [x30; x06; x02; x84; xff; xff; xff; xfa] 2
           (mkLengthInfo 6 1) (mkLengthInfo (-6) 5) ltac:(lia) eq_refl
           ltac:(vm_compute; reflexivity) eq_refl
           ltac:(vm_compute; discriminate)
           ltac:(vm_compute; reflexivity) eq_refl).
Defined.

(** X30. The edges of [asn1ToXml]: the empty buffer gives the empty
    string; a buffer of one byte throws ['Offset out of bounds'], the
    length octet being looked for behind it; with a negative [indent]
    the first element throws a [RangeError], from [repeat]. *)
Theorem asn1ToXml_edges :
  (forall fuel indent, asn1ToXml fuel [] indent = Ok [])
  /\ (forall fuel tag indent, (1 <= fuel)%nat ->
      asn1ToXml fuel [tag] indent = Throw (Error "Offset out of bounds"))
  /\ (forall fuel data indent li, (1 <= fuel)%nat -> indent < 0 ->
      decodeLength data 1 = Ok li ->
      asn1ToXml fuel data indent = Throw RangeError).
Proof.
  split; [|split].
  - intros fuel indent. unfold asn1ToXml.
    rewrite element_loop_done by (change (len []) with 0; lia). reflexivity.
  - intros [|fuel] tag indent Hf; [lia|]. reflexivity.
  - intros [|fuel] data indent li Hf Hi Hl; [lia|].
    destruct (decodeLength_Ok_range _ _ _ Hl) as [Ho _].
    unfold asn1ToXml. rewrite element_loop_S by lia.
    change (0 + 1) with 1. rewrite Hl. cbn [bind]. rewrite recurse_S.
    destruct (Z.geb_spec 0 (len data)); [lia|].
    unfold String_repeat. destruct (Z.ltb_spec indent 0); [reflexivity|lia].
Qed.

Lemma asn1ToXml_edges_witness :
  asn1ToXml 0 [] 0 = Ok []
  /\ asn1ToXml 1 [x02] 0 = Throw (Error "Offset out of bounds")
  /\ asn1ToXml 1 [x02; x01; x07] (-1) = Throw RangeError.
Proof.
  split; [exact (proj1 asn1ToXml_edges 0%nat 0)|].
  split; [exact (proj1 (proj2 asn1ToXml_edges) 1%nat x02 0 ltac:(lia))|].
  refine (proj2 (proj2 asn1ToXml_edges) 1%nat [x02; x01; x07] (-1)
            (mkLengthInfo 1 1) _ _ _); [lia|lia|vm_compute; reflexivity].
Defined.
